(** * Metadata extraction of the scrollable EPUB reader (server/src/epub.ts,
    the module imported by server/src/index.ts)

    A shallow embedding of [safeJoin], [findOpfPath], [asText], [parseOpf],
    [extractChapters], [mergeChaptersWithSpine], [detectVertical] and
    [extractCoverHref], together with the parts of the JavaScript run time
    they rely on (string methods, the regular expressions written in the
    source, Node's POSIX [path] functions, the insertion-ordered [Map]).

    Conventions.
    - A JavaScript string is a [string]: a sequence of code units below 256.
    - A function that may throw returns a [result]; [try { .. } catch { }]
      is [try_catch].
    - The file system and the XML parser are the two services the engine
      consumes; they are section variables. *)

From Stdlib Require Import String Ascii List Bool Arith Lia.
From Stdlib Require Import DecimalString.
Import ListNotations.
Local Open Scope list_scope.
Local Open Scope string_scope.

(** ** Errors and the error monad *)

(** The four [throw new Error(..)] of the source, and the failures of the
    platform services. *)
Inductive error : Type :=
| PathTraversal      (* "Path traversal blocked" *)
| OpfNotFound        (* "OPF not found" *)
| MissingRootfile    (* "OPF full-path not found in container.xml" *)
| EmptySpine         (* "Spine is empty (could not resolve itemrefs)." *)
| ReadError          (* fs.readFile / fs.readFileSync rejected *)
| XmlError           (* XMLParser.parse threw *)
| TypeError.         (* a method called on a value that has none *)

Definition message (e : error) : string :=
  match e with
  | PathTraversal => "Path traversal blocked"
  | OpfNotFound => "OPF not found"
  | MissingRootfile => "OPF full-path not found in container.xml"
  | EmptySpine => "Spine is empty (could not resolve itemrefs)."
  | ReadError => "ENOENT"
  | XmlError => "XML"
  | TypeError => "TypeError"
  end.

Inductive result (A : Type) : Type :=
| Ok (a : A)
| Err (e : error).
Arguments Ok {A} a.
Arguments Err {A} e.

Definition bind {A B} (m : result A) (f : A -> result B) : result B :=
  match m with
  | Ok a => f a
  | Err e => Err e
  end.

Notation "x <- m ;; k" := (bind m (fun x => k))
  (at level 61, m at next level, right associativity).

(** [try { body } catch { }] around a body that computes a value: when the
    body throws, the value computed before the [try] is kept. *)
Definition try_catch {A} (body : result A) (otherwise : A) : A :=
  match body with
  | Ok a => a
  | Err _ => otherwise
  end.

(** ** Strings *)

Module Str.

(** [s.startsWith(p)] *)
Definition startsWith (s p : string) : bool := String.prefix p s.

(** [s.split(sep)] for a one-character separator: never empty. *)
Fixpoint split (sep : ascii) (s : string) : list string :=
  match s with
  | EmptyString => [EmptyString]
  | String c s' =>
      if Ascii.eqb c sep then EmptyString :: split sep s'
      else match split sep s' with
           | [] => [String c EmptyString]
           | h :: t => String c h :: t
           end
  end.

(** [s.split(sep)[0]] *)
Definition split0 (sep : ascii) (s : string) : string :=
  hd EmptyString (split sep s).

(** [segs.join(sep)] *)
Fixpoint join (sep : string) (segs : list string) : string :=
  match segs with
  | [] => EmptyString
  | [x] => x
  | x :: rest => x ++ sep ++ join sep rest
  end.

Fixpoint contains (c : ascii) (s : string) : bool :=
  match s with
  | EmptyString => false
  | String d s' => Ascii.eqb d c || contains c s'
  end.

Definition nonempty (s : string) : bool :=
  match s with EmptyString => false | String _ _ => true end.

(** Template literal [`${n}`] for a natural number. *)
Definition of_nat (n : nat) : string := NilEmpty.string_of_uint (Nat.to_uint n).

(** [s.endsWith(suffix)] *)
Fixpoint endsWith (s suffix : string) : bool :=
  String.eqb s suffix
  || match s with
     | String _ s' => endsWith s' suffix
     | EmptyString => false
     end.

(** [toLowerCase] on a code unit below 256: A-Z and the capital letters
    of Latin-1 (U+00C0 to U+00DE without the multiplication sign). *)
Definition lower (c : ascii) : ascii :=
  let n := nat_of_ascii c in
  if (Nat.leb 65 n && Nat.leb n 90)
     || (Nat.leb 192 n && Nat.leb n 222 && negb (Nat.eqb n 215))
  then ascii_of_nat (n + 32) else c.

Fixpoint toLowerCase (s : string) : string :=
  match s with
  | EmptyString => EmptyString
  | String c s' => String (lower c) (toLowerCase s')
  end.

End Str.

(** ** Node's POSIX [path] module *)

Module Path.

Definition slash : ascii := "/"%char.

Definition isAbsolute (p : string) : bool :=
  match p with
  | String c _ => Ascii.eqb c slash
  | EmptyString => false
  end.

(** One step of [normalizeString] with [allowAboveRoot = false], on the
    stack of segments kept so far (innermost first): empty segments and
    [.] are dropped, [..] removes the last kept segment if there is one. *)
Definition norm_step (stack : list string) (seg : string) : list string :=
  if String.eqb seg "" then stack
  else if String.eqb seg "." then stack
  else if String.eqb seg ".." then tl stack
  else seg :: stack.

Definition normalize_segments (segs : list string) : list string :=
  rev (fold_left norm_step segs []).

(** The loop of [path.resolve]: arguments are taken from the right, empty
    ones skipped, each prepended as [`${path}/${resolvedPath}`], until an
    absolute one has been taken; the working directory comes last. *)
Fixpoint resolve_concat (args_right_to_left : list string) (acc : string) : string :=
  match args_right_to_left with
  | [] => acc
  | p :: more =>
      if Str.nonempty p then
        let acc' := p ++ "/" ++ acc in
        if isAbsolute p then acc' else resolve_concat more acc'
      else resolve_concat more acc
  end.

(** [path.resolve(a, b)], the working directory [cwd] being absolute. *)
Definition resolve (cwd a b : string) : string :=
  "/" ++ Str.join "/"
    (normalize_segments (Str.split slash (resolve_concat [b; a; cwd] ""))).

(** Index scan of [path.posix.dirname]: walking the characters of the
    path from the right down to index 1, [end] is the index of the first
    slash met after a non-slash character. The path is given reversed,
    [i] is the index of its head. *)
Fixpoint dirname_end (rev_chars : list ascii) (i : nat) (matchedSlash : bool)
  : option nat :=
  match rev_chars, i with
  | _, O => None
  | [], _ => None
  | c :: more, S i' =>
      if Ascii.eqb c slash then
        if matchedSlash then dirname_end more i' true else Some i
      else dirname_end more i' false
  end.

Definition dirname (p : string) : string :=
  match p with
  | EmptyString => "."
  | String c _ =>
      let hasRoot := Ascii.eqb c slash in
      match dirname_end (rev (list_ascii_of_string p)) (String.length p - 1) true with
      | None => if hasRoot then "/" else "."
      | Some e => if hasRoot && Nat.eqb e 1 then "//" else substring 0 e p
      end
  end.

(** Index scan of [path.posix.basename] without suffix: returns
    [(start, end)]. The path is given reversed, [i] is the index of its
    head. *)
Fixpoint basename_scan (rev_chars : list ascii) (i : nat) (matchedSlash : bool)
    (end_ : option nat) : nat * option nat :=
  match rev_chars with
  | [] => (0, end_)
  | c :: more =>
      if Ascii.eqb c slash then
        if matchedSlash then basename_scan more (i - 1) matchedSlash end_
        else (i + 1, end_)
      else
        match end_ with
        | None => basename_scan more (i - 1) false (Some (i + 1))
        | Some _ => basename_scan more (i - 1) matchedSlash end_
        end
  end.

Definition basename (p : string) : string :=
  match basename_scan (rev (list_ascii_of_string p)) (String.length p - 1) true None with
  | (_, None) => ""
  | (start, Some e) => substring start (e - start) p
  end.

(** One step of [normalizeString] with [allowAboveRoot = true]: a [..]
    that has no segment to remove is kept. *)
Definition norm_step_above (stack : list string) (seg : string) : list string :=
  if String.eqb seg "" then stack
  else if String.eqb seg "." then stack
  else if String.eqb seg ".." then
    match stack with
    | [] => [".."]
    | top :: more => if String.eqb top ".." then ".." :: stack else more
    end
  else seg :: stack.

(** [path.posix.normalize] *)
Definition normalize (p : string) : string :=
  match p with
  | EmptyString => "."
  | String _ _ =>
      let isAbs := isAbsolute p in
      let trailingSeparator := Str.endsWith p "/" in
      let body :=
        Str.join "/"
          (rev (fold_left (if isAbs then norm_step else norm_step_above)
                          (Str.split slash p) [])) in
      match body with
      | EmptyString => if isAbs then "/" else if trailingSeparator then "./" else "."
      | String _ _ =>
          (if isAbs then "/" else "") ++ body ++ (if trailingSeparator then "/" else "")
      end
  end.

(** [path.join(...args)]: the non-empty arguments joined by slashes, then
    normalized. *)
Definition join (args : list string) : string :=
  match filter Str.nonempty args with
  | [] => "."
  | parts => normalize (Str.join "/" parts)
  end.

(** The segments of [path.resolve(p)]. *)
Definition resolved_segments (cwd p : string) : list string :=
  normalize_segments (Str.split slash (resolve_concat [p; cwd] "")).

Fixpoint drop_common (a b : list string) : list string * list string :=
  match a, b with
  | x :: a', y :: b' => if String.eqb x y then drop_common a' b' else (a, b)
  | _, _ => (a, b)
  end.

(** [path.relative(from, to)]: both paths are resolved; after their
    common leading segments, one [..] for each segment left of [from], then
    the segments left of [to]. *)
Definition relative (cwd from to : string) : string :=
  if String.eqb from to then ""
  else
    let (up, down) := drop_common (resolved_segments cwd from) (resolved_segments cwd to) in
    Str.join "/" (map (fun _ => "..") up ++ down)%list.

End Path.

(** ** Regular expressions

    The regular expressions of the source use literals, character classes,
    greedy and lazy repetition of one class, alternation, capturing groups,
    [\b] and [$], with the flags [i] and [g]. [run] is the backtracking
    matcher of ECMAScript in continuation-passing style: the continuation
    is the rest of the pattern, and the first alternative whose
    continuation succeeds wins. *)

Module Regex.

Inductive regex : Type :=
| Lit (s : string)                          (* literal characters *)
| Class (p : ascii -> bool)                 (* one character of a class *)
| Star (greedy : bool) (p : ascii -> bool)  (* [..]* and [..]*? *)
| Seq (r1 r2 : regex)
| Alt (r1 r2 : regex)
| Group (n : nat) (r : regex)               (* capturing group number n *)
| WordBoundary                              (* \b *)
| EndOfInput.                               (* $ *)

(** [[..]+] and [[..]+?] *)
Definition Plus (greedy : bool) (p : ascii -> bool) : regex :=
  Seq (Class p) (Star greedy p).

(** [Seq] of several parts. *)
Fixpoint seq (parts : list regex) : regex :=
  match parts with
  | [] => Lit ""
  | [r] => r
  | r :: more => Seq r (seq more)
  end.

(** *** Character classes *)

Definition code (c : ascii) : nat := nat_of_ascii c.

(** [\s]: white space and line terminators (code units below 256). *)
Definition space (c : ascii) : bool :=
  let n := code c in
  ((Nat.leb 9 n) && (Nat.leb n 13)) || Nat.eqb n 32 || Nat.eqb n 160.

(** [[\s\S]] *)
Definition any (c : ascii) : bool := space c || negb (space c).

(** [[^..]] for a class listing single characters. *)
Definition none_of (l : list ascii) (c : ascii) : bool :=
  negb (existsb (Ascii.eqb c) l).

Definition one_of (l : list ascii) (c : ascii) : bool :=
  existsb (Ascii.eqb c) l.

(** [\w] *)
Definition word (c : ascii) : bool :=
  let n := code c in
  ((Nat.leb 48 n) && (Nat.leb n 57)) || ((Nat.leb 65 n) && (Nat.leb n 90))
  || ((Nat.leb 97 n) && (Nat.leb n 122)) || Nat.eqb n 95.

(** Canonicalize of the [i] flag, on the letters a pattern of the source
    can contain: a-z are folded to A-Z; a code unit of 128 or more never
    folds to an ASCII one. *)
Definition canonicalize (c : ascii) : ascii :=
  let n := code c in
  if (Nat.leb 97 n) && (Nat.leb n 122) then ascii_of_nat (n - 32) else c.

Definition char_eq (ignoreCase : bool) (a c : ascii) : bool :=
  if ignoreCase then Ascii.eqb (canonicalize a) (canonicalize c)
  else Ascii.eqb a c.

(** *** The matcher *)

Definition captures : Type := list (nat * string).

(** The text between two positions of the input, the second given by
    what is left of the input there. *)
Definition consumed (s s' : string) : string :=
  substring 0 (String.length s - String.length s') s.

Fixpoint lit_match (ignoreCase : bool) (lit s : string) (prev : option ascii)
  : option (option ascii * string) :=
  match lit with
  | EmptyString => Some (prev, s)
  | String a lit' =>
      match s with
      | String c s' =>
          if char_eq ignoreCase a c then lit_match ignoreCase lit' s' (Some c)
          else None
      | EmptyString => None
      end
  end.

Definition is_word_at (c : option ascii) : bool :=
  match c with Some c => word c | None => false end.

Definition first_char (s : string) : option ascii :=
  match s with String c _ => Some c | EmptyString => None end.

Section Matcher.
Variable A : Type.
Variable ignoreCase : bool.

(** A continuation receives the character before the position, the
    rest of the input and the captures. *)
Definition cont : Type := option ascii -> string -> captures -> option A.

Fixpoint star_greedy (p : ascii -> bool) (k : cont) (g : captures)
    (prev : option ascii) (s : string) : option A :=
  match s with
  | String c s' =>
      if p c then
        match star_greedy p k g (Some c) s' with
        | Some x => Some x
        | None => k prev s g
        end
      else k prev s g
  | EmptyString => k prev s g
  end.

Fixpoint star_lazy (p : ascii -> bool) (k : cont) (g : captures)
    (prev : option ascii) (s : string) : option A :=
  match k prev s g with
  | Some x => Some x
  | None =>
      match s with
      | String c s' => if p c then star_lazy p k g (Some c) s' else None
      | EmptyString => None
      end
  end.

Fixpoint run (r : regex) (prev : option ascii) (s : string) (g : captures)
    (k : cont) : option A :=
  match r with
  | Lit l =>
      match lit_match ignoreCase l s prev with
      | Some (prev', s') => k prev' s' g
      | None => None
      end
  | Class p =>
      match s with
      | String c s' => if p c then k (Some c) s' g else None
      | EmptyString => None
      end
  | Star true p => star_greedy p k g prev s
  | Star false p => star_lazy p k g prev s
  | Seq r1 r2 => run r1 prev s g (fun prev' s' g' => run r2 prev' s' g' k)
  | Alt r1 r2 =>
      match run r1 prev s g k with
      | Some x => Some x
      | None => run r2 prev s g k
      end
  | Group n r1 =>
      run r1 prev s g (fun prev' s' g' => k prev' s' ((n, consumed s s') :: g'))
  | WordBoundary =>
      if xorb (is_word_at prev) (is_word_at (first_char s)) then k prev s g
      else None
  | EndOfInput =>
      match s with
      | EmptyString => k prev s g
      | String _ _ => None
      end
  end.
End Matcher.
Arguments run {A} ignoreCase r prev s g k.

(** A match starting at the current position: what is left of the input
    after it, and the captures. *)
Definition match_at (ignoreCase : bool) (r : regex) (prev : option ascii)
    (s : string) : option (string * captures) :=
  run ignoreCase r prev s [] (fun _ s' g => Some (s', g)).

Record match_result : Type := MatchResult {
  before : string;
  matched : string;
  groups : captures;
  after : string
}.

(** The leftmost match: [re.exec(s)] and [s.match(re)] without [g]. *)
Fixpoint exec_from (ignoreCase : bool) (r : regex) (prev : option ascii)
    (s : string) : option match_result :=
  match match_at ignoreCase r prev s with
  | Some (s', g) => Some (MatchResult "" (consumed s s') g s')
  | None =>
      match s with
      | EmptyString => None
      | String c s1 =>
          match exec_from ignoreCase r (Some c) s1 with
          | Some m => Some (MatchResult (String c (before m)) (matched m) (groups m) (after m))
          | None => None
          end
      end
  end.

Definition exec (ignoreCase : bool) (r : regex) (s : string) : option match_result :=
  exec_from ignoreCase r None s.

(** [re.test(s)] *)
Definition test (ignoreCase : bool) (r : regex) (s : string) : bool :=
  match exec ignoreCase r s with Some _ => true | None => false end.

(** [m[n]] for [n >= 1]: [None] is [undefined]. *)
Fixpoint group (n : nat) (g : captures) : option string :=
  match g with
  | [] => None
  | (i, s) :: more => if Nat.eqb i n then Some s else group n more
  end.

(** All the matches, from left to right, as the [g] flag finds them:
    the input is cut into the characters between matches and the
    matches. [skip] counts the characters of the input that belong to
    the match found last. *)
Inductive piece : Type :=
| Keep (c : ascii)
| Hit (text : string) (g : captures).

Fixpoint scan (ignoreCase : bool) (r : regex) (prev : option ascii)
    (s : string) (skip : nat) : list piece :=
  match s with
  | EmptyString =>
      match skip, match_at ignoreCase r prev s with
      | O, Some (_, g) => [Hit "" g]
      | _, _ => []
      end
  | String c s1 =>
      match skip with
      | S n => scan ignoreCase r (Some c) s1 n
      | O =>
          match match_at ignoreCase r prev s with
          | Some (s', g) =>
              match String.length s - String.length s' with
              | O => Hit "" g :: Keep c :: scan ignoreCase r (Some c) s1 0
              | S n => Hit (consumed s s') g :: scan ignoreCase r (Some c) s1 n
              end
          | None => Keep c :: scan ignoreCase r (Some c) s1 0
          end
      end
  end.

(** [s.replace(re, rep)] with the [g] flag, [rep] without [$]. *)
Fixpoint replace_pieces (rep : string) (ps : list piece) : string :=
  match ps with
  | [] => ""
  | Keep c :: more => String c (replace_pieces rep more)
  | Hit _ _ :: more => rep ++ replace_pieces rep more
  end.

Definition replaceAll (ignoreCase : bool) (r : regex) (rep s : string) : string :=
  replace_pieces rep (scan ignoreCase r None s 0).

(** [s.replace(re, rep)] without the [g] flag. *)
Definition replaceFirst (ignoreCase : bool) (r : regex) (rep s : string) : string :=
  match exec ignoreCase r s with
  | Some m => before m ++ rep ++ after m
  | None => s
  end.

(** The captures of every match: the loop [while ((m = re.exec(s)))]
    with the [g] flag. *)
Fixpoint hits (ps : list piece) : list captures :=
  match ps with
  | [] => []
  | Keep _ :: more => hits more
  | Hit _ g :: more => g :: hits more
  end.

Definition execAll (ignoreCase : bool) (r : regex) (s : string) : list captures :=
  hits (scan ignoreCase r None s 0).

(** [s.split(re)] for a separator that matches no empty text. *)
Fixpoint split_pieces (ps : list piece) : list string :=
  match ps with
  | [] => [""]
  | Keep c :: more =>
      match split_pieces more with
      | [] => [String c ""]
      | h :: t => String c h :: t
      end
  | Hit _ _ :: more => "" :: split_pieces more
  end.

Definition split (ignoreCase : bool) (r : regex) (s : string) : list string :=
  split_pieces (scan ignoreCase r None s 0).

End Regex.

(** [s.trim()] *)
Fixpoint trimStart (s : string) : string :=
  match s with
  | String c s' => if Regex.space c then trimStart s' else s
  | EmptyString => EmptyString
  end.

Fixpoint trimEnd (s : string) : string :=
  match s with
  | EmptyString => EmptyString
  | String c s' =>
      match trimEnd s' with
      | EmptyString => if Regex.space c then EmptyString else String c EmptyString
      | t => String c t
      end
  end.

Definition trim (s : string) : string := trimEnd (trimStart s).

(** ** Values produced by the XML parser

    The engine does two things with a number: it tests it for truth and
    it turns it into text with [String(x)]. A number is therefore given
    by the text [String(x)] yields for it: [1984], [1.5], [1e+21],
    [-Infinity], [NaN], and [0] for both zeros. *)

#[warnings="-register-all"]
Inductive json : Type :=
| JUndefined
| JNull
| JBool (b : bool)
| JNum (shown : string)
| JStr (s : string)
| JArr (items : list json)
| JObj (fields : list (string * json)).

(** The value stored under a key of an object, handed to [f]; [d] when the
    key is absent. The keys of an object are distinct. *)
Definition assoc_with {V A : Type} (f : V -> A) (d : A) (k : string)
  : list (string * V) -> A :=
  fix go (fs : list (string * V)) : A :=
    match fs with
    | [] => d
    | (k', v) :: more => if String.eqb k' k then f v else go more
    end.

(** [x?.[k]]: only objects have the keys the source asks for. *)
Definition get (x : json) (k : string) : json :=
  match x with
  | JObj fs => assoc_with (fun v => v) JUndefined k fs
  | _ => JUndefined
  end.

(** ** Induction on parsed values *)

Section JsonInduction.

Variable P : json -> Prop.
Hypothesis P_undefined : P JUndefined.
Hypothesis P_null : P JNull.
Hypothesis P_bool : forall b, P (JBool b).
Hypothesis P_num : forall z, P (JNum z).
Hypothesis P_str : forall s, P (JStr s).
Hypothesis P_arr : forall l, Forall P l -> P (JArr l).
Hypothesis P_obj : forall fs, Forall (fun kv => P (snd kv)) fs -> P (JObj fs).

Fixpoint json_nested_ind (x : json) : P x :=
  match x with
  | JUndefined => P_undefined
  | JNull => P_null
  | JBool b => P_bool b
  | JNum z => P_num z
  | JStr s => P_str s
  | JArr l =>
      P_arr l
        ((fix all (l : list json) : Forall P l :=
            match l with
            | [] => Forall_nil P
            | y :: more => Forall_cons y (json_nested_ind y) (all more)
            end) l)
  | JObj fs =>
      P_obj fs
        ((fix all (fs : list (string * json)) : Forall (fun kv => P (snd kv)) fs :=
            match fs with
            | [] => Forall_nil _
            | (k, v) :: more =>
                Forall_cons (k, v) (json_nested_ind v) (all more)
            end) fs)
  end.

End JsonInduction.

Definition nullish (x : json) : bool :=
  match x with
  | JUndefined | JNull => true
  | _ => false
  end.

(** [a ?? b] *)
Definition coalesce (a b : json) : json := if nullish a then b else a.

Definition truthy (x : json) : bool :=
  match x with
  | JUndefined | JNull => false
  | JBool b => b
  | JNum shown => negb (String.eqb shown "0" || String.eqb shown "NaN")
  | JStr s => Str.nonempty s
  | JArr _ | JObj _ => true
  end.

(** [Array.isArray(x) ? x : [x]] *)
Definition asArray (x : json) : list json :=
  match x with
  | JArr l => l
  | _ => [x]
  end.

(** The type guard [isString]: a string of positive length. *)
Definition isString (x : json) : option string :=
  match x with
  | JStr (String c s) => Some (String c s)
  | _ => None
  end.

(** [String(x)] on the primitive values. *)
Definition String_of_bool (b : bool) : string := if b then "true" else "false".

Fixpoint asText (x : json) : option string :=
  match x with
  | JStr s => Some s   (* [isString(x)] returns [x]; the empty string reaches [String(x)] *)
  | JArr l =>
      match l with
      | [] => None     (* [asText(undefined)] *)
      | x0 :: _ => asText x0
      end
  | JObj o =>
      (* [o[k] ?? otherwise], then [asText] of it *)
      let pick (k : string) (otherwise : option string) : option string :=
        assoc_with (fun v => if nullish v then otherwise else asText v) otherwise k o in
      pick "#text" (pick "text" (pick "#" (pick "_" None)))
  | JUndefined | JNull => None
  | JBool b => Some (String_of_bool b)
  | JNum shown => Some shown   (* [String(x)] *)
  end.

(** [l.map(f).filter(isString)] and the like: [f] narrows and keeps. *)
Fixpoint filterMap {A B : Type} (f : A -> option B) (l : list A) : list B :=
  match l with
  | [] => []
  | a :: more =>
      match f a with
      | Some b => b :: filterMap f more
      | None => filterMap f more
      end
  end.

(** ** The insertion-ordered [Map] with string keys *)

Module JsMap.
Section Ops.
Context {V : Type}.

Definition t : Type := list (string * V).

Definition empty : t := [].

(** [m.set(k, v)]: a key already present keeps its place. *)
Fixpoint set (k : string) (v : V) (m : t) : t :=
  match m with
  | [] => [(k, v)]
  | (k', v') :: more =>
      if String.eqb k' k then (k, v) :: more else (k', v') :: set k v more
  end.

Definition get (k : string) (m : t) : option V :=
  assoc_with (fun v => Some v) None k m.

Definition has (k : string) (m : t) : bool :=
  match get k m with Some _ => true | None => false end.

(** [m.values()], in insertion order. *)
Definition values (m : t) : list V := map snd m.
End Ops.
Arguments t : clear implicits.
End JsMap.

(** ** Data of the engine *)

Record ManifestItem : Type := mkItem {
  item_href : string;
  item_properties : json;
  item_mediaType : json
}.

Record Chapter : Type := mkChapter {
  title : string;
  href : string
}.

Record BookManifest : Type := mkManifest {
  m_title : string;
  m_opfPath : string;
  m_spine : list string;
  m_chapters : list Chapter;
  m_coverHref : option string;
  m_vertical : bool
}.

(** ** The regular expressions of the source *)

Module Re.
Import Regex.

(** In the comments of this module DQ stands for the double-quote
    character. *)

Definition dquote : ascii := ascii_of_nat 34.
Definition squote : ascii := "'"%char.
Definition backslash : ascii := ascii_of_nat 92.
Definition quote : ascii -> bool := one_of [dquote; squote].
Definition not_quote : ascii -> bool := none_of [dquote; squote].
Definition not_gt : ascii -> bool := none_of [">"%char].
Definition not_dot : ascii -> bool := none_of ["."%char].

(** [/\\/g] *)
Definition backslashes : regex := Class (one_of [backslash]).

(** [/<[^>]+>/g] *)
Definition tag : regex := seq [Lit "<"; Plus true not_gt; Lit ">"].

(** [/\s+/g] and [/\s+/] *)
Definition spaces : regex := Plus true space.

(** [/<title[^>]*>([\s\S]*?)<\/title>/i] *)
Definition title : regex :=
  seq [Lit "<title"; Star true not_gt; Lit ">"; Group 1 (Star false any); Lit "</title>"].

(** [/<nav[^>]*(?:epub:type|role)=[DQ'](?:toc|doc-toc)[DQ'][^>]*>([\s\S]*?)<\/nav>/i] *)
Definition nav : regex :=
  seq [Lit "<nav"; Star true not_gt; Alt (Lit "epub:type") (Lit "role"); Lit "=";
       Class quote; Alt (Lit "toc") (Lit "doc-toc"); Class quote;
       Star true not_gt; Lit ">"; Group 1 (Star false any); Lit "</nav>"].

(** [/<a\b[^>]*href\s*=\s*[DQ']([^DQ']+)[DQ'][^>]*>([\s\S]*?)<\/a>/gi] *)
Definition link : regex :=
  seq [Lit "<a"; WordBoundary; Star true not_gt; Lit "href"; Star true space;
       Lit "="; Star true space; Class quote; Group 1 (Plus true not_quote);
       Class quote; Star true not_gt; Lit ">"; Group 2 (Star false any); Lit "</a>"].

(** [/\.[^.]+$/] *)
Definition extension : regex := seq [Lit "."; Plus true not_dot; EndOfInput].

(** [/writing-mode\s*:\s*vertical/i] *)
Definition writing_mode : regex :=
  seq [Lit "writing-mode"; Star true space; Lit ":"; Star true space; Lit "vertical"].

(** [/vertical-rl|vertical-lr/i] *)
Definition vertical_rl_lr : regex := Alt (Lit "vertical-rl") (Lit "vertical-lr").

(** [/page-progression-direction\s*=\s*[DQ']rtl[DQ']/i] *)
Definition rtl : regex :=
  seq [Lit "page-progression-direction"; Star true space; Lit "="; Star true space;
       Class quote; Lit "rtl"; Class quote].

(** [/<img[^>]*src=[DQ']([^DQ']+)[DQ']/i] *)
Definition img : regex :=
  seq [Lit "<img"; Star true not_gt; Lit "src="; Class quote;
       Group 1 (Plus true not_quote); Class quote].

(** [/<image[^>]*(?:xlink:href|href)=[DQ']([^DQ']+)[DQ']/i] *)
Definition image : regex :=
  seq [Lit "<image"; Star true not_gt; Alt (Lit "xlink:href") (Lit "href"); Lit "=";
       Class quote; Group 1 (Plus true not_quote); Class quote].
End Re.

(** [m[n] || ''] *)
Definition group_or_empty (n : nat) (m : Regex.match_result) : string :=
  match Regex.group n (Regex.groups m) with
  | Some s => s
  | None => ""
  end.

Definition stripTags (s : string) : string :=
  trim (Regex.replaceAll false Re.spaces " " (Regex.replaceAll false Re.tag " " s)).

(** [(opfDir ? `${opfDir}/${href}` : href)] *)
Definition underOpfDir (opfDir href : string) : string :=
  if Str.nonempty opfDir then opfDir ++ "/" ++ href else href.

Definition normalizeHref (opfDir href : string) : string :=
  Regex.replaceAll false Re.backslashes "/" (underOpfDir opfDir href).

(** The closure [resolveHref] of [parseOpf]. *)
Definition resolveHref (opfDir href : string) : string :=
  Regex.replaceAll false Re.backslashes "/" (underOpfDir opfDir href).

(** [v.properties && v.properties.split(/\s+/).includes(token)]: a truthy
    value that is no string has no [split]. *)
Definition hasProperty (token : string) (properties : json) : result bool :=
  match properties with
  | JStr s =>
      Ok (Str.nonempty s && existsb (String.eqb token) (Regex.split false Re.spaces s))
  | other => if truthy other then Err TypeError else Ok false
  end.

(** [for (const v of manifestMap.values()) if (..includes(token)) { .. break }] *)
Fixpoint firstWithProperty (token : string) (vals : list ManifestItem)
  : result (option ManifestItem) :=
  match vals with
  | [] => Ok None
  | v :: more =>
      b <- hasProperty token (item_properties v) ;;
      if b then Ok (Some v) else firstWithProperty token more
  end.

(** The label of last resort of the scraping loop and of the merge loop:
    [base.replace(/\.[^.]+$/, '') || `Chapter ${i + 1}`] with
    [base = path.posix.basename(cleanHref || href)]. *)
Definition derivedTitle (i : nat) (cleanHref href : string) : string :=
  let base := Path.basename (if Str.nonempty cleanHref then cleanHref else href) in
  let stem := Regex.replaceFirst false Re.extension "" base in
  if Str.nonempty stem then stem else "Chapter " ++ Str.of_nat (i + 1).

(** [html.match(/<title..>/i)] followed by [stripTags(m[1] || '')];
    [None] is the [null] the variable [title] starts with. *)
Definition pageTitle (html : string) : option string :=
  match Regex.exec true Re.title html with
  | Some m => Some (stripTags (group_or_empty 1 m))
  | None => None
  end.

(** [!title] for [title : string | null] *)
Definition noTitle (t : option string) : bool :=
  match t with
  | Some s => negb (Str.nonempty s)
  | None => true
  end.

(** A loop [for (let i = 0; i < l.length; i++)] that pushes one entry
    per element. *)
Fixpoint mapi_from {A B : Type} (f : nat -> A -> B) (i : nat) (l : list A) : list B :=
  match l with
  | [] => []
  | a :: more => f i a :: mapi_from f (S i) more
  end.

Definition mapi {A B : Type} (f : nat -> A -> B) (l : list A) : list B :=
  mapi_from f 0 l.

(** The recursive closure [walk] of [extractChapters], returning the
    entries it pushes. *)
Fixpoint walk (opfDir : string) (np : json) : list Chapter :=
  let pushed :=
    match isString (get (get np "navLabel") "text"),
          isString (get (get np "content") "@_src") with
    | Some label, Some src =>
        [mkChapter label (Regex.replaceAll false Re.backslashes "/" (underOpfDir opfDir src))]
    | _, _ => []
    end in
  match np with
  | JObj fs =>
      pushed ++
      assoc_with
        (fun children =>
           match children with
           | JUndefined | JNull => []     (* [?? []] *)
           | JArr childArr =>
               flat_map (fun c => if truthy c then walk opfDir c else []) childArr
           | JObj _ => walk opfDir children
           | JBool _ | JNum _ | JStr _ => []   (* [walk] of a primitive pushes nothing *)
           end)
        [] "navPoint" fs
  | _ => pushed
  end.

(** [for (const p of arr) if (p) walk(p)] *)
Definition walkAll (opfDir : string) (arr : list json) : list Chapter :=
  flat_map (fun p => if truthy p then walk opfDir p else []) arr.

(** The entries pushed by the loop over the links of the navigation
    block. *)
Definition navLinks (opfDir : string) (navHtml : string) : list Chapter :=
  let navBlock :=
    match Regex.exec true Re.nav navHtml with
    | Some m => group_or_empty 1 m   (* a group that matched is defined *)
    | None => navHtml
    end in
  filterMap
    (fun g =>
       match Regex.group 1 g with
       | Some (String c h) =>
           let linkTitle :=
             stripTags (match Regex.group 2 g with Some t => t | None => "" end) in
           if Str.nonempty linkTitle then
             Some (mkChapter linkTitle
                     (Regex.replaceAll false Re.backslashes "/"
                        (underOpfDir opfDir (String c h))))
           else None
       | _ => None
       end)
    (Regex.execAll true Re.link navBlock).

(** The loop of [mergeChaptersWithSpine] that fills [titleMap]. *)
Definition titleMapOf (chapters : list Chapter) : JsMap.t string :=
  fold_left
    (fun titleMap c =>
       let base := Str.split0 "#" (href c) in
       if negb (JsMap.has base titleMap) && Str.nonempty (title c)
       then JsMap.set base (title c) titleMap
       else titleMap)
    chapters JsMap.empty.

(** [findCoverIdFromMetadata]: the loop over [arr]. *)
Fixpoint findCoverId (arr : list json) : option string :=
  match arr with
  | [] => None
  | m :: more =>
      match get m "@_name" with
      | JStr name =>
          if String.eqb name "cover" then
            match isString (get m "@_content") with
            | Some content => Some content
            | None => findCoverId more
            end
          else findCoverId more
      | _ => findCoverId more
      end
  end.

Definition findCoverIdFromMetadata (metadata : json) : option string :=
  findCoverId (asArray (coalesce (get metadata "meta") (JArr []))).

(** ** The file system *)

Inductive node : Type :=
| File (content : string)
| Directory.

(** What is found at an absolute path. *)
Definition filesystem : Type := string -> option node.

(** ** The engine *)

Section Engine.

(** [process.cwd()], an absolute path. *)
Variable cwd : string.

(** The directory tree the engine reads. *)
Variable fs : filesystem.

(** [new XMLParser({ ignoreAttributes: false }).parse] *)
Variable parseXml : string -> result json.

(** [fssync.existsSync] *)
Definition existsSync (p : string) : bool :=
  match fs p with Some _ => true | None => false end.

(** [fs.readFile(p, "utf8")] and [fssync.readFileSync(p, "utf8")] *)
Definition readFile (p : string) : result string :=
  match fs p with
  | Some (File content) => Ok content
  | Some Directory | None => Err ReadError
  end.

Definition readText (p : string) : result string := readFile p.

Definition safeJoin (baseAbs relPath : string) : result string :=
  let resolved := Path.resolve cwd baseAbs relPath in
  if negb (Str.startsWith resolved baseAbs) then Err PathTraversal
  else Ok resolved.

(** *** [extractChapters] *)

(** EPUB2: spine [@toc] -> NCX. *)
Definition legacyToc (bookRootAbs opfDir : string) (opfJson : json)
    (manifestMap : JsMap.t ManifestItem) : result (list Chapter) :=
  match isString (get (get (get opfJson "package") "spine") "@_toc") with
  | Some tocId =>
      match JsMap.get tocId manifestMap with
      | Some ncx =>
          if Str.nonempty (item_href ncx) then
            ncxAbs <- safeJoin bookRootAbs (underOpfDir opfDir (item_href ncx)) ;;
            if existsSync ncxAbs then
              Ok (try_catch
                    (ncxXml <- readText ncxAbs ;;
                     ncxJson <- parseXml ncxXml ;;
                     let navMap := get (get ncxJson "ncx") "navMap" in
                     let navPoints := coalesce (get navMap "navPoint") (JArr []) in
                     Ok (walkAll opfDir (asArray navPoints)))
                    [])
            else Ok []
          else Ok []
      | None => Ok []
      end
  | None => Ok []
  end.

(** EPUB3: manifest item with [properties="nav"]. *)
Definition navDocument (bookRootAbs opfDir : string)
    (manifestMap : JsMap.t ManifestItem) : result (list Chapter) :=
  found <- firstWithProperty "nav" (JsMap.values manifestMap) ;;
  match found with
  | Some v =>
      if Str.nonempty (item_href v) then
        navAbs <- safeJoin bookRootAbs (underOpfDir opfDir (item_href v)) ;;
        if existsSync navAbs then
          Ok (try_catch
                (navHtml <- readText navAbs ;;
                 Ok (navLinks opfDir navHtml))
                [])
        else Ok []
      else Ok []
  | None => Ok []
  end.

(** Fallback: [<title>] of each spine document, then file name, then
    generic. *)
Definition scrapeSpine (bookRootAbs : string) (spine : list string) : list Chapter :=
  mapi
    (fun i href =>
       let cleanHref := Str.split0 "#" href in
       let title0 : option string :=
         try_catch
           (abs <- safeJoin bookRootAbs cleanHref ;;
            html <- readText abs ;;
            Ok (pageTitle html))
           None in
       let title1 :=
         match title0 with
         | Some t => if Str.nonempty t then t else derivedTitle i cleanHref href
         | None => derivedTitle i cleanHref href
         end in
       mkChapter title1 href)
    spine.

Definition extractChapters (bookRootAbs opfDir : string) (opfJson : json)
    (manifestMap : JsMap.t ManifestItem) (spine : list string)
  : result (list Chapter) :=
  chapters <- legacyToc bookRootAbs opfDir opfJson manifestMap ;;
  if negb (Nat.eqb (length chapters) 0) then Ok chapters
  else
    chapters <- navDocument bookRootAbs opfDir manifestMap ;;
    if negb (Nat.eqb (length chapters) 0) then Ok chapters
    else Ok (scrapeSpine bookRootAbs spine).

(** *** [mergeChaptersWithSpine] *)

Definition mergeChaptersWithSpine (bookRootAbs : string) (spine : list string)
    (chapters : list Chapter) : list Chapter :=
  let titleMap := titleMapOf chapters in
  mapi
    (fun i href =>
       let base := Str.split0 "#" href in
       let title0 : option string :=
         match JsMap.get base titleMap with
         | Some t => if Str.nonempty t then Some t else None   (* [|| null] *)
         | None => None
         end in
       let title1 : option string :=
         if noTitle title0 then
           try_catch
             (abs <- safeJoin bookRootAbs base ;;
              html <- (if existsSync abs then readFile abs else Ok EmptyString) ;;
              Ok (match pageTitle html with
                  | Some t => Some t
                  | None => title0
                  end))
             title0
         else title0 in
       let title2 :=
         if noTitle title1 then derivedTitle i base href
         else match title1 with Some t => t | None => EmptyString end in
       mkChapter title2 href)
    spine.

(** *** [detectVertical] *)

Definition detectVertical (bookRootAbs : string) (spine : list string)
    (opfRelPath : string) : result bool :=
  match spine with
  | [] => Ok false
  | first :: _ =>
      if negb (Str.nonempty first) then Ok false
      else if
        try_catch
          (abs <- safeJoin bookRootAbs (Str.split0 "#" first) ;;
           html <- readText abs ;;
           Ok (Regex.test true Re.writing_mode html
               || Regex.test true Re.vertical_rl_lr html
               || Regex.test true Re.rtl html))
          false
      then Ok true
      else if
        try_catch
          (opfAbs <- safeJoin bookRootAbs opfRelPath ;;
           if existsSync opfAbs then
             opfXml <- readFile opfAbs ;;
             Ok (Regex.test true Re.rtl opfXml)
           else Ok false)
          false
      then Ok true
      else Ok false
  end.

(** *** [extractCoverHref] *)

(** Fallback: read first spine doc and grab first image. *)
Definition firstImage (bookRootAbs opfDir : string) (spine : list string)
  : option string :=
  match spine with
  | [] => None
  | first :: _ =>
      try_catch
        (abs <- safeJoin bookRootAbs (Str.split0 "#" first) ;;
         html <- readText abs ;;
         let m :=
           match Regex.exec true Re.img html with
           | Some m => Some m
           | None => Regex.exec true Re.image html
           end in
         Ok (match m with
             | Some m =>
                 match Regex.group 1 (Regex.groups m) with
                 | Some (String c s) => Some (normalizeHref opfDir (String c s))
                 | _ => None
                 end
             | None => None
             end))
        None
  end.

Definition extractCoverHref (bookRootAbs opfDir : string) (opfJson : json)
    (manifestMap : JsMap.t ManifestItem) (spine : list string)
  : result (option string) :=
  let metadata := get (get opfJson "package") "metadata" in
  (* EPUB2: <meta name="cover" content="cover-image-id" /> *)
  let fromMeta : option string :=
    match findCoverIdFromMetadata metadata with
    | Some coverId =>
        match JsMap.get coverId manifestMap with
        | Some item =>
            if Str.nonempty (item_href item)
            then Some (normalizeHref opfDir (item_href item))
            else None
        | None => None
        end
    | None => None
    end in
  match fromMeta with
  | Some h => Ok (Some h)
  | None =>
      (* EPUB3: manifest item with properties="cover-image" *)
      found <- firstWithProperty "cover-image" (JsMap.values manifestMap) ;;
      match found with
      | Some v => Ok (Some (normalizeHref opfDir (item_href v)))
      | None => Ok (firstImage bookRootAbs opfDir spine)
      end
  end.

(** *** [parseOpf] *)

(** The loop that fills [manifestMap]. *)
Definition manifestMapOf (itemsArr : list json) : JsMap.t ManifestItem :=
  fold_left
    (fun manifestMap it =>
       match isString (get it "@_id"), isString (get it "@_href") with
       | Some id, Some href =>
           JsMap.set id
             (mkItem href (get it "@_properties") (get it "@_media-type"))
             manifestMap
       | _, _ => manifestMap
       end)
    itemsArr JsMap.empty.

(** The chain of [map] and [filter] that computes [spine]. *)
Definition spineOf (opfDir : string) (manifestMap : JsMap.t ManifestItem)
    (spineArr : list json) : list string :=
  map (resolveHref opfDir)
    (filterMap
       (fun idref =>
          match JsMap.get idref manifestMap with
          | Some it => isString (JStr (item_href it))
          | None => None
          end)
       (filterMap (fun it => isString (get it "@_idref")) spineArr)).

Definition titleOf (json : json) : string :=
  let metadata := get (get json "package") "metadata" in
  let titleRaw :=
    coalesce (coalesce (get metadata "dc:title") (get metadata "title"))
             (JStr "Untitled") in
  match asText titleRaw with
  | Some t => t
  | None => "Untitled"
  end.

(** [opfDirRel === "." ? "" : opfDirRel] *)
Definition opfDirOf (opfRelPath : string) : string :=
  let opfDirRel := Path.dirname opfRelPath in
  if String.eqb opfDirRel "." then EmptyString else opfDirRel.

Definition parseOpf (bookRootAbs opfRelPath : string) : result BookManifest :=
  opfAbs <- safeJoin bookRootAbs opfRelPath ;;
  opfXml <- readText opfAbs ;;
  json <- parseXml opfXml ;;
  let title := titleOf json in
  let manifestItems :=
    coalesce (get (get (get json "package") "manifest") "item") (JArr []) in
  let spineItems :=
    coalesce (get (get (get json "package") "spine") "itemref") (JArr []) in
  let itemsArr := asArray manifestItems in
  let spineArr := asArray spineItems in
  let manifestMap := manifestMapOf itemsArr in
  let opfDir := opfDirOf opfRelPath in
  let spine := spineOf opfDir manifestMap spineArr in
  if Nat.eqb (length spine) 0 then Err EmptySpine
  else
    chapters0 <- extractChapters bookRootAbs opfDir json manifestMap spine ;;
    let chapters :=
      if Nat.ltb (length chapters0) (length spine)
      then mergeChaptersWithSpine bookRootAbs spine chapters0
      else chapters0 in
    coverHref <- extractCoverHref bookRootAbs opfDir json manifestMap spine ;;
    vertical <- detectVertical bookRootAbs spine opfRelPath ;;
    Ok (mkManifest title opfRelPath spine chapters coverHref vertical).

End Engine.

(** ** The directory tree and [findOpfPath]

    [findOpfPath] lists directories, so the file system is a tree here:
    a directory holds named entries, in the order [readdir] gives them,
    or it is a directory whose listing fails. *)

#[warnings="-register-all"]
Inductive tree : Type :=
| TFile (content : string)
| TOther                                   (* neither file nor directory *)
| TDir (entries : list (string * tree))
| TLocked.                                 (* a directory that cannot be listed *)

Definition entryNamed (name : string) (entries : list (string * tree)) : option tree :=
  assoc_with (fun t => Some t) None name entries.

Fixpoint lookupTree (t : tree) (segs : list string) : option tree :=
  match segs with
  | [] => Some t
  | seg :: more =>
      match t with
      | TDir entries =>
          match entryNamed seg entries with
          | Some sub => lookupTree sub more
          | None => None
          end
      | TFile _ | TOther | TLocked => None
      end
  end.

(** The file system of the engine that a tree rooted at [/] gives. *)
Definition treeFs (cwd : string) (disk : tree) : filesystem :=
  fun p =>
    match lookupTree disk (Path.resolved_segments cwd p) with
    | Some (TFile content) => Some (File content)
    | Some TOther | Some (TDir _) | Some TLocked => Some Directory
    | None => None
    end.

(** The closure [walk] of [findOpfPath], returning the paths it pushes:
    [t] is what is found at [dir]. The listing of [dir] is awaited outside
    any [try]: when it fails, in [dir] or in a directory below, the walk
    fails and nothing that was pushed is used. *)
Fixpoint walkOpfs (dir : string) (t : tree) : result (list string) :=
  match t with
  | TDir entries =>
      (fix each (es : list (string * tree)) : result (list string) :=
         match es with
         | [] => Ok []
         | (name, sub) :: more =>
             let p := Path.join [dir; name] in
             pushed <- match sub with
                       | TDir _ | TLocked => walkOpfs p sub
                       | TFile _ =>
                           Ok (if Str.endsWith (Str.toLowerCase name) ".opf"
                               then [p] else [])
                       | TOther => Ok []
                       end ;;
             later <- each more ;;
             Ok (pushed ++ later)%list
         end) entries
  | TLocked | TFile _ | TOther => Err ReadError
  end.

Section Locator.

Variable cwd : string.
Variable disk : tree.
Variable parseXml : string -> result json.

(** [fs.readdir(dir, { withFileTypes: true })] *)
Definition readdir (dir : string) : result (list (string * tree)) :=
  match lookupTree disk (Path.resolved_segments cwd dir) with
  | Some (TDir entries) => Ok entries
  | Some (TFile _) | Some TOther | Some TLocked | None => Err ReadError
  end.

Definition findOpfPath (bookRootAbs : string) : result string :=
  let containerPath := Path.join [bookRootAbs; "META-INF"; "container.xml"] in
  if negb (existsSync (treeFs cwd disk) containerPath) then
    entries <- readdir bookRootAbs ;;
    opfs <- walkOpfs bookRootAbs (TDir entries) ;;
    match opfs with
    | [] => Err OpfNotFound
    | first :: _ =>
        Ok (Regex.replaceAll false Re.backslashes "/"
              (Path.relative cwd bookRootAbs first))
    end
  else
    xml <- readText (treeFs cwd disk) containerPath ;;
    doc <- parseXml xml ;;
    let rootfile := get (get (get doc "container") "rootfiles") "rootfile" in
    let fullPath :=
      match rootfile with
      | JArr l => get (nth 0 l JUndefined) "@_full-path"
      | _ => get rootfile "@_full-path"
      end in
    match fullPath with
    | JStr s =>
        if Str.nonempty s then Ok (Regex.replaceAll false Re.backslashes "/" s)
        else Err MissingRootfile
    | other => if truthy other then Err TypeError else Err MissingRootfile
    end.

End Locator.

(** ** Vocabulary of the statements *)

(** A path lies within a directory: it is the directory or a path below
    it. *)
Definition within (root p : string) : Prop :=
  p = root \/ exists below, p = root ++ "/" ++ below.

(** The absolute path with the given segments. *)
Definition absolutePath (segs : list string) : string :=
  "/" ++ Str.join "/" segs.

(** A segment of a normalized path: not empty, without slash, neither
    [.] nor [..]. *)
Definition plainSegment (s : string) : bool :=
  Str.nonempty s && negb (Str.contains Path.slash s)
  && negb (String.eqb s ".") && negb (String.eqb s "..").

(** The separators of a path are normalized: it has no backslash. *)
Definition noBackslash (s : string) : Prop := Str.contains Re.backslash s = false.

(** The first non-empty title among the entries whose href, fragment
    stripped, is [base]. *)
Definition firstTitleFor (base : string) (chapters : list Chapter) : option string :=
  option_map title
    (find (fun c => String.eqb (Str.split0 "#" (href c)) base && Str.nonempty (title c))
          chapters).

(** The embedded image reference whose tag starts first in the document,
    following the words of the specification of the cover fallback: the
    first reference, raster ([img]) or vector ([image]), in document
    order. *)
Definition firstImageInDocumentOrder (html : string) : option string :=
  match Regex.exec true Re.img html, Regex.exec true Re.image html with
  | Some raster, Some vector =>
      if Nat.leb (String.length (Regex.before raster)) (String.length (Regex.before vector))
      then Regex.group 1 (Regex.groups raster)
      else Regex.group 1 (Regex.groups vector)
  | Some raster, None => Regex.group 1 (Regex.groups raster)
  | None, Some vector => Regex.group 1 (Regex.groups vector)
  | None, None => None
  end.

(** The absolute path of the legacy TOC document a package declares. *)
Definition ncxPath (cwd bookRootAbs opfDir : string) (opfJson : json)
    (manifestMap : JsMap.t ManifestItem) : option string :=
  match isString (get (get (get opfJson "package") "spine") "@_toc") with
  | Some tocId =>
      match JsMap.get tocId manifestMap with
      | Some ncx => Some (Path.resolve cwd bookRootAbs (underOpfDir opfDir (item_href ncx)))
      | None => None
      end
  | None => None
  end.

(** The manifest table and the spine [parseOpf] computes from the value
    of the package document. *)
Definition manifestMapOfJson (json : json) : JsMap.t ManifestItem :=
  manifestMapOf
    (asArray (coalesce (get (get (get json "package") "manifest") "item") (JArr []))).

Definition spineOfJson (opfRelPath : string) (json : json) : list string :=
  spineOf (opfDirOf opfRelPath) (manifestMapOfJson json)
    (asArray (coalesce (get (get (get json "package") "spine") "itemref") (JArr []))).

(** The text of a document declares right-to-left page progression: it
    contains the attribute [page-progression-direction] with the quoted
    value [rtl]. *)
Definition declaresRtl (xml : string) : Prop :=
  exists (pre post : string) (q : ascii),
    Re.quote q = true
    /\ xml = pre ++ "page-progression-direction=" ++ String q ("rtl" ++ String q post).

(** An attribute value as the parser gives it: a string, or nothing. *)
Definition stringOrAbsent (x : json) : bool :=
  match x with
  | JStr _ => true
  | other => negb (truthy other)
  end.

(** A manifest item whose document lies within the package root and
    whose properties attribute is a string or absent. *)
Definition itemWellFormed (cwd bookRootAbs opfDir : string) (item : ManifestItem) : Prop :=
  Str.startsWith (Path.resolve cwd bookRootAbs (underOpfDir opfDir (item_href item)))
    bookRootAbs = true
  /\ stringOrAbsent (item_properties item) = true.

(** Two file systems hold the same at every path [safeJoin] accepts for
    a root: the paths that start with the root. *)
Definition agreeWithin (bookRootAbs : string) (fs fs' : filesystem) : Prop :=
  forall p, Str.startsWith p bookRootAbs = true -> fs' p = fs p.

(** The manifest item the metadata entry named [cover] points to. *)
Definition coverItemOfMetadata (opfJson : json) (manifestMap : JsMap.t ManifestItem)
  : option ManifestItem :=
  match findCoverIdFromMetadata (get (get opfJson "package") "metadata") with
  | Some coverId =>
      match JsMap.get coverId manifestMap with
      | Some item => if Str.nonempty (item_href item) then Some item else None
      | None => None
      end
  | None => None
  end.

(** The image reference the cover fallback takes from a document: the
    [src] of the first [img] tag that has one; when there is none, the
    [xlink:href] or [href] of the first [image] tag that has one. *)
Definition imgThenImage (html : string) : option string :=
  match Regex.exec true Re.img html with
  | Some m => Regex.group 1 (Regex.groups m)
  | None =>
      match Regex.exec true Re.image html with
      | Some m => Regex.group 1 (Regex.groups m)
      | None => None
      end
  end.

(** *** Vocabulary for directories, separators and property tokens *)

(** A text with every backslash turned into a slash. *)
Definition withSlashes (s : string) : string :=
  string_of_list_ascii
    (map (fun c => if Ascii.eqb c Re.backslash then Path.slash else c)
         (list_ascii_of_string s)).

(** The hrefs of the manifest items that the item-references of the spine
    name, in the order of the references; a reference without idref, or
    whose idref names no manifest item, gives nothing. *)
Definition referencedHrefs (json : json) : list string :=
  flat_map
    (fun it =>
       match isString (get it "@_idref") with
       | Some idref =>
           match JsMap.get idref (manifestMapOfJson json) with
           | Some item => [item_href item]
           | None => []
           end
       | None => []
       end)
    (asArray (coalesce (get (get (get json "package") "spine") "itemref") (JArr []))).

(** A property token: not empty, without white space. A separator: a
    non-empty run of white space. *)
Definition isToken (s : string) : bool :=
  Str.nonempty s && forallb (fun c => negb (Regex.space c)) (list_ascii_of_string s).

Definition isSeparator (s : string) : bool :=
  Str.nonempty s && forallb Regex.space (list_ascii_of_string s).

(** The text of a list of tokens: the first token, then every further
    token after its separator. *)
Fixpoint spaced (first : string) (more : list (string * string)) : string :=
  match more with
  | [] => first
  | (sep, tok) :: more' => first ++ sep ++ spaced tok more'
  end.

Definition tokenList (first : string) (more : list (string * string)) : bool :=
  isToken first && forallb (fun st => isSeparator (fst st) && isToken (snd st)) more.

(** A properties attribute that is a list of tokens with, or without, a
    given token; an absent attribute has none. *)
Definition declares (token : string) (properties : json) : Prop :=
  exists (first : string) (more : list (string * string)),
    properties = JStr (spaced first more)
    /\ tokenList first more = true
    /\ In token (first :: map snd more).

Definition declaresNot (token : string) (properties : json) : Prop :=
  truthy properties = false
  \/ exists (first : string) (more : list (string * string)),
       properties = JStr (spaced first more)
       /\ tokenList first more = true
       /\ ~ In token (first :: map snd more).

(** A text cut at its runs of white space; [inRun] tells whether the text
    continues a run. *)
Fixpoint spaceSplit (inRun : bool) (s : string) : list string :=
  match s with
  | EmptyString => [EmptyString]
  | String c s' =>
      if Regex.space c
      then if inRun then spaceSplit true s' else EmptyString :: spaceSplit true s'
      else match spaceSplit false s' with
           | [] => [String c EmptyString]
           | h :: t => String c h :: t
           end
  end.

(** ** Sample packages

    Unpacked packages under [/data/books], with the values the XML parser
    ([ignoreAttributes: false], attribute prefix [@_]) gives for their
    documents. *)

Module Sample.

Definition cwd : string := "/srv".

(** [b1]: a legacy TOC with two entries into the only spine document. *)
Definition b1_opf : string :=
  "<package version='2.0'><metadata><dc:title>Two Parts</dc:title></metadata>"
  ++ "<manifest><item id='ncx' href='toc.ncx' media-type='application/x-dtbncx+xml'/>"
  ++ "<item id='c1' href='text/ch1.xhtml' media-type='application/xhtml+xml'/></manifest>"
  ++ "<spine toc='ncx'><itemref idref='c1'/></spine></package>".

Definition b1_opf_json : json :=
  JObj [("package", JObj [
    ("metadata", JObj [("dc:title", JStr "Two Parts")]);
    ("manifest", JObj [("item", JArr [
       JObj [("@_id", JStr "ncx"); ("@_href", JStr "toc.ncx");
             ("@_media-type", JStr "application/x-dtbncx+xml")];
       JObj [("@_id", JStr "c1"); ("@_href", JStr "text/ch1.xhtml");
             ("@_media-type", JStr "application/xhtml+xml")]])]);
    ("spine", JObj [("itemref", JObj [("@_idref", JStr "c1")]); ("@_toc", JStr "ncx")]);
    ("@_version", JStr "2.0")])].

Definition b1_ncx : string :=
  "<ncx><navMap><navPoint id='p1'><navLabel><text>Part One</text></navLabel>"
  ++ "<content src='text/ch1.xhtml'/></navPoint>"
  ++ "<navPoint id='p2'><navLabel><text>Part Two</text></navLabel>"
  ++ "<content src='text/ch1.xhtml#part2'/></navPoint></navMap></ncx>".

Definition b1_ncx_json : json :=
  JObj [("ncx", JObj [("navMap", JObj [("navPoint", JArr [
    JObj [("navLabel", JObj [("text", JStr "Part One")]);
          ("content", JObj [("@_src", JStr "text/ch1.xhtml")]);
          ("@_id", JStr "p1")];
    JObj [("navLabel", JObj [("text", JStr "Part Two")]);
          ("content", JObj [("@_src", JStr "text/ch1.xhtml#part2")]);
          ("@_id", JStr "p2")]])])])].

Definition b1_ch1 : string :=
  "<html><head><title>Chapter the First</title></head>"
  ++ "<body><img src='../images/cover.png'/></body></html>".

(** [b2]: a manifest href that leaves the package root. *)
Definition b2_opf : string :=
  "<package><manifest><item id='x' href='../../../etc/passwd'/></manifest>"
  ++ "<spine><itemref idref='x'/></spine></package>".

Definition b2_opf_json : json :=
  JObj [("package", JObj [
    ("manifest", JObj [("item",
       JObj [("@_id", JStr "x"); ("@_href", JStr "../../../etc/passwd")])]);
    ("spine", JObj [("itemref", JObj [("@_idref", JStr "x")])])])].

(** [b3]: a title element without text. *)
Definition b3_opf : string :=
  "<package><metadata><dc:title></dc:title></metadata>"
  ++ "<manifest><item id='c1' href='ch1.xhtml'/></manifest>"
  ++ "<spine><itemref idref='c1'/></spine></package>".

Definition b3_opf_json : json :=
  JObj [("package", JObj [
    ("metadata", JObj [("dc:title", JStr EmptyString)]);
    ("manifest", JObj [("item",
       JObj [("@_id", JStr "c1"); ("@_href", JStr "ch1.xhtml")])]);
    ("spine", JObj [("itemref", JObj [("@_idref", JStr "c1")])])])].

(** [b4]: right-to-left progression, a navigation document that names
    one of two spine documents, a cover named in the metadata, an
    item-reference without item. *)
Definition b4_opf : string :=
  "<package><metadata><dc:title>Tategaki</dc:title><meta name='cover' content='cov'/></metadata>"
  ++ "<manifest><item id='nav' href='nav.xhtml' properties='nav'/>"
  ++ "<item id='cov' href='img\cover.jpg'/><item id='c1' href='c1.xhtml'/>"
  ++ "<item id='c2' href='c2.xhtml'/></manifest>"
  ++ "<spine page-progression-direction='rtl'><itemref idref='c1'/>"
  ++ "<itemref idref='c2'/><itemref idref='gone'/></spine></package>".

Definition b4_opf_json : json :=
  JObj [("package", JObj [
    ("metadata", JObj [("dc:title", JStr "Tategaki");
                       ("meta", JObj [("@_name", JStr "cover"); ("@_content", JStr "cov")])]);
    ("manifest", JObj [("item", JArr [
       JObj [("@_id", JStr "nav"); ("@_href", JStr "nav.xhtml"); ("@_properties", JStr "nav")];
       JObj [("@_id", JStr "cov"); ("@_href", JStr "img\cover.jpg")];
       JObj [("@_id", JStr "c1"); ("@_href", JStr "c1.xhtml")];
       JObj [("@_id", JStr "c2"); ("@_href", JStr "c2.xhtml")]])]);
    ("spine", JObj [("itemref", JArr [
       JObj [("@_idref", JStr "c1")]; JObj [("@_idref", JStr "c2")];
       JObj [("@_idref", JStr "gone")]]);
       ("@_page-progression-direction", JStr "rtl")])])].

Definition b4_nav : string :=
  "<html><body><nav epub:type='toc'><ol><li><a href='c2.xhtml#s1'>Second</a></li></ol></nav>"
  ++ "</body></html>".

Definition b4_c1 : string := "<html><head><title> First </title></head><body/></html>".

(** [b5]: a first spine document with a vector image before a raster
    image. *)
Definition b5_ch : string :=
  "<html><body><svg><image xlink:href='a.svg'/></svg><img src='b.png'/></body></html>".

(** [b6]: a first spine document with one image tag. *)
Definition b6_ch : string := "<html><body><img alt='cover' src='images/front.jpg'/></body></html>".

(** [b7]: a legacy TOC item whose href leaves the package root. *)
Definition b7_opf : string :=
  "<package><manifest><item id='ncx' href='../../toc.ncx'/><item id='c1' href='c1.xhtml'/>"
  ++ "</manifest><spine toc='ncx'><itemref idref='c1'/></spine></package>".

Definition b7_opf_json : json :=
  JObj [("package", JObj [
    ("manifest", JObj [("item", JArr [
       JObj [("@_id", JStr "ncx"); ("@_href", JStr "../../toc.ncx")];
       JObj [("@_id", JStr "c1"); ("@_href", JStr "c1.xhtml")]])]);
    ("spine", JObj [("itemref", JObj [("@_idref", JStr "c1")]); ("@_toc", JStr "ncx")])])].

(** [b13]: a cover flagged in the manifest, after an item with other
    properties; the package document lies in a directory. *)
Definition b13_opf : string :=
  "<package><manifest><item id='nav' href='nav.xhtml' properties='nav scripted'/>"
  ++ "<item id='front' href='art\front.svg' properties='svg  cover-image'/>"
  ++ "<item id='c1' href='c1.xhtml'/></manifest>"
  ++ "<spine><itemref idref='c1'/></spine></package>".

Definition b13_opf_json : json :=
  JObj [("package", JObj [
    ("manifest", JObj [("item", JArr [
       JObj [("@_id", JStr "nav"); ("@_href", JStr "nav.xhtml");
             ("@_properties", JStr "nav scripted")];
       JObj [("@_id", JStr "front"); ("@_href", JStr "art\front.svg");
             ("@_properties", JStr "svg  cover-image")];
       JObj [("@_id", JStr "c1"); ("@_href", JStr "c1.xhtml")]])]);
    ("spine", JObj [("itemref", JObj [("@_idref", JStr "c1")])])])].

(** The first spine document of [b13]: one image tag. *)
Definition b13_c1 : string := "<html><body><img src='art/plate.png'/></body></html>".

Definition files : list (string * node) :=
  [("/data/books/b1", Directory);
   ("/data/books/b1/OEBPS/content.opf", File b1_opf);
   ("/data/books/b1/OEBPS/toc.ncx", File b1_ncx);
   ("/data/books/b1/OEBPS/text/ch1.xhtml", File b1_ch1);
   ("/data/books/b2/content.opf", File b2_opf);
   ("/data/books/b3/content.opf", File b3_opf);
   ("/data/books/b4/content.opf", File b4_opf);
   ("/data/books/b4/nav.xhtml", File b4_nav);
   ("/data/books/b4/c1.xhtml", File b4_c1);
   ("/data/books/b5/ch.xhtml", File b5_ch);
   ("/data/books/b6/ch.xhtml", File b6_ch);
   ("/data/books/b7/content.opf", File b7_opf);
   ("/data/books/b7/c1.xhtml", File b4_c1);
   ("/data/books/b13/EPUB/package.opf", File b13_opf);
   ("/data/books/b13/EPUB/c1.xhtml", File b13_c1)].

Definition fs : filesystem := fun p => assoc_with (fun n => Some n) None p files.

Definition parseXml (xml : string) : result json :=
  if String.eqb xml b1_opf then Ok b1_opf_json
  else if String.eqb xml b1_ncx then Ok b1_ncx_json
  else if String.eqb xml b2_opf then Ok b2_opf_json
  else if String.eqb xml b3_opf then Ok b3_opf_json
  else if String.eqb xml b4_opf then Ok b4_opf_json
  else if String.eqb xml b7_opf then Ok b7_opf_json
  else if String.eqb xml b13_opf then Ok b13_opf_json
  else Err XmlError.

End Sample.

(** ** Vocabulary of the further properties *)

(** What the loop of [parseOpf] stores for an item element: its id and
    its entry, when it has an id and an href. *)
Definition manifestEntry (it : json) : option (string * ManifestItem) :=
  match isString (get it "@_id"), isString (get it "@_href") with
  | Some id, Some href =>
      Some (id, mkItem href (get it "@_properties") (get it "@_media-type"))
  | _, _ => None
  end.

(** The entry of the last item element declared with an id. *)
Definition lastDeclared (id : string) (itemsArr : list json) : option ManifestItem :=
  option_map snd
    (find (fun kv => String.eqb (fst kv) id) (rev (filterMap manifestEntry itemsArr))).

(** The elements of a list, each at its first occurrence only. *)
Definition firstOccurrences (l : list string) : list string :=
  rev (nodup string_dec (rev l)).

(** The text of a document names a vertical writing mode: it contains
    [vertical-rl] or [vertical-lr]. *)
Definition namesVerticalMode (html : string) : Prop :=
  exists pre post : string,
    html = pre ++ "vertical-rl" ++ post \/ html = pre ++ "vertical-lr" ++ post.

(** White space is normalized in a text: every white-space character is
    a single U+0020 that follows a character that is no white space.
    [afterSpace] tells whether the text comes after white space (or at the
    start, where white space is not allowed either). *)
Fixpoint singleSpaced (afterSpace : bool) (t : string) : bool :=
  match t with
  | EmptyString => true
  | String c t' =>
      if Regex.space c
      then Ascii.eqb c " " && negb afterSpace && singleSpaced true t'
      else singleSpaced false t'
  end.

Fixpoint endsWithSpace (t : string) : bool :=
  match t with
  | EmptyString => false
  | String c EmptyString => Regex.space c
  | String _ t' => endsWithSpace t'
  end.

(** The number of white-space characters a text starts with. *)
Fixpoint leadingSpaces (s : string) : nat :=
  match s with
  | String c s' => if Regex.space c then S (leadingSpaces s') else 0
  | EmptyString => 0
  end.

(** A text with every run of white space replaced by one U+0020;
    [inRun] tells whether the text continues a run. *)
Fixpoint collapseSpaces (inRun : bool) (s : string) : string :=
  match s with
  | EmptyString => EmptyString
  | String c s' =>
      if Regex.space c
      then if inRun then collapseSpaces true s' else String " " (collapseSpaces true s')
      else String c (collapseSpaces false s')
  end.

(** *** Vocabulary for the directory tree *)

Section TreeInduction.

Variable P : tree -> Prop.
Hypothesis P_file : forall content, P (TFile content).
Hypothesis P_other : P TOther.
Hypothesis P_dir : forall entries, Forall (fun e => P (snd e)) entries -> P (TDir entries).
Hypothesis P_locked : P TLocked.

Fixpoint tree_nested_ind (t : tree) : P t :=
  match t with
  | TFile content => P_file content
  | TOther => P_other
  | TDir entries =>
      P_dir entries
        ((fix all (es : list (string * tree)) : Forall (fun e => P (snd e)) es :=
            match es with
            | [] => Forall_nil _
            | (name, sub) :: more =>
                Forall_cons (name, sub) (tree_nested_ind sub) (all more)
            end) entries)
  | TLocked => P_locked
  end.

End TreeInduction.

Fixpoint distinct (names : list string) : bool :=
  match names with
  | [] => true
  | n :: more => negb (existsb (String.eqb n) more) && distinct more
  end.

(** A directory tree as a file system has it: in every directory the
    names are path segments and differ from each other. *)
Fixpoint wellFormedTree (t : tree) : bool :=
  match t with
  | TFile _ | TOther | TLocked => true
  | TDir entries =>
      distinct (map fst entries)
      && forallb (fun e : string * tree =>
                    let (name, sub) := e in plainSegment name && wellFormedTree sub)
                 entries
  end.

(** The name of a package document: it ends in [.opf], whatever the
    case. *)
Definition opfName (name : string) : bool :=
  Str.endsWith (Str.toLowerCase name) ".opf".

(** The files with the name of a package document below a directory, as
    paths from that directory, in depth-first order, the entries of a
    directory in the order [readdir] gives them. *)
Fixpoint opfPaths (t : tree) : list (list string) :=
  match t with
  | TDir entries =>
      flat_map
        (fun e : string * tree =>
           let (name, sub) := e in
           match sub with
           | TDir _ => map (cons name) (opfPaths sub)
           | TFile _ => if opfName name then [[name]] else []
           | TOther | TLocked => []
           end)
        entries
  | TFile _ | TOther | TLocked => []
  end.

(** Every directory of the tree can be listed. *)
Fixpoint listable (t : tree) : bool :=
  match t with
  | TDir entries =>
      forallb (fun e : string * tree => let (_, sub) := e in listable sub) entries
  | TFile _ | TOther => true
  | TLocked => false
  end.

(** *** A sample disk *)

Module SampleDisk.

Definition container : string :=
  "<container><rootfiles><rootfile full-path='OEBPS\content.opf'/></rootfiles></container>".

Definition container_json : json :=
  JObj [("container", JObj [("rootfiles", JObj [("rootfile",
    JObj [("@_full-path", JStr "OEBPS\content.opf")])])])].

Definition container_two : string :=
  "<container><rootfiles><rootfile media-type='x'/><rootfile full-path='content.opf'/></rootfiles></container>".

Definition container_two_json : json :=
  JObj [("container", JObj [("rootfiles", JObj [("rootfile",
    JArr [JObj [("@_media-type", JStr "x")];
          JObj [("@_full-path", JStr "content.opf")]])])])].

Definition disk : tree :=
  TDir [("data", TDir [("books", TDir [
    ("b8", TDir [("mimetype", TFile "application/epub+zip");
                 ("OEBPS", TDir [("text", TDir [("ch1.xhtml", TFile "<html/>")]);
                                 ("Content.OPF", TFile "<package/>")]);
                 ("z.opf", TFile "<package/>")]);
    ("b9", TDir [("META-INF", TDir [("container.xml", TFile container)]);
                 ("content.opf", TFile "<package/>")]);
    ("b10", TDir [("images", TDir []); ("notes.txt", TFile "opf")]);
    ("b11", TDir [("META-INF", TDir [("container.xml", TFile container_two)]);
                  ("content.opf", TFile "<package/>")]);
    ("b12", TDir [("content.opf", TFile "<package/>"); ("private", TLocked)])])])].

Definition parseXml (xml : string) : result json :=
  if String.eqb xml container then Ok container_json
  else if String.eqb xml container_two then Ok container_two_json
  else Err XmlError.

End SampleDisk.

(** * Properties *)

(** ** Sanity checks of the run-time model *)

Example dirname_ex1 : Path.dirname "OEBPS/content.opf" = "OEBPS". Proof. reflexivity. Qed.
Example dirname_ex2 : Path.dirname "content.opf" = ".". Proof. reflexivity. Qed.
Example dirname_ex3 : Path.dirname "/a" = "/". Proof. reflexivity. Qed.
Example dirname_ex4 : Path.dirname "a/b/c.opf" = "a/b". Proof. reflexivity. Qed.
Example basename_ex1 : Path.basename "OEBPS/text/ch1.xhtml" = "ch1.xhtml". Proof. reflexivity. Qed.
Example basename_ex2 : Path.basename "a/b/" = "b". Proof. reflexivity. Qed.
Example basename_ex3 : Path.basename "" = "". Proof. reflexivity. Qed.
Example resolve_ex1 : Path.resolve "/srv" "/data/books/b1" "OEBPS/../x.html" = "/data/books/b1/x.html".
Proof. reflexivity. Qed.
Example resolve_ex2 : Path.resolve "/srv" "/data/books/b1" "../../etc/passwd" = "/data/etc/passwd".
Proof. reflexivity. Qed.
Example resolve_ex3 : Path.resolve "/srv" "/" "../../etc/passwd" = "/etc/passwd".
Proof. reflexivity. Qed.
Example resolve_ex4 : Path.resolve "/srv" "/a/b" "/etc/passwd" = "/etc/passwd".
Proof. reflexivity. Qed.
Example resolve_ex5 : Path.resolve "/srv" "/a/b" "" = "/a/b".
Proof. reflexivity. Qed.
Example resolve_ex6 : Path.resolve "/srv" "books" "x" = "/srv/books/x".
Proof. reflexivity. Qed.

Example stripTags_ex : stripTags "  <b>Hello</b>   <i>world</i> " = "Hello world".
Proof. reflexivity. Qed.
Example pageTitle_ex1 :
  pageTitle "<html><head><TITLE lang='en'>  Ch <b>1</b> </TITLE></head></html>" = Some "Ch 1".
Proof. reflexivity. Qed.
Example pageTitle_ex2 : pageTitle "<html><head></head></html>" = None.
Proof. reflexivity. Qed.
Example derivedTitle_ex1 : derivedTitle 0 "OEBPS/text/ch1.xhtml" "OEBPS/text/ch1.xhtml#a" = "ch1".
Proof. reflexivity. Qed.
Example derivedTitle_ex2 : derivedTitle 2 "a/.xhtml" "a/.xhtml" = "Chapter 3".
Proof. reflexivity. Qed.
Example derivedTitle_ex3 : derivedTitle 0 "a.b.c" "a.b.c" = "a.b".
Proof. reflexivity. Qed.
Example navLinks_ex :
  navLinks "OEBPS"
    ("<nav epub:type='toc'><ol><li><a href='c1.xhtml'>One</a></li>"
     ++ "<li><a class='x' href = 'c2.xhtml#s'> <span>Two</span> </a></li></ol></nav>"
     ++ "<nav epub:type='landmarks'><a href='z'>Z</a></nav>")
  = [mkChapter "One" "OEBPS/c1.xhtml"; mkChapter "Two" "OEBPS/c2.xhtml#s"].
Proof. reflexivity. Qed.
Example split_spaces_ex :
  Regex.split false Re.spaces " nav  cover-image " = [""; "nav"; "cover-image"; ""].
Proof. reflexivity. Qed.
Example hasProperty_ex : hasProperty "nav" (JStr "cover-image nav") = Ok true.
Proof. reflexivity. Qed.
Example asText_ex1 : asText (JObj [("@_id", JStr "t"); ("#text", JStr "Title")]) = Some "Title".
Proof. reflexivity. Qed.
Example asText_ex2 : asText (JArr [JStr "A"; JStr "B"]) = Some "A".
Proof. reflexivity. Qed.
Example asText_ex3 : asText (JArr [JNum "1e+21"; JStr "A"]) = Some "1e+21".
Proof. reflexivity. Qed.
Example asText_ex4 : asText (JObj [("@_id", JStr "t")]) = None.
Proof. reflexivity. Qed.
Example walk_ex :
  walkAll "OEBPS"
    [JObj [("navLabel", JObj [("text", JStr "Part")]);
           ("content", JObj [("@_src", JStr "p.xhtml")]);
           ("navPoint", JArr [
              JObj [("navLabel", JObj [("text", JStr "One")]);
                    ("content", JObj [("@_src", JStr "p.xhtml#one")])];
              JObj [("navLabel", JObj [("text", JNum "2")]);
                    ("content", JObj [("@_src", JStr "p.xhtml#two")]);
                    ("navPoint", JObj [("navLabel", JObj [("text", JStr "Deep")]);
                                       ("content", JObj [("@_src", JStr "q.xhtml")])])]])]]
  = [mkChapter "Part" "OEBPS/p.xhtml"; mkChapter "One" "OEBPS/p.xhtml#one";
     mkChapter "Deep" "OEBPS/q.xhtml"].
Proof. reflexivity. Qed.

(** ** Strings and paths *)

Lemma prefix_app_same (p a b : string) :
  String.prefix (p ++ a) (p ++ b) = String.prefix a b.
Proof.
  induction p as [|c p IH]; simpl; [reflexivity|].
  destruct (ascii_dec c c) as [_|n]; [exact IH | contradiction].
Qed.

Lemma prefix_app (p a : string) : String.prefix p (p ++ a) = true.
Proof.
  induction p as [|c p IH]; simpl.
  - destruct a; reflexivity.
  - destruct (ascii_dec c c) as [_|n]; [exact IH | contradiction].
Qed.

Lemma prefix_refl (p : string) : String.prefix p p = true.
Proof.
  induction p as [|c p IH]; simpl; [reflexivity|].
  destruct (ascii_dec c c) as [_|n]; [exact IH | contradiction].
Qed.

Lemma string_app_assoc (a b c : string) : (a ++ b) ++ c = a ++ (b ++ c).
Proof. induction a as [|x a IH]; simpl; [reflexivity | now rewrite IH]. Qed.

Lemma string_app_nil_r (a : string) : a ++ EmptyString = a.
Proof. induction a as [|x a IH]; simpl; [reflexivity | now rewrite IH]. Qed.

Lemma plainSegment_inv (s : string) :
  plainSegment s = true ->
  Str.nonempty s = true /\ Str.contains Path.slash s = false
  /\ String.eqb s "." = false /\ String.eqb s ".." = false.
Proof.
  unfold plainSegment. intros H.
  repeat (apply andb_prop in H; destruct H as [H ?]).
  repeat match goal with
         | h : negb _ = true |- _ => apply negb_true_iff in h
         end.
  auto.
Qed.

(** Splitting at slashes cuts after a segment that has none. *)
Lemma split_segment (seg rest : string) :
  Str.contains Path.slash seg = false ->
  Str.split Path.slash (seg ++ String Path.slash rest)
  = seg :: Str.split Path.slash rest.
Proof.
  induction seg as [|c seg IH]; simpl; intros H.
  - reflexivity.
  - apply orb_false_iff in H. destruct H as [Hc Hs].
    rewrite Hc. rewrite (IH Hs). reflexivity.
Qed.

Lemma norm_step_plain (stack : list string) (seg : string) :
  plainSegment seg = true -> Path.norm_step stack seg = seg :: stack.
Proof.
  intros H. apply plainSegment_inv in H. destruct H as (Hn & _ & Hd & Hdd).
  unfold Path.norm_step. rewrite Hd, Hdd.
  destruct seg; [discriminate | reflexivity].
Qed.

Lemma fold_norm_plain (segs : list string) (stack : list string) :
  Forall (fun s => plainSegment s = true) segs ->
  fold_left Path.norm_step segs stack = (rev segs ++ stack)%list.
Proof.
  revert stack. induction segs as [|s segs IH]; intros stack H; simpl.
  - reflexivity.
  - inversion H as [|? ? Hs Hrest]; subst.
    rewrite (norm_step_plain _ _ Hs), (IH _ Hrest).
    now rewrite <- app_assoc.
Qed.

(** The segments of [root/rest] are those of the root, then those of
    [rest]. *)
Lemma split_absolutePath (segs : list string) (rest : string) :
  segs <> [] ->
  Forall (fun s => plainSegment s = true) segs ->
  Str.split Path.slash (absolutePath segs ++ String Path.slash rest)
  = (EmptyString :: segs ++ Str.split Path.slash rest)%list.
Proof.
  intros Hne H. unfold absolutePath. simpl. f_equal.
  induction segs as [|s segs IH]; [contradiction|].
  inversion H as [|? ? Hs Hrest]; subst.
  apply plainSegment_inv in Hs. destruct Hs as (_ & Hslash & _).
  destruct segs as [|s' segs].
  - simpl. now apply split_segment.
  - change (Str.join "/" (s :: s' :: segs))
      with (s ++ String Path.slash (Str.join "/" (s' :: segs))).
    rewrite string_app_assoc. simpl.
    rewrite (split_segment _ _ Hslash). simpl. f_equal.
    apply IH; [discriminate | assumption].
Qed.

Lemma join_app_last2 (segs : list string) (a b : string) :
  Str.join "/" (segs ++ [a; b])
  = Str.join "/" (segs ++ [EmptyString]) ++ a ++ "/" ++ b.
Proof.
  induction segs as [|s segs IH].
  - reflexivity.
  - destruct segs as [|s' segs].
    + simpl. now rewrite string_app_assoc.
    + change (Str.join "/" ((s :: s' :: segs) ++ [a; b]))
        with (s ++ "/" ++ Str.join "/" ((s' :: segs) ++ [a; b])).
      rewrite IH.
      change (Str.join "/" ((s :: s' :: segs) ++ [EmptyString]))
        with (s ++ "/" ++ Str.join "/" ((s' :: segs) ++ [EmptyString])).
      now rewrite !string_app_assoc.
Qed.

(** Only the directory [etc] has [etc/passwd] start with [parent/leaf]. *)
Lemma prefix_etc_passwd (parent leaf : string) :
  Str.contains Path.slash parent = false ->
  String.prefix (parent ++ "/" ++ leaf) "etc/passwd" = true ->
  parent = "etc".
Proof.
  intros Hs Hp.
  destruct parent as [|c1 [|c2 [|c3 [|c4 p]]]]; simpl in Hp, Hs;
    repeat match type of Hp with
           | context [ascii_dec ?a ?b] => destruct (ascii_dec a b); subst
           end;
    try discriminate; try reflexivity.
Qed.

(** [../../etc/passwd] from a root of two segments or more. *)
Lemma resolve_etc_passwd (cwd : string) (segs : list string) (parent leaf : string) :
  Forall (fun s => plainSegment s = true) (segs ++ [parent; leaf]) ->
  Path.resolve cwd (absolutePath (segs ++ [parent; leaf])) "../../etc/passwd"
  = absolutePath (segs ++ ["etc"; "passwd"]).
Proof.
  intros H. unfold Path.resolve.
  change (Path.resolve_concat
            ["../../etc/passwd"; absolutePath (segs ++ [parent; leaf]); cwd] EmptyString)
    with (absolutePath (segs ++ [parent; leaf]) ++ String Path.slash "../../etc/passwd/").
  rewrite split_absolutePath; [| now destruct segs | assumption].
  unfold Path.normalize_segments. simpl fold_left.
  rewrite fold_left_app, (fold_norm_plain _ _ H).
  rewrite rev_app_distr.
  simpl. rewrite app_nil_r.
  change (Path.norm_step (Path.norm_step (leaf :: parent :: rev segs) "..") "..")
    with (rev segs).
  rewrite rev_involutive, <- app_assoc. reflexivity.
Qed.

(** ** [safeJoin] *)

Lemma safeJoin_cases (cwd root rel : string) :
  safeJoin cwd root rel
  = if String.prefix root (Path.resolve cwd root rel)
    then Ok (Path.resolve cwd root rel) else Err PathTraversal.
Proof.
  unfold safeJoin, Str.startsWith.
  destruct (String.prefix root (Path.resolve cwd root rel)); reflexivity.
Qed.

Lemma within_prefix (root p : string) :
  within root p -> String.prefix root p = true.
Proof.
  intros [-> | [below ->]]; [apply prefix_refl | apply prefix_app].
Qed.

(** The prefix test is a test on characters: a sibling directory whose
    name extends the name of the root passes it. *)
Remark safeJoin_sibling_prefix :
  safeJoin "/srv" "/data/books/b1" "../b10/secret.txt" = Ok "/data/books/b10/secret.txt"
  /\ ~ within "/data/books/b1" "/data/books/b10/secret.txt".
Proof.
  split; [reflexivity|].
  intros [H | [below H]]; discriminate.
Qed.

(** C1, as stated, fails: for the root [/] the path [../../etc/passwd]
    resolves to [/etc/passwd], which lies within the root, and [safeJoin]
    returns it. *)
Lemma safeJoin_etc_passwd_root_slash :
  safeJoin "/srv" "/" "../../etc/passwd" = Ok "/etc/passwd".
Proof. reflexivity. Qed.

(** C1 (amended). For every root and relative path, [safeJoin] either
    returns [path.resolve(root, rel)] or fails with the path-traversal
    error; it returns whenever the resolved path is the root or lies below
    it, and fails whenever the root is no prefix of the resolved path. From
    a normalized absolute root of two segments or more whose parent
    directory is not named [etc], [../../etc/passwd] always fails. *)
Theorem safeJoin_guard (cwd root rel : string) :
  (safeJoin cwd root rel = Ok (Path.resolve cwd root rel)
   \/ safeJoin cwd root rel = Err PathTraversal)
  /\ (within root (Path.resolve cwd root rel) ->
      safeJoin cwd root rel = Ok (Path.resolve cwd root rel))
  /\ (Str.startsWith (Path.resolve cwd root rel) root = false ->
      safeJoin cwd root rel = Err PathTraversal)
  /\ (forall (segs : list string) (parent leaf : string),
        root = absolutePath (segs ++ [parent; leaf]) ->
        Forall (fun s => plainSegment s = true) (segs ++ [parent; leaf]) ->
        parent <> "etc" ->
        safeJoin cwd root "../../etc/passwd" = Err PathTraversal).
Proof.
  repeat split.
  - rewrite safeJoin_cases. destruct (String.prefix _ _); auto.
  - intros H. rewrite safeJoin_cases, (within_prefix _ _ H). reflexivity.
  - unfold Str.startsWith. intros H. rewrite safeJoin_cases, H. reflexivity.
  - intros segs parent leaf -> Hplain Hparent.
    rewrite safeJoin_cases, (resolve_etc_passwd cwd segs parent leaf Hplain).
    destruct (String.prefix _ _) eqn:Hp; [exfalso | reflexivity].
    apply Hparent.
    unfold absolutePath in Hp.
    rewrite (join_app_last2 segs parent leaf), (join_app_last2 segs "etc" "passwd") in Hp.
    rewrite <- !string_app_assoc in Hp.
    rewrite !(string_app_assoc ("/" ++ Str.join "/" (segs ++ [EmptyString]))) in Hp.
    rewrite prefix_app_same in Hp.
    rewrite !string_app_assoc in Hp.
    apply (prefix_etc_passwd parent leaf); [| exact Hp].
    apply Forall_app in Hplain. destruct Hplain as [_ Hl].
    inversion Hl as [|? ? Hpar _]; subst.
    apply plainSegment_inv in Hpar. tauto.
Qed.

Lemma safeJoin_guard_witness :
  safeJoin "/srv" "/data/books/b1" "OEBPS/ch1.xhtml" = Ok "/data/books/b1/OEBPS/ch1.xhtml"
  /\ safeJoin "/srv" "/data/books/b1" "/etc/passwd" = Err PathTraversal
  /\ safeJoin "/srv" "/data/books/b1" "../../etc/passwd" = Err PathTraversal.
Proof.
  split; [| split].
  - apply (safeJoin_guard "/srv" "/data/books/b1" "OEBPS/ch1.xhtml").
    right. exists "OEBPS/ch1.xhtml". reflexivity.
  - apply (safeJoin_guard "/srv" "/data/books/b1" "/etc/passwd"). reflexivity.
  - apply (safeJoin_guard "/srv" "/data/books/b1" "x" ) with (segs := ["data"])
      (parent := "books") (leaf := "b1").
    + reflexivity.
    + repeat constructor.
    + discriminate.
Defined.

(** ** Separators *)

(** Replacing the backslashes is a character-wise substitution. *)
Lemma scan_backslashes (prev : option ascii) (s : string) :
  Regex.replace_pieces "/" (Regex.scan false Re.backslashes prev s 0)
  = string_of_list_ascii
      (map (fun c => if Ascii.eqb c Re.backslash then Path.slash else c)
           (list_ascii_of_string s)).
Proof.
  revert prev. induction s as [|c s IH]; intros prev.
  - reflexivity.
  - cbn [Regex.scan Regex.match_at Regex.run Re.backslashes].
    unfold Regex.one_of. cbn [existsb]. rewrite orb_false_r.
    cbn [String.length list_ascii_of_string map string_of_list_ascii].
    destruct (Ascii.eqb c Re.backslash) eqn:E.
    + replace (S (String.length s) - String.length s) with 1 by lia.
      cbn [Regex.replace_pieces]. rewrite IH. reflexivity.
    + cbn [Regex.replace_pieces]. rewrite IH. reflexivity.
Qed.

Lemma replace_backslashes_clean (s : string) :
  noBackslash (Regex.replaceAll false Re.backslashes "/" s).
Proof.
  unfold Regex.replaceAll, noBackslash. rewrite scan_backslashes.
  induction s as [|c s IH]; [reflexivity|].
  cbn [list_ascii_of_string map string_of_list_ascii Str.contains].
  rewrite IH, orb_false_r.
  destruct (Ascii.eqb c Re.backslash) eqn:E; [reflexivity | exact E].
Qed.

Lemma replace_backslashes_nonempty (s : string) :
  Str.nonempty s = true ->
  Str.nonempty (Regex.replaceAll false Re.backslashes "/" s) = true.
Proof.
  unfold Regex.replaceAll. rewrite scan_backslashes.
  destruct s; [discriminate | reflexivity].
Qed.

Lemma normalizeHref_clean (opfDir h : string) : noBackslash (normalizeHref opfDir h).
Proof. apply replace_backslashes_clean. Qed.

Lemma resolveHref_clean (opfDir h : string) : noBackslash (resolveHref opfDir h).
Proof. apply replace_backslashes_clean. Qed.

(** ** Loops over the spine *)

Lemma mapi_from_length {A B : Type} (f : nat -> A -> B) (k : nat) (l : list A) :
  length (mapi_from f k l) = length l.
Proof.
  revert k. induction l as [|a l IH]; intros k; simpl; [reflexivity|].
  now rewrite IH.
Qed.

Lemma mapi_from_nth {A B : Type} (f : nat -> A -> B) (l : list A) :
  forall k i, nth_error (mapi_from f k l) i = option_map (f (k + i)) (nth_error l i).
Proof.
  induction l as [|a l IH]; intros k [|i]; simpl; try reflexivity.
  - now rewrite Nat.add_0_r.
  - rewrite IH. now rewrite Nat.add_succ_r.
Qed.

Lemma mapi_from_proj {A B : Type} (f : nat -> A -> B) (p : B -> A) (l : list A) :
  (forall i a, p (f i a) = a) ->
  forall k, map p (mapi_from f k l) = l.
Proof.
  intros Hp. induction l as [|a l IH]; intros k; simpl; [reflexivity|].
  now rewrite Hp, IH.
Qed.

(** ** The insertion-ordered map *)

Lemma JsMap_get_set_same {V : Type} (k : string) (v : V) (m : JsMap.t V) :
  JsMap.get k (JsMap.set k v m) = Some v.
Proof.
  unfold JsMap.get. induction m as [|[k' v'] m IH]; simpl.
  - now rewrite String.eqb_refl.
  - destruct (String.eqb k' k) eqn:E; simpl.
    + now rewrite String.eqb_refl.
    + now rewrite E.
Qed.

Lemma JsMap_get_set_other {V : Type} (k k0 : string) (v : V) (m : JsMap.t V) :
  k0 <> k -> JsMap.get k (JsMap.set k0 v m) = JsMap.get k m.
Proof.
  intros Hne. apply String.eqb_neq in Hne.
  unfold JsMap.get. induction m as [|[k' v'] m IH]; simpl.
  - now rewrite Hne.
  - destruct (String.eqb k' k0) eqn:E; simpl.
    + apply String.eqb_eq in E. subst k'. now rewrite Hne.
    + destruct (String.eqb k' k); [reflexivity | exact IH].
Qed.

(** ** [mergeChaptersWithSpine] *)

(** [titleMap] holds, for a document, the first non-empty title of the
    discovered entries that point into it. *)
Lemma titleMap_fold (base : string) (chapters : list Chapter) :
  forall m : JsMap.t string,
    JsMap.get base
      (fold_left
         (fun titleMap c =>
            let b := Str.split0 "#" (href c) in
            if negb (JsMap.has b titleMap) && Str.nonempty (title c)
            then JsMap.set b (title c) titleMap
            else titleMap)
         chapters m)
    = match JsMap.get base m with
      | Some t => Some t
      | None => firstTitleFor base chapters
      end.
Proof.
  induction chapters as [|c cs IH]; intros m.
  - simpl. unfold firstTitleFor. simpl. now destruct (JsMap.get base m).
  - cbn [fold_left]. rewrite IH. clear IH.
    unfold firstTitleFor. cbn [find]. unfold JsMap.has.
    destruct (String.eqb (Str.split0 "#" (href c)) base) eqn:E.
    + apply String.eqb_eq in E. rewrite E.
      destruct (JsMap.get base m) as [t|] eqn:G; cbn [negb andb].
      * rewrite G. reflexivity.
      * destruct (Str.nonempty (title c)) eqn:N; cbn [andb].
        -- now rewrite JsMap_get_set_same.
        -- now rewrite G.
    + apply String.eqb_neq in E.
      destruct (negb _ && Str.nonempty (title c)); cbn [andb].
      * now rewrite JsMap_get_set_other by exact E.
      * reflexivity.
Qed.

Lemma titleMapOf_get (base : string) (chapters : list Chapter) :
  JsMap.get base (titleMapOf chapters) = firstTitleFor base chapters.
Proof. unfold titleMapOf. now rewrite titleMap_fold. Qed.

Lemma firstTitleFor_nonempty (base : string) (chapters : list Chapter) (t : string) :
  firstTitleFor base chapters = Some t -> Str.nonempty t = true.
Proof.
  unfold firstTitleFor.
  destruct (find _ chapters) as [c|] eqn:F; [|discriminate].
  apply find_some in F. destruct F as [_ F]. apply andb_prop in F.
  intros [= <-]. tauto.
Qed.

(** ** Per-document scraping *)

(** C7. Scraping yields exactly one entry per spine item, in spine order,
    each with the href of its spine item. The title is the page-title text
    of the document; when the document cannot be read, has no page title or
    an empty one, it is the base name of the file with the extension
    stripped; when that is empty, it is [Chapter N], [N] the 1-based index.
    Scraping is what [extractChapters] returns when the two other tiers
    yield nothing. *)
Theorem scrapeSpine_one_entry_per_spine_item (cwd : string) (fs : filesystem)
    (parseXml : string -> result json) (bookRootAbs : string) (spine : list string) :
  length (scrapeSpine cwd fs bookRootAbs spine) = length spine
  /\ map href (scrapeSpine cwd fs bookRootAbs spine) = spine
  /\ (forall (i : nat) (h : string),
        nth_error spine i = Some h ->
        let cleanHref := Str.split0 "#" h in
        let stem :=
          Regex.replaceFirst false Re.extension EmptyString
            (Path.basename (if Str.nonempty cleanHref then cleanHref else h)) in
        let derived :=
          if Str.nonempty stem then stem else "Chapter " ++ Str.of_nat (i + 1) in
        nth_error (scrapeSpine cwd fs bookRootAbs spine) i
        = Some (mkChapter
                  match (abs <- safeJoin cwd bookRootAbs cleanHref ;; readText fs abs) with
                  | Ok html =>
                      match pageTitle html with
                      | Some t => if Str.nonempty t then t else derived
                      | None => derived
                      end
                  | Err _ => derived
                  end
                  h))
  /\ (forall (opfDir : string) (opfJson : json) (manifestMap : JsMap.t ManifestItem),
        legacyToc cwd fs parseXml bookRootAbs opfDir opfJson manifestMap = Ok [] ->
        navDocument cwd fs bookRootAbs opfDir manifestMap = Ok [] ->
        extractChapters cwd fs parseXml bookRootAbs opfDir opfJson manifestMap spine
        = Ok (scrapeSpine cwd fs bookRootAbs spine)).
Proof.
  repeat split.
  - apply mapi_from_length.
  - unfold scrapeSpine, mapi. now apply mapi_from_proj.
  - intros i h Hi. cbv zeta.
    unfold scrapeSpine, mapi. rewrite mapi_from_nth, Hi. cbn [option_map Nat.add].
    f_equal. f_equal. unfold derivedTitle.
    destruct (safeJoin cwd bookRootAbs (Str.split0 "#" h)) as [abs|e]; cbn [bind try_catch];
      [| reflexivity].
    destruct (readText fs abs) as [html|e]; cbn [bind try_catch]; reflexivity.
  - intros opfDir opfJson manifestMap H1 H2.
    unfold extractChapters. rewrite H1. cbn [bind length Nat.eqb negb].
    rewrite H2. reflexivity.
Qed.

Lemma scrapeSpine_one_entry_per_spine_item_witness :
  nth_error
    (scrapeSpine Sample.cwd Sample.fs "/data/books/b4"
       ["c1.xhtml#a"; "c2.xhtml"; "../x/.htaccess"]) 2
  = Some (mkChapter "Chapter 3" "../x/.htaccess")
  /\ extractChapters Sample.cwd Sample.fs Sample.parseXml "/data/books/b4" EmptyString
       (JObj []) JsMap.empty ["c1.xhtml#a"; "c2.xhtml"]
     = Ok [mkChapter "First" "c1.xhtml#a"; mkChapter "c2" "c2.xhtml"].
Proof.
  split.
  - destruct (scrapeSpine_one_entry_per_spine_item Sample.cwd Sample.fs Sample.parseXml
                "/data/books/b4" ["c1.xhtml#a"; "c2.xhtml"; "../x/.htaccess"])
      as (_ & _ & Hnth & _).
    exact (Hnth 2 "../x/.htaccess" eq_refl).
  - destruct (scrapeSpine_one_entry_per_spine_item Sample.cwd Sample.fs Sample.parseXml
                "/data/books/b4" ["c1.xhtml#a"; "c2.xhtml"])
      as (_ & _ & _ & Htier).
    exact (Htier EmptyString (JObj []) JsMap.empty eq_refl eq_refl).
Defined.

(** ** Tier precedence *)

Lemma safeJoin_Ok_resolve (cwd root rel p : string) :
  safeJoin cwd root rel = Ok p -> p = Path.resolve cwd root rel.
Proof.
  rewrite safeJoin_cases. destruct (String.prefix _ _); congruence.
Qed.

(** The legacy tier reads the file system at the path of the legacy TOC
    only. *)
Lemma legacyToc_reads_ncx_only (cwd : string) (fs fs' : filesystem)
    (parseXml : string -> result json) (bookRootAbs opfDir : string) (opfJson : json)
    (manifestMap : JsMap.t ManifestItem) :
  (forall p, ncxPath cwd bookRootAbs opfDir opfJson manifestMap = Some p -> fs' p = fs p) ->
  legacyToc cwd fs' parseXml bookRootAbs opfDir opfJson manifestMap
  = legacyToc cwd fs parseXml bookRootAbs opfDir opfJson manifestMap.
Proof.
  unfold ncxPath, legacyToc. intros Hagree.
  destruct (isString _) as [tocId|]; [| reflexivity].
  destruct (JsMap.get tocId manifestMap) as [ncx|]; [| reflexivity].
  destruct (Str.nonempty (item_href ncx)); [| reflexivity].
  destruct (safeJoin cwd bookRootAbs (underOpfDir opfDir (item_href ncx))) as [ncxAbs|e] eqn:J;
    [| reflexivity].
  apply safeJoin_Ok_resolve in J. subst ncxAbs.
  cbn [bind]. unfold existsSync, readText, readFile.
  now rewrite (Hagree _ eq_refl).
Qed.

(** C6. When the legacy hierarchical TOC yields at least one entry,
    [extractChapters] returns exactly these entries; the navigation
    document and the spine documents are not consulted: the result is the
    same for every spine and for every file system that has the same
    legacy TOC document. *)
Theorem legacy_toc_takes_precedence (cwd : string) (fs : filesystem)
    (parseXml : string -> result json) (bookRootAbs opfDir : string) (opfJson : json)
    (manifestMap : JsMap.t ManifestItem) (spine : list string) (entries : list Chapter) :
  legacyToc cwd fs parseXml bookRootAbs opfDir opfJson manifestMap = Ok entries ->
  entries <> [] ->
  extractChapters cwd fs parseXml bookRootAbs opfDir opfJson manifestMap spine = Ok entries
  /\ (forall (fs' : filesystem) (spine' : list string),
        (forall p, ncxPath cwd bookRootAbs opfDir opfJson manifestMap = Some p ->
                   fs' p = fs p) ->
        extractChapters cwd fs' parseXml bookRootAbs opfDir opfJson manifestMap spine'
        = Ok entries).
Proof.
  intros Hlegacy Hne.
  assert (Hlen : negb (Nat.eqb (length entries) 0) = true)
    by (destruct entries; [contradiction | reflexivity]).
  split.
  - unfold extractChapters. rewrite Hlegacy. cbn [bind]. now rewrite Hlen.
  - intros fs' spine' Hagree. unfold extractChapters.
    rewrite (legacyToc_reads_ncx_only cwd fs fs' parseXml _ _ _ _ Hagree), Hlegacy.
    cbn [bind]. now rewrite Hlen.
Qed.

Lemma legacy_toc_takes_precedence_witness :
  extractChapters Sample.cwd
    (fun p => if String.eqb p "/data/books/b1/OEBPS/toc.ncx" then Some (File Sample.b1_ncx)
              else None)
    Sample.parseXml "/data/books/b1" "OEBPS" Sample.b1_opf_json
    (manifestMapOf
       (asArray (get (get (get Sample.b1_opf_json "package") "manifest") "item")))
    []
  = Ok [mkChapter "Part One" "OEBPS/text/ch1.xhtml";
        mkChapter "Part Two" "OEBPS/text/ch1.xhtml#part2"].
Proof.
  refine (proj2 (legacy_toc_takes_precedence Sample.cwd Sample.fs Sample.parseXml
                   "/data/books/b1" "OEBPS" Sample.b1_opf_json
                   (manifestMapOf
                      (asArray (get (get (get Sample.b1_opf_json "package") "manifest") "item")))
                   ["OEBPS/text/ch1.xhtml"]
                   [mkChapter "Part One" "OEBPS/text/ch1.xhtml";
                    mkChapter "Part Two" "OEBPS/text/ch1.xhtml#part2"]
                   eq_refl _) _ [] _).
  - discriminate.
  - intros p [= <-]. reflexivity.
Defined.

(** ** [parseOpf], step by step *)

Lemma bind_Ok_inv {A B : Type} (m : result A) (f : A -> result B) (b : B) :
  bind m f = Ok b -> exists a, m = Ok a /\ f a = Ok b.
Proof. destruct m as [a|e]; simpl; [eauto | discriminate]. Qed.

Lemma parseOpf_Ok_inv (cwd : string) (fs : filesystem) (parseXml : string -> result json)
    (bookRootAbs opfRelPath : string) (m : BookManifest) :
  parseOpf cwd fs parseXml bookRootAbs opfRelPath = Ok m ->
  exists (opfAbs opfXml : string) (json : json) (chapters0 : list Chapter)
         (coverHref : option string) (vertical : bool),
    safeJoin cwd bookRootAbs opfRelPath = Ok opfAbs
    /\ readText fs opfAbs = Ok opfXml
    /\ parseXml opfXml = Ok json
    /\ spineOfJson opfRelPath json <> []
    /\ extractChapters cwd fs parseXml bookRootAbs (opfDirOf opfRelPath) json
         (manifestMapOfJson json) (spineOfJson opfRelPath json) = Ok chapters0
    /\ extractCoverHref cwd fs bookRootAbs (opfDirOf opfRelPath) json
         (manifestMapOfJson json) (spineOfJson opfRelPath json) = Ok coverHref
    /\ detectVertical cwd fs bookRootAbs (spineOfJson opfRelPath json) opfRelPath = Ok vertical
    /\ m = mkManifest (titleOf json) opfRelPath (spineOfJson opfRelPath json)
             (if Nat.ltb (length chapters0) (length (spineOfJson opfRelPath json))
              then mergeChaptersWithSpine cwd fs bookRootAbs (spineOfJson opfRelPath json) chapters0
              else chapters0)
             coverHref vertical.
Proof.
  unfold parseOpf. intros H.
  apply bind_Ok_inv in H. destruct H as (opfAbs & Hjoin & H).
  apply bind_Ok_inv in H. destruct H as (opfXml & Hread & H).
  apply bind_Ok_inv in H. destruct H as (json & Hparse & H).
  cbv zeta in H. fold (manifestMapOfJson json) in H. fold (spineOfJson opfRelPath json) in H.
  destruct (Nat.eqb (length (spineOfJson opfRelPath json)) 0) eqn:Hlen; [discriminate|].
  apply bind_Ok_inv in H. destruct H as (chapters0 & Hch & H).
  apply bind_Ok_inv in H. destruct H as (coverHref & Hcov & H).
  apply bind_Ok_inv in H. destruct H as (vertical & Hvert & H).
  exists opfAbs, opfXml, json, chapters0, coverHref, vertical.
  repeat (split; [assumption|]).
  split.
  - intros E. rewrite E in Hlen. discriminate.
  - repeat (split; [assumption|]). congruence.
Qed.

Lemma parseOpf_steps (cwd : string) (fs : filesystem) (parseXml : string -> result json)
    (bookRootAbs opfRelPath opfAbs opfXml : string) (json : json) :
  safeJoin cwd bookRootAbs opfRelPath = Ok opfAbs ->
  readText fs opfAbs = Ok opfXml ->
  parseXml opfXml = Ok json ->
  parseOpf cwd fs parseXml bookRootAbs opfRelPath
  = if Nat.eqb (length (spineOfJson opfRelPath json)) 0 then Err EmptySpine
    else
      chapters0 <- extractChapters cwd fs parseXml bookRootAbs (opfDirOf opfRelPath) json
                     (manifestMapOfJson json) (spineOfJson opfRelPath json) ;;
      coverHref <- extractCoverHref cwd fs bookRootAbs (opfDirOf opfRelPath) json
                     (manifestMapOfJson json) (spineOfJson opfRelPath json) ;;
      vertical <- detectVertical cwd fs bookRootAbs (spineOfJson opfRelPath json) opfRelPath ;;
      Ok (mkManifest (titleOf json) opfRelPath (spineOfJson opfRelPath json)
            (if Nat.ltb (length chapters0) (length (spineOfJson opfRelPath json))
             then mergeChaptersWithSpine cwd fs bookRootAbs (spineOfJson opfRelPath json) chapters0
             else chapters0)
            coverHref vertical).
Proof.
  intros Hjoin Hread Hparse. unfold parseOpf.
  rewrite Hjoin. cbn [bind]. rewrite Hread. cbn [bind]. rewrite Hparse. reflexivity.
Qed.

(** ** The merge step *)

(** C10. When fewer entries than spine items were discovered, the
    chapters of the manifest are the merged list. The merged list has, at
    every index, exactly the spine href of that index, fragment included;
    a discovered entry that points into the same document gives the title
    only: the first non-empty title among the entries with that
    fragment-stripped href. *)
Theorem merge_href_is_spine_href (cwd : string) (fs : filesystem)
    (bookRootAbs : string) (spine : list string) (chapters : list Chapter) :
  map href (mergeChaptersWithSpine cwd fs bookRootAbs spine chapters) = spine
  /\ (forall (i : nat) (h t : string),
        nth_error spine i = Some h ->
        firstTitleFor (Str.split0 "#" h) chapters = Some t ->
        nth_error (mergeChaptersWithSpine cwd fs bookRootAbs spine chapters) i
        = Some (mkChapter t h))
  /\ (forall (parseXml : string -> result json) (opfRelPath : string) (m : BookManifest),
        parseOpf cwd fs parseXml bookRootAbs opfRelPath = Ok m ->
        exists (doc : json) (discovered : list Chapter),
          extractChapters cwd fs parseXml bookRootAbs (opfDirOf opfRelPath) doc
            (manifestMapOfJson doc) (m_spine m) = Ok discovered
          /\ (length discovered < length (m_spine m) ->
              m_chapters m
              = mergeChaptersWithSpine cwd fs bookRootAbs (m_spine m) discovered
              /\ map href (m_chapters m) = m_spine m)).
Proof.
  split; [| split].
  - unfold mergeChaptersWithSpine, mapi. now apply mapi_from_proj.
  - intros i h t Hi Ht.
    unfold mergeChaptersWithSpine, mapi.
    rewrite mapi_from_nth, Hi. cbn [option_map Nat.add].
    rewrite titleMapOf_get, Ht.
    pose proof (firstTitleFor_nonempty _ _ _ Ht) as Hn.
    rewrite Hn. cbn [noTitle]. rewrite Hn. cbn [negb noTitle]. rewrite Hn.
    reflexivity.
  - intros parseXml opfRelPath m Hm. apply parseOpf_Ok_inv in Hm.
    destruct Hm as (opfAbs & opfXml & doc & discovered & coverHref & vertical
                    & _ & _ & _ & _ & Hch & _ & _ & ->).
    exists doc, discovered. cbn [m_spine m_chapters].
    split; [exact Hch|]. intros Hlt. apply Nat.ltb_lt in Hlt. rewrite Hlt.
    split; [reflexivity|].
    unfold mergeChaptersWithSpine, mapi. now apply mapi_from_proj.
Qed.

Lemma merge_href_is_spine_href_witness :
  nth_error
    (mergeChaptersWithSpine "/srv" (fun _ => None) "/data/books/b1"
       ["text/a.xhtml#top"; "text/b.xhtml"]
       [mkChapter EmptyString "text/a.xhtml"; mkChapter "Part A" "text/a.xhtml#s2";
        mkChapter "Later" "text/a.xhtml#s3"])
    0
  = Some (mkChapter "Part A" "text/a.xhtml#top")
  /\ exists (doc : json) (discovered : list Chapter),
       extractChapters Sample.cwd Sample.fs Sample.parseXml "/data/books/b4"
         (opfDirOf "content.opf") doc (manifestMapOfJson doc) ["c1.xhtml"; "c2.xhtml"]
       = Ok discovered
       /\ (length discovered < 2 ->
           [mkChapter "First" "c1.xhtml"; mkChapter "Second" "c2.xhtml"]
           = mergeChaptersWithSpine Sample.cwd Sample.fs "/data/books/b4"
               ["c1.xhtml"; "c2.xhtml"] discovered
           /\ ["c1.xhtml"; "c2.xhtml"] = ["c1.xhtml"; "c2.xhtml"]).
Proof.
  split.
  - apply (merge_href_is_spine_href "/srv" (fun _ => None) "/data/books/b1"
             ["text/a.xhtml#top"; "text/b.xhtml"]
             [mkChapter EmptyString "text/a.xhtml"; mkChapter "Part A" "text/a.xhtml#s2";
              mkChapter "Later" "text/a.xhtml#s3"]).
    + reflexivity.
    + reflexivity.
  - apply (proj2 (proj2 (merge_href_is_spine_href Sample.cwd Sample.fs "/data/books/b4"
                           [] []))
             Sample.parseXml "content.opf"
             (mkManifest "Tategaki" "content.opf" ["c1.xhtml"; "c2.xhtml"]
                [mkChapter "First" "c1.xhtml"; mkChapter "Second" "c2.xhtml"]
                (Some "img/cover.jpg") true)).
    vm_compute. reflexivity.
Defined.

(** ** The spine *)

Lemma filterMap_In {A B : Type} (f : A -> option B) (l : list A) (b : B) :
  In b (filterMap f l) <-> exists a, In a l /\ f a = Some b.
Proof.
  induction l as [|a l IH]; simpl.
  - split; [contradiction | intros (a & [] & _)].
  - destruct (f a) as [b'|] eqn:E; simpl; rewrite IH; split.
    + intros [-> | (a' & Hin & Hf)]; eauto.
    + intros (a' & [-> | Hin] & Hf); [left; congruence | eauto].
    + intros (a' & Hin & Hf); eauto.
    + intros (a' & [-> | Hin] & Hf); [congruence | eauto].
Qed.

Lemma isString_Some (x : json) (s : string) :
  isString x = Some s -> x = JStr s /\ Str.nonempty s = true.
Proof.
  destruct x as [| | | |[|c t]| |]; simpl; try discriminate.
  intros [= <-]. split; reflexivity.
Qed.

(** Every spine entry is the href of the manifest item an item-reference
    names, put under the directory of the package document, separators
    normalized. *)
Lemma spineOf_In (opfDir : string) (manifestMap : JsMap.t ManifestItem)
    (spineArr : list json) (h : string) :
  In h (spineOf opfDir manifestMap spineArr) ->
  exists (it : json) (idref : string) (item : ManifestItem),
    In it spineArr
    /\ isString (get it "@_idref") = Some idref
    /\ JsMap.get idref manifestMap = Some item
    /\ Str.nonempty (item_href item) = true
    /\ h = resolveHref opfDir (item_href item).
Proof.
  unfold spineOf. intros H.
  apply in_map_iff in H. destruct H as (href0 & <- & H).
  apply filterMap_In in H. destruct H as (idref & Hid & Hget).
  apply filterMap_In in Hid. destruct Hid as (it & Hit & Hidref).
  destruct (JsMap.get idref manifestMap) as [item|] eqn:G; [| discriminate].
  apply isString_Some in Hget. destruct Hget as [[= <-] Hne].
  exists it, idref, item. auto.
Qed.

Lemma underOpfDir_nonempty (opfDir h : string) :
  Str.nonempty h = true -> Str.nonempty (underOpfDir opfDir h) = true.
Proof.
  unfold underOpfDir. intros H.
  destruct opfDir; [exact H | reflexivity].
Qed.

Lemma spineOf_entries (opfDir : string) (manifestMap : JsMap.t ManifestItem)
    (spineArr : list json) :
  Forall (fun h => Str.nonempty h = true /\ noBackslash h)
         (spineOf opfDir manifestMap spineArr).
Proof.
  apply Forall_forall. intros h H.
  apply spineOf_In in H. destruct H as (it & idref & item & _ & _ & _ & Hne & ->).
  split.
  - apply replace_backslashes_nonempty. now apply underOpfDir_nonempty.
  - apply resolveHref_clean.
Qed.

(** ** [detectVertical] *)

Lemma exec_from_later (ignoreCase : bool) (r : Regex.regex) (s : string) :
  (forall prev, Regex.match_at ignoreCase r prev s <> None) ->
  forall (pre : string) (prev : option ascii),
    Regex.exec_from ignoreCase r prev (pre ++ s) <> None.
Proof.
  intros Hs. induction pre as [|c pre IH]; intros prev.
  - simpl. specialize (Hs prev).
    destruct s; simpl; destruct (Regex.match_at _ _ _ _) as [[? ?]|];
      congruence.
  - simpl. destruct (Regex.match_at _ _ _ _) as [[? ?]|]; [discriminate|].
    specialize (IH (Some c)).
    destruct (Regex.exec_from _ _ _ _); [discriminate | contradiction].
Qed.

(** A document that declares right-to-left page progression matches the
    expression [detectVertical] tests. *)
Lemma declaresRtl_test (xml : string) :
  declaresRtl xml -> Regex.test true Re.rtl xml = true.
Proof.
  intros (pre & post & q & Hq & ->). unfold Regex.test, Regex.exec.
  assert (H : forall prev,
             Regex.match_at true Re.rtl prev
               ("page-progression-direction=" ++ String q ("rtl" ++ String q post))
             <> None).
  { intros prev. unfold Re.quote, Regex.one_of in Hq. cbn [existsb] in Hq.
    rewrite orb_false_r in Hq. apply orb_prop in Hq.
    destruct Hq as [Hq | Hq]; apply Ascii.eqb_eq in Hq; subst q; discriminate. }
  pose proof (exec_from_later true Re.rtl _ H pre None) as Hex.
  destruct (Regex.exec_from _ _ _ _); [reflexivity | contradiction].
Qed.

Lemma detectVertical_total (cwd : string) (fs : filesystem) (bookRootAbs : string)
    (spine : list string) (opfRelPath : string) :
  exists b, detectVertical cwd fs bookRootAbs spine opfRelPath = Ok b.
Proof.
  unfold detectVertical.
  destruct spine as [|first rest]; [eauto|].
  destruct (negb (Str.nonempty first)); [eauto|].
  destruct (try_catch _ false); [eauto|].
  destruct (try_catch _ false); eauto.
Qed.




(** ** Which errors the stages can raise *)

Lemma safeJoin_Err (cwd root rel : string) (e : error) :
  safeJoin cwd root rel = Err e -> e = PathTraversal.
Proof. rewrite safeJoin_cases. destruct (String.prefix _ _); congruence. Qed.

Lemma hasProperty_Err (token : string) (properties : json) (e : error) :
  hasProperty token properties = Err e -> e = TypeError.
Proof.
  destruct properties as [| |b|z|s|l|o]; simpl; try discriminate;
    try congruence.
  - destruct b; [congruence | discriminate].
  - destruct (negb _); [congruence | discriminate].
Qed.

Lemma firstWithProperty_Err (token : string) (vals : list ManifestItem) (e : error) :
  firstWithProperty token vals = Err e -> e = TypeError.
Proof.
  induction vals as [|v vals IH]; simpl; [discriminate|].
  destruct (hasProperty token (item_properties v)) as [b|e'] eqn:H; cbn [bind].
  - destruct b; [discriminate | exact IH].
  - intros [= <-]. exact (hasProperty_Err _ _ _ H).
Qed.

Lemma legacyToc_Err (cwd : string) (fs : filesystem) (parseXml : string -> result json)
    (bookRootAbs opfDir : string) (opfJson : json) (manifestMap : JsMap.t ManifestItem)
    (e : error) :
  legacyToc cwd fs parseXml bookRootAbs opfDir opfJson manifestMap = Err e ->
  e = PathTraversal.
Proof.
  unfold legacyToc.
  destruct (isString _) as [tocId|]; [| discriminate].
  destruct (JsMap.get tocId manifestMap) as [ncx|]; [| discriminate].
  destruct (Str.nonempty (item_href ncx)); [| discriminate].
  destruct (safeJoin cwd bookRootAbs _) as [ncxAbs|e'] eqn:J; cbn [bind].
  - destruct (existsSync fs ncxAbs); discriminate.
  - intros [= <-]. exact (safeJoin_Err _ _ _ _ J).
Qed.

Lemma navDocument_Err (cwd : string) (fs : filesystem) (bookRootAbs opfDir : string)
    (manifestMap : JsMap.t ManifestItem) (e : error) :
  navDocument cwd fs bookRootAbs opfDir manifestMap = Err e ->
  e = PathTraversal \/ e = TypeError.
Proof.
  unfold navDocument.
  destruct (firstWithProperty "nav" (JsMap.values manifestMap)) as [found|e'] eqn:F;
    cbn [bind].
  - destruct found as [v|]; [| discriminate].
    destruct (Str.nonempty (item_href v)); [| discriminate].
    destruct (safeJoin cwd bookRootAbs _) as [navAbs|e'] eqn:J; cbn [bind].
    + destruct (existsSync fs navAbs); discriminate.
    + intros [= <-]. left. exact (safeJoin_Err _ _ _ _ J).
  - intros [= <-]. right. exact (firstWithProperty_Err _ _ _ F).
Qed.

Lemma extractChapters_Err (cwd : string) (fs : filesystem) (parseXml : string -> result json)
    (bookRootAbs opfDir : string) (opfJson : json) (manifestMap : JsMap.t ManifestItem)
    (spine : list string) (e : error) :
  extractChapters cwd fs parseXml bookRootAbs opfDir opfJson manifestMap spine = Err e ->
  e = PathTraversal \/ e = TypeError.
Proof.
  unfold extractChapters.
  destruct (legacyToc cwd fs parseXml bookRootAbs opfDir opfJson manifestMap)
    as [chapters|e'] eqn:L; cbn [bind].
  - destruct (negb (Nat.eqb (length chapters) 0)); [discriminate|].
    destruct (navDocument cwd fs bookRootAbs opfDir manifestMap) as [chapters'|e'] eqn:N;
      cbn [bind].
    + destruct (negb (Nat.eqb (length chapters') 0)); discriminate.
    + intros [= <-]. exact (navDocument_Err _ _ _ _ _ _ N).
  - intros [= <-]. left. exact (legacyToc_Err _ _ _ _ _ _ _ _ L).
Qed.

Lemma extractCoverHref_Err (cwd : string) (fs : filesystem) (bookRootAbs opfDir : string)
    (opfJson : json) (manifestMap : JsMap.t ManifestItem) (spine : list string)
    (e : error) :
  extractCoverHref cwd fs bookRootAbs opfDir opfJson manifestMap spine = Err e ->
  e = TypeError.
Proof.
  unfold extractCoverHref. cbv zeta.
  destruct (match findCoverIdFromMetadata _ with Some _ => _ | None => _ end);
    [discriminate|].
  destruct (firstWithProperty "cover-image" (JsMap.values manifestMap)) as [found|e'] eqn:F;
    cbn [bind].
  - destruct found; discriminate.
  - intros [= <-]. exact (firstWithProperty_Err _ _ _ F).
Qed.

(** ** The manifest table *)

Lemma JsMap_set_Forall {V : Type} (P : V -> Prop) (k : string) (v : V) (m : JsMap.t V) :
  P v -> Forall (fun kv => P (snd kv)) m ->
  Forall (fun kv => P (snd kv)) (JsMap.set k v m).
Proof.
  intros Hv Hm. induction m as [|[k' v'] m IH]; simpl.
  - constructor; [exact Hv | constructor].
  - inversion Hm as [|? ? Hhd Htl]; subst.
    destruct (String.eqb k' k); constructor; auto.
Qed.

Lemma JsMap_get_Forall {V : Type} (P : V -> Prop) (k : string) (v : V) (m : JsMap.t V) :
  Forall (fun kv => P (snd kv)) m -> JsMap.get k m = Some v -> P v.
Proof.
  unfold JsMap.get. intros Hm. induction m as [|[k' v'] m IH]; simpl; [discriminate|].
  inversion Hm as [|? ? Hhd Htl]; subst.
  destruct (String.eqb k' k); [intros [= <-]; exact Hhd | auto].
Qed.

Lemma manifestMapOf_hrefs (itemsArr : list json) :
  Forall (fun kv => Str.nonempty (item_href (snd kv)) = true) (manifestMapOf itemsArr).
Proof.
  unfold manifestMapOf.
  assert (H : forall (m : JsMap.t ManifestItem),
             Forall (fun kv => Str.nonempty (item_href (snd kv)) = true) m ->
             Forall (fun kv => Str.nonempty (item_href (snd kv)) = true)
               (fold_left
                  (fun manifestMap it =>
                     match isString (get it "@_id"), isString (get it "@_href") with
                     | Some id, Some href =>
                         JsMap.set id
                           (mkItem href (get it "@_properties") (get it "@_media-type"))
                           manifestMap
                     | _, _ => manifestMap
                     end) itemsArr m)).
  { induction itemsArr as [|it items IH]; intros m Hm; simpl; [exact Hm|].
    apply IH.
    destruct (isString (get it "@_id")) as [id|]; [| exact Hm].
    destruct (isString (get it "@_href")) as [href0|] eqn:Hh; [| exact Hm].
    apply isString_Some in Hh. destruct Hh as [_ Hne].
    apply (JsMap_set_Forall (fun v => Str.nonempty (item_href v) = true)); assumption. }
  apply H. constructor.
Qed.

(** The chain of [map] and [filter] of [parseOpf], read item-reference by
    item-reference. *)
Lemma spineOf_flat_map (opfDir : string) (manifestMap : JsMap.t ManifestItem)
    (spineArr : list json) :
  Forall (fun kv => Str.nonempty (item_href (snd kv)) = true) manifestMap ->
  spineOf opfDir manifestMap spineArr
  = flat_map
      (fun it =>
         match isString (get it "@_idref") with
         | Some idref =>
             match JsMap.get idref manifestMap with
             | Some item =>
                 [Regex.replaceAll false Re.backslashes "/"
                    (underOpfDir opfDir (item_href item))]
             | None => []
             end
         | None => []
         end)
      spineArr.
Proof.
  intros Hm. unfold spineOf.
  induction spineArr as [|it arr IH]; [reflexivity|].
  cbn [filterMap flat_map].
  destruct (isString (get it "@_idref")) as [idref|]; [| exact IH].
  cbn [filterMap].
  destruct (JsMap.get idref manifestMap) as [item|] eqn:G; [| exact IH].
  pose proof (JsMap_get_Forall (fun v => Str.nonempty (item_href v) = true) _ _ _ Hm G) as Hne.
  cbv beta in Hne.
  destruct (item_href item) as [|c h] eqn:Hh; [discriminate|].
  cbn [isString map app]. rewrite <- IH. reflexivity.
Qed.

(** ** Spine resolution *)

(** *** The directory of the package document *)

Lemma chars_app (a b : string) :
  list_ascii_of_string (a ++ b)
  = (list_ascii_of_string a ++ list_ascii_of_string b)%list.
Proof. induction a as [|c a IH]; simpl; [reflexivity | now rewrite IH]. Qed.

Lemma chars_length (a : string) : length (list_ascii_of_string a) = String.length a.
Proof. induction a as [|c a IH]; simpl; [reflexivity | now rewrite IH]. Qed.

Lemma string_length_app (a b : string) :
  String.length (a ++ b) = String.length a + String.length b.
Proof. induction a as [|c a IH]; simpl; [reflexivity | now rewrite IH]. Qed.

Lemma substring_prefix (a b : string) : substring 0 (String.length a) (a ++ b) = a.
Proof.
  induction a as [|c a IH]; simpl.
  - destruct b; reflexivity.
  - now rewrite IH.
Qed.

Lemma contains_false_chars (c : ascii) (s : string) :
  Str.contains c s = false ->
  Forall (fun d => Ascii.eqb d c = false) (list_ascii_of_string s).
Proof.
  induction s as [|d s IH]; simpl; intros H; constructor.
  - apply orb_false_iff in H. tauto.
  - apply IH. apply orb_false_iff in H. tauto.
Qed.

(** The scan of [dirname] passes the characters of the last segment. *)
Lemma dirname_end_skip (l rest : list ascii) (k : nat) :
  Forall (fun d => Ascii.eqb d Path.slash = false) l ->
  forall m : bool,
    Path.dirname_end (l ++ rest) (length l + k) m
    = Path.dirname_end rest k (match l with [] => m | _ :: _ => false end).
Proof.
  induction 1 as [|d l Hd _ IH]; intros m; [reflexivity|].
  cbn [app length Nat.add Path.dirname_end]. rewrite Hd, IH.
  destruct l; reflexivity.
Qed.

Lemma dirname_entry (dir name : string) :
  Str.nonempty dir = true ->
  Str.startsWith dir "/" = false ->
  Str.nonempty name = true ->
  Str.contains Path.slash name = false ->
  Path.dirname (dir ++ "/" ++ name) = dir.
Proof.
  intros Hdir Hrel Hname Hslash.
  assert (Hend :
    Path.dirname_end (rev (list_ascii_of_string (dir ++ "/" ++ name)))
      (String.length (dir ++ "/" ++ name) - 1) true
    = Some (String.length dir)).
  { rewrite !chars_app, !rev_app_distr, <- app_assoc, !string_length_app.
    replace (String.length dir + (String.length "/" + String.length name) - 1)
      with (length (rev (list_ascii_of_string name)) + String.length dir)
      by (rewrite length_rev, chars_length; cbn [String.length]; lia).
    rewrite dirname_end_skip
      by (apply Forall_rev; now apply contains_false_chars).
    destruct (rev (list_ascii_of_string name)) as [|d l] eqn:E.
    - apply (f_equal (@length ascii)) in E.
      rewrite length_rev, chars_length in E. destruct name; discriminate.
    - destruct dir as [|c dir]; [discriminate|].
      cbn [String.length list_ascii_of_string rev app Path.dirname_end].
      reflexivity. }
  destruct dir as [|c dir]; [discriminate|].
  assert (Hc : Ascii.eqb c Path.slash = false).
  { unfold Str.startsWith in Hrel. cbn [String.prefix] in Hrel.
    apply Ascii.eqb_neq. intros ->.
    destruct (ascii_dec "/" Path.slash) as [_|n]; [| now apply n].
    destruct dir; discriminate. }
  change (String c dir ++ "/" ++ name) with (String c (dir ++ "/" ++ name)) in *.
  unfold Path.dirname. rewrite Hend, Hc. cbn [andb].
  change (String c (dir ++ "/" ++ name)) with (String c dir ++ "/" ++ name).
  apply substring_prefix.
Qed.

Lemma dirname_name (name : string) :
  Str.nonempty name = true ->
  Str.contains Path.slash name = false ->
  Path.dirname name = ".".
Proof.
  intros Hname Hslash. destruct name as [|c name]; [discriminate|].
  cbn [Str.contains] in Hslash. apply orb_false_iff in Hslash.
  destruct Hslash as [Hc Hslash].
  unfold Path.dirname. rewrite Hc.
  cbn [list_ascii_of_string rev String.length].
  replace (S (String.length name) - 1)
    with (length (rev (list_ascii_of_string name)) + 0)
    by (rewrite length_rev, chars_length; lia).
  rewrite dirname_end_skip by (apply Forall_rev; now apply contains_false_chars).
  reflexivity.
Qed.

Lemma join_snoc (segs : list string) (x : string) :
  segs <> [] ->
  Str.join "/" (segs ++ [x]) = Str.join "/" segs ++ "/" ++ x.
Proof.
  induction segs as [|s segs IH]; intros Hne; [contradiction|].
  destruct segs as [|s' segs]; [reflexivity|].
  change (Str.join "/" ((s :: s' :: segs) ++ [x]))
    with (s ++ "/" ++ Str.join "/" ((s' :: segs) ++ [x])).
  rewrite IH by discriminate.
  change (Str.join "/" (s :: s' :: segs)) with (s ++ "/" ++ Str.join "/" (s' :: segs)).
  now rewrite !string_app_assoc.
Qed.

(** A relative path of plain segments does not start with a slash, is not
    empty and is not [.]. *)
Lemma join_plain (s : string) (segs : list string) :
  Forall (fun x => plainSegment x = true) (s :: segs) ->
  Str.nonempty (Str.join "/" (s :: segs)) = true
  /\ Str.startsWith (Str.join "/" (s :: segs)) "/" = false
  /\ String.eqb (Str.join "/" (s :: segs)) "." = false.
Proof.
  intros H. inversion H as [|? ? Hs _]; subst.
  apply plainSegment_inv in Hs. destruct Hs as (Hne & Hslash & Hdot & _).
  destruct s as [|c s]; [discriminate|].
  cbn [Str.contains] in Hslash. apply orb_false_iff in Hslash. destruct Hslash as [Hc _].
  assert (Hjoin : exists t, Str.join "/" (String c s :: segs) = String c t
                            /\ (segs = [] -> t = s)
                            /\ (segs <> [] -> t <> EmptyString)).
  { destruct segs as [|s' segs].
    - exists s. split; [reflexivity|]. split; [reflexivity | congruence].
    - exists (s ++ "/" ++ Str.join "/" (s' :: segs)).
      split; [reflexivity|]. split; [discriminate|].
      intros _. destruct s; discriminate. }
  destruct Hjoin as (t & -> & Hone & Hmany).
  split; [reflexivity|]. split.
  - unfold Str.startsWith. cbn [String.prefix].
    destruct (ascii_dec "/" c) as [e|_]; [| reflexivity].
    subst c. discriminate Hc.
  - destruct segs as [|s' segs].
    + rewrite (Hone eq_refl). exact Hdot.
    + apply String.eqb_neq. intros E. injection E as _ E.
      apply Hmany; [discriminate | exact E].
Qed.

(** The directory [parseOpf] takes for a package document at a relative
    path of plain segments: the path without its last segment. *)
Lemma opfDirOf_segments (dirSegs : list string) (name : string) :
  Forall (fun s => plainSegment s = true) dirSegs ->
  plainSegment name = true ->
  opfDirOf (Str.join "/" (dirSegs ++ [name])) = Str.join "/" dirSegs.
Proof.
  intros Hdir Hname. apply plainSegment_inv in Hname.
  destruct Hname as (Hne & Hslash & _ & _). unfold opfDirOf.
  destruct dirSegs as [|s segs].
  - cbn [app Str.join]. now rewrite (dirname_name name Hne Hslash).
  - destruct (join_plain s segs Hdir) as (Hd & Hrel & Hdot).
    rewrite join_snoc by discriminate.
    rewrite (dirname_entry _ _ Hd Hrel Hne Hslash), Hdot. reflexivity.
Qed.

(** Putting an href under that directory extends the segments. *)
Lemma underOpfDir_segments (dirSegs : list string) (href : string) :
  Forall (fun s => plainSegment s = true) dirSegs ->
  underOpfDir (Str.join "/" dirSegs) href = Str.join "/" (dirSegs ++ [href]).
Proof.
  intros Hdir. unfold underOpfDir. destruct dirSegs as [|s segs]; [reflexivity|].
  destruct (join_plain s segs Hdir) as (Hd & _ & _).
  rewrite Hd. now rewrite join_snoc by discriminate.
Qed.

Lemma replaceAll_withSlashes (s : string) :
  Regex.replaceAll false Re.backslashes "/" s = withSlashes s.
Proof. unfold Regex.replaceAll, withSlashes. apply scan_backslashes. Qed.

Lemma map_flat_map {A B C : Type} (f : B -> C) (g : A -> list B) (l : list A) :
  map f (flat_map g l) = flat_map (fun a => map f (g a)) l.
Proof.
  induction l as [|a l IH]; simpl; [reflexivity|].
  now rewrite map_app, IH.
Qed.

(** C5. Once the package document is read and parsed, the spine has, in
    the order of the item-references, the href of the manifest item each
    reference names, put under the directory of the package document with
    the separators normalized; a reference without idref or without item
    is skipped. For a package document at the relative path
    [d1/../dn/name] the directory is [d1/../dn], and an href [h] gives the
    spine entry [d1/../dn/h] with every backslash turned into a slash.
    [parseOpf] fails with the empty-spine error exactly when this sequence
    is empty, and a manifest it returns carries this sequence. *)
Theorem parseOpf_spine_resolution (cwd : string) (fs : filesystem)
    (parseXml : string -> result json) (bookRootAbs opfRelPath opfAbs opfXml : string)
    (json : json) :
  safeJoin cwd bookRootAbs opfRelPath = Ok opfAbs ->
  readText fs opfAbs = Ok opfXml ->
  parseXml opfXml = Ok json ->
  (forall (dirSegs : list string) (name : string),
      opfRelPath = Str.join "/" (dirSegs ++ [name]) ->
      Forall (fun s => plainSegment s = true) dirSegs ->
      plainSegment name = true ->
      spineOfJson opfRelPath json
      = map (fun href => withSlashes (Str.join "/" (dirSegs ++ [href])))
            (referencedHrefs json))
  /\ spineOfJson opfRelPath json
     = flat_map
         (fun it =>
            match isString (get it "@_idref") with
            | Some idref =>
                match JsMap.get idref (manifestMapOfJson json) with
                | Some item =>
                    [Regex.replaceAll false Re.backslashes "/"
                       (underOpfDir (opfDirOf opfRelPath) (item_href item))]
                | None => []
                end
            | None => []
            end)
         (asArray (coalesce (get (get (get json "package") "spine") "itemref") (JArr [])))
  /\ Forall noBackslash (spineOfJson opfRelPath json)
  /\ (parseOpf cwd fs parseXml bookRootAbs opfRelPath = Err EmptySpine
      <-> spineOfJson opfRelPath json = [])
  /\ (forall m : BookManifest,
        parseOpf cwd fs parseXml bookRootAbs opfRelPath = Ok m ->
        m_spine m = spineOfJson opfRelPath json).
Proof.
  intros Hjoin Hread Hparse.
  assert (Hflat :
    spineOfJson opfRelPath json
    = flat_map
        (fun it =>
           match isString (get it "@_idref") with
           | Some idref =>
               match JsMap.get idref (manifestMapOfJson json) with
               | Some item =>
                   [Regex.replaceAll false Re.backslashes "/"
                      (underOpfDir (opfDirOf opfRelPath) (item_href item))]
               | None => []
               end
           | None => []
           end)
        (asArray (coalesce (get (get (get json "package") "spine") "itemref") (JArr [])))).
  { unfold spineOfJson. apply spineOf_flat_map. apply manifestMapOf_hrefs. }
  split; [| split; [exact Hflat | split; [| split]]].
  - intros dirSegs name -> Hdir Hname.
    rewrite Hflat, (opfDirOf_segments dirSegs name Hdir Hname).
    unfold referencedHrefs. rewrite map_flat_map.
    apply flat_map_ext. intros it.
    destruct (isString (get it "@_idref")) as [idref|]; [| reflexivity].
    destruct (JsMap.get idref (manifestMapOfJson json)) as [item|]; [| reflexivity].
    cbn [map].
    now rewrite replaceAll_withSlashes, (underOpfDir_segments dirSegs _ Hdir).
  - unfold spineOfJson.
    eapply Forall_impl; [| apply spineOf_entries]. cbv beta. tauto.
  - rewrite (parseOpf_steps cwd fs parseXml _ _ _ _ _ Hjoin Hread Hparse).
    split.
    + destruct (spineOfJson opfRelPath json) as [|h rest]; [reflexivity|].
      cbn [length Nat.eqb]. intros H. exfalso.
      destruct (extractChapters _ _ _ _ _ _ _ _) as [chapters0|e] eqn:C; cbn [bind] in H.
      * destruct (extractCoverHref _ _ _ _ _ _ _) as [coverHref|e] eqn:V; cbn [bind] in H.
        -- destruct (detectVertical_total cwd fs bookRootAbs (h :: rest) opfRelPath)
             as [b Hb].
           rewrite Hb in H. discriminate.
        -- apply extractCoverHref_Err in V. congruence.
      * apply extractChapters_Err in C. destruct C; congruence.
    + intros ->. reflexivity.
  - intros m Hm. apply parseOpf_Ok_inv in Hm.
    destruct Hm as (opfAbs' & opfXml' & json' & chapters0 & coverHref & vertical
                    & Hjoin' & Hread' & Hparse' & _ & _ & _ & _ & ->).
    cbn [m_spine].
    assert (opfAbs' = opfAbs) by congruence. subst opfAbs'.
    assert (opfXml' = opfXml) by congruence. subst opfXml'.
    congruence.
Qed.

Lemma parseOpf_spine_resolution_witness :
  spineOfJson "OEBPS/content.opf" Sample.b1_opf_json = ["OEBPS/text/ch1.xhtml"]
  /\ spineOfJson "EPUB/package.opf" Sample.b13_opf_json = ["EPUB/c1.xhtml"]
  /\ parseOpf Sample.cwd Sample.fs Sample.parseXml "/data/books/b4" "content.opf"
     <> Err EmptySpine
  /\ Forall noBackslash (spineOfJson "content.opf" Sample.b4_opf_json).
Proof.
  split; [| split].
  - rewrite (proj1 (parseOpf_spine_resolution Sample.cwd Sample.fs Sample.parseXml
                      "/data/books/b1" "OEBPS/content.opf"
                      "/data/books/b1/OEBPS/content.opf"
                      Sample.b1_opf Sample.b1_opf_json eq_refl eq_refl eq_refl)
               ["OEBPS"] "content.opf" eq_refl
               (Forall_cons "OEBPS" eq_refl (Forall_nil _)) eq_refl).
    reflexivity.
  - rewrite (proj1 (parseOpf_spine_resolution Sample.cwd Sample.fs Sample.parseXml
                      "/data/books/b13" "EPUB/package.opf"
                      "/data/books/b13/EPUB/package.opf"
                      Sample.b13_opf Sample.b13_opf_json eq_refl eq_refl eq_refl)
               ["EPUB"] "package.opf" eq_refl
               (Forall_cons "EPUB" eq_refl (Forall_nil _)) eq_refl).
    reflexivity.
  - destruct (parseOpf_spine_resolution Sample.cwd Sample.fs Sample.parseXml
                "/data/books/b4" "content.opf" "/data/books/b4/content.opf"
                Sample.b4_opf Sample.b4_opf_json eq_refl eq_refl eq_refl)
      as (_ & _ & Hclean & Hempty & _).
    split; [| exact Hclean].
    intros H. apply Hempty in H. discriminate H.
Defined.

Lemma assoc_with_cases {V A : Type} (f : V -> A) (d : A) (k : string)
    (fs : list (string * V)) :
  assoc_with f d k fs = d
  \/ exists v, In (k, v) fs /\ assoc_with f d k fs = f v.
Proof.
  induction fs as [|[k' v] fs IH]; simpl; [now left|].
  destruct (String.eqb k' k) eqn:E.
  - apply String.eqb_eq in E. subst k'. right. exists v. auto.
  - destruct IH as [IH | (v' & Hin & IH)]; [now left|].
    right. exists v'. auto.
Qed.

Lemma Forall_flat_map {A B : Type} (Q : B -> Prop) (f : A -> list B) (l : list A) :
  Forall (fun a => Forall Q (f a)) l -> Forall Q (flat_map f l).
Proof.
  induction 1 as [|a l Ha _ IH]; simpl; [constructor|].
  apply Forall_app. split; assumption.
Qed.

(** ** Hrefs of the discovered entries *)

(** Every entry the walk over a navigation tree pushes has normalized
    separators. *)
Lemma walk_clean (opfDir : string) (np : json) :
  Forall (fun c => noBackslash (href c)) (walk opfDir np)
  /\ match np with
     | JArr l => Forall (fun c => Forall (fun c => noBackslash (href c)) (walk opfDir c)) l
     | _ => True
     end.
Proof.
  induction np as [| | b | z | s | l IH | fs IH] using json_nested_ind;
    try (split; [constructor | exact I]).
  - split; [constructor|].
    eapply Forall_impl; [| exact IH]. cbv beta. tauto.
  - split; [| exact I].
    cbn [walk].
    apply Forall_app. split.
    + destruct (isString (get (get (JObj fs) "navLabel") "text")); [| constructor].
      destruct (isString (get (get (JObj fs) "content") "@_src")); [| constructor].
      constructor; [| constructor]. cbn [href]. apply replace_backslashes_clean.
    + match goal with
      | |- Forall _ (assoc_with ?f ?d ?k fs) =>
          destruct (assoc_with_cases f d k fs) as [-> | (children & Hin & ->)]
      end; [constructor|].
      rewrite Forall_forall in IH. specialize (IH _ Hin). cbn [snd] in IH.
      destruct IH as [Hself Hkids].
      destruct children as [| | b | z | s | childArr | o]; try constructor.
      * apply Forall_flat_map.
        eapply Forall_impl; [| exact Hkids]. cbv beta.
        intros c Hc. destruct (truthy c); [exact Hc | constructor].
      * exact Hself.
Qed.

Lemma walkAll_clean (opfDir : string) (arr : list json) :
  Forall (fun c => noBackslash (href c)) (walkAll opfDir arr).
Proof.
  unfold walkAll. apply Forall_flat_map. apply Forall_forall. intros p _.
  destruct (truthy p); [apply walk_clean | constructor].
Qed.

Lemma navLinks_clean (opfDir navHtml : string) :
  Forall (fun c => noBackslash (href c)) (navLinks opfDir navHtml).
Proof.
  unfold navLinks. apply Forall_forall. intros c Hc.
  apply filterMap_In in Hc. destruct Hc as (g & _ & Hg).
  destruct (Regex.group 1 g) as [[|ch h]|]; try discriminate.
  destruct (Str.nonempty _); [| discriminate].
  injection Hg as <-. cbn [href]. apply replace_backslashes_clean.
Qed.

Lemma legacyToc_clean (cwd : string) (fs : filesystem) (parseXml : string -> result json)
    (bookRootAbs opfDir : string) (opfJson : json) (manifestMap : JsMap.t ManifestItem)
    (entries : list Chapter) :
  legacyToc cwd fs parseXml bookRootAbs opfDir opfJson manifestMap = Ok entries ->
  Forall (fun c => noBackslash (href c)) entries.
Proof.
  unfold legacyToc.
  destruct (isString _) as [tocId|]; [| intros [= <-]; constructor].
  destruct (JsMap.get tocId manifestMap) as [ncx|]; [| intros [= <-]; constructor].
  destruct (Str.nonempty (item_href ncx)); [| intros [= <-]; constructor].
  destruct (safeJoin cwd bookRootAbs _) as [ncxAbs|e]; cbn [bind]; [| discriminate].
  destruct (existsSync fs ncxAbs); [| intros [= <-]; constructor].
  intros [= <-].
  destruct (readText fs ncxAbs) as [ncxXml|e]; cbn [bind try_catch]; [| constructor].
  destruct (parseXml ncxXml) as [ncxJson|e]; cbn [bind try_catch]; [| constructor].
  apply walkAll_clean.
Qed.

Lemma navDocument_clean (cwd : string) (fs : filesystem) (bookRootAbs opfDir : string)
    (manifestMap : JsMap.t ManifestItem) (entries : list Chapter) :
  navDocument cwd fs bookRootAbs opfDir manifestMap = Ok entries ->
  Forall (fun c => noBackslash (href c)) entries.
Proof.
  unfold navDocument.
  destruct (firstWithProperty "nav" (JsMap.values manifestMap)) as [found|e]; cbn [bind];
    [| discriminate].
  destruct found as [v|]; [| intros [= <-]; constructor].
  destruct (Str.nonempty (item_href v)); [| intros [= <-]; constructor].
  destruct (safeJoin cwd bookRootAbs _) as [navAbs|e]; cbn [bind]; [| discriminate].
  destruct (existsSync fs navAbs); [| intros [= <-]; constructor].
  intros [= <-].
  destruct (readText fs navAbs) as [navHtml|e]; cbn [bind try_catch]; [| constructor].
  apply navLinks_clean.
Qed.

Lemma Forall_map_href (Q : string -> Prop) (chapters : list Chapter) :
  Forall Q (map href chapters) -> Forall (fun c => Q (href c)) chapters.
Proof.
  induction chapters as [|c cs IH]; simpl; intros H; [constructor|].
  inversion H; subst. constructor; auto.
Qed.

Lemma scrapeSpine_hrefs (cwd : string) (fs : filesystem) (bookRootAbs : string)
    (spine : list string) :
  map href (scrapeSpine cwd fs bookRootAbs spine) = spine.
Proof. unfold scrapeSpine, mapi. now apply mapi_from_proj. Qed.

Lemma merge_hrefs (cwd : string) (fs : filesystem) (bookRootAbs : string)
    (spine : list string) (chapters : list Chapter) :
  map href (mergeChaptersWithSpine cwd fs bookRootAbs spine chapters) = spine.
Proof. unfold mergeChaptersWithSpine, mapi. now apply mapi_from_proj. Qed.

Lemma extractChapters_clean (cwd : string) (fs : filesystem)
    (parseXml : string -> result json) (bookRootAbs opfDir : string) (opfJson : json)
    (manifestMap : JsMap.t ManifestItem) (spine : list string) (chapters : list Chapter) :
  Forall noBackslash spine ->
  extractChapters cwd fs parseXml bookRootAbs opfDir opfJson manifestMap spine = Ok chapters ->
  Forall (fun c => noBackslash (href c)) chapters.
Proof.
  intros Hspine. unfold extractChapters.
  destruct (legacyToc cwd fs parseXml bookRootAbs opfDir opfJson manifestMap)
    as [legacy|e] eqn:L; cbn [bind]; [| discriminate].
  destruct (negb (Nat.eqb (length legacy) 0)).
  - intros [= <-]. exact (legacyToc_clean _ _ _ _ _ _ _ _ L).
  - destruct (navDocument cwd fs bookRootAbs opfDir manifestMap) as [links|e] eqn:N;
      cbn [bind]; [| discriminate].
    destruct (negb (Nat.eqb (length links) 0)).
    + intros [= <-]. exact (navDocument_clean _ _ _ _ _ _ N).
    + intros [= <-]. apply Forall_map_href. now rewrite scrapeSpine_hrefs.
Qed.

Lemma extractCoverHref_clean (cwd : string) (fs : filesystem) (bookRootAbs opfDir : string)
    (opfJson : json) (manifestMap : JsMap.t ManifestItem) (spine : list string)
    (c : string) :
  extractCoverHref cwd fs bookRootAbs opfDir opfJson manifestMap spine = Ok (Some c) ->
  noBackslash c.
Proof.
  unfold extractCoverHref. cbv zeta.
  destruct (findCoverIdFromMetadata _) as [coverId|].
  - destruct (JsMap.get coverId manifestMap) as [item|].
    + destruct (Str.nonempty (item_href item)).
      * intros [= <-]. apply normalizeHref_clean.
      * destruct (firstWithProperty _ _) as [[v|]|e]; cbn [bind]; try discriminate.
        -- intros [= <-]. apply normalizeHref_clean.
        -- unfold firstImage. destruct spine as [|first rest]; [discriminate|].
           destruct (safeJoin _ _ _) as [abs|e]; cbn [bind try_catch]; [| discriminate].
           destruct (readText fs abs) as [html|e]; cbn [bind try_catch]; [| discriminate].
           destruct (match Regex.exec true Re.img html with Some _ => _ | None => _ end)
             as [m|]; [| discriminate].
           destruct (Regex.group 1 (Regex.groups m)) as [[|ch s]|]; try discriminate.
           intros [= <-]. apply normalizeHref_clean.
    + destruct (firstWithProperty _ _) as [[v|]|e]; cbn [bind]; try discriminate.
      * intros [= <-]. apply normalizeHref_clean.
      * unfold firstImage. destruct spine as [|first rest]; [discriminate|].
        destruct (safeJoin _ _ _) as [abs|e]; cbn [bind try_catch]; [| discriminate].
        destruct (readText fs abs) as [html|e]; cbn [bind try_catch]; [| discriminate].
        destruct (match Regex.exec true Re.img html with Some _ => _ | None => _ end)
          as [m|]; [| discriminate].
        destruct (Regex.group 1 (Regex.groups m)) as [[|ch s]|]; try discriminate.
        intros [= <-]. apply normalizeHref_clean.
  - destruct (firstWithProperty _ _) as [[v|]|e]; cbn [bind]; try discriminate.
    + intros [= <-]. apply normalizeHref_clean.
    + unfold firstImage. destruct spine as [|first rest]; [discriminate|].
      destruct (safeJoin _ _ _) as [abs|e]; cbn [bind try_catch]; [| discriminate].
      destruct (readText fs abs) as [html|e]; cbn [bind try_catch]; [| discriminate].
      destruct (match Regex.exec true Re.img html with Some _ => _ | None => _ end)
        as [m|]; [| discriminate].
      destruct (Regex.group 1 (Regex.groups m)) as [[|ch s]|]; try discriminate.
      intros [= <-]. apply normalizeHref_clean.
Qed.

(** ** When [parseOpf] succeeds *)

Lemma JsMap_get_In {V : Type} (k : string) (v : V) (m : JsMap.t V) :
  JsMap.get k m = Some v -> In v (JsMap.values m).
Proof.
  unfold JsMap.get, JsMap.values. induction m as [|[k' v'] m IH]; simpl; [discriminate|].
  destruct (String.eqb k' k); [intros [= <-]; now left | auto].
Qed.

Lemma hasProperty_Ok (token : string) (properties : json) :
  stringOrAbsent properties = true -> exists b, hasProperty token properties = Ok b.
Proof.
  destruct properties as [| |b|z|s|l|o]; simpl; intros H; eauto; try discriminate.
  - destruct b; [discriminate | eauto].
  - destruct (_ || _); simpl in *; [eauto | discriminate].
Qed.

Lemma firstWithProperty_Ok (token : string) (vals : list ManifestItem) :
  Forall (fun v => stringOrAbsent (item_properties v) = true) vals ->
  exists found,
    firstWithProperty token vals = Ok found
    /\ (forall v, found = Some v -> In v vals).
Proof.
  induction 1 as [|v vals Hv _ IH]; simpl.
  - exists None. split; [reflexivity | discriminate].
  - destruct (hasProperty_Ok token _ Hv) as [b ->]. cbn [bind].
    destruct b.
    + exists (Some v). split; [reflexivity|]. intros v' [= <-]. now left.
    + destruct IH as (found & -> & Hin). exists found. split; [reflexivity|].
      intros v' Hv'. right. auto.
Qed.

Lemma safeJoin_Ok_of_prefix (cwd root rel : string) :
  Str.startsWith (Path.resolve cwd root rel) root = true ->
  safeJoin cwd root rel = Ok (Path.resolve cwd root rel).
Proof. unfold safeJoin. now intros ->. Qed.

Lemma extractChapters_Ok (cwd : string) (fs : filesystem) (parseXml : string -> result json)
    (bookRootAbs opfDir : string) (opfJson : json) (manifestMap : JsMap.t ManifestItem)
    (spine : list string) :
  Forall (itemWellFormed cwd bookRootAbs opfDir) (JsMap.values manifestMap) ->
  exists chapters,
    extractChapters cwd fs parseXml bookRootAbs opfDir opfJson manifestMap spine = Ok chapters.
Proof.
  intros Hitems. rewrite Forall_forall in Hitems.
  assert (Hlegacy : exists l, legacyToc cwd fs parseXml bookRootAbs opfDir opfJson manifestMap
                              = Ok l).
  { unfold legacyToc.
    destruct (isString _) as [tocId|]; [| eauto].
    destruct (JsMap.get tocId manifestMap) as [ncx|] eqn:G; [| eauto].
    destruct (Str.nonempty (item_href ncx)); [| eauto].
    destruct (Hitems ncx (JsMap_get_In _ _ _ G)) as [Hsafe _].
    rewrite (safeJoin_Ok_of_prefix _ _ _ Hsafe). cbn [bind].
    destruct (existsSync fs _); eauto. }
  assert (Hnav : exists l, navDocument cwd fs bookRootAbs opfDir manifestMap = Ok l).
  { unfold navDocument.
    destruct (firstWithProperty_Ok "nav" (JsMap.values manifestMap)) as (found & -> & Hin).
    { apply Forall_forall. intros v Hv. apply (Hitems v Hv). }
    cbn [bind]. destruct found as [v|]; [| eauto].
    destruct (Str.nonempty (item_href v)); [| eauto].
    destruct (Hitems v (Hin v eq_refl)) as [Hsafe _].
    rewrite (safeJoin_Ok_of_prefix _ _ _ Hsafe). cbn [bind].
    destruct (existsSync fs _); eauto. }
  destruct Hlegacy as [l Hl]. destruct Hnav as [l' Hl'].
  unfold extractChapters. rewrite Hl. cbn [bind].
  destruct (negb (Nat.eqb (length l) 0)); [eauto|].
  rewrite Hl'. cbn [bind].
  destruct (negb (Nat.eqb (length l') 0)); eauto.
Qed.

Lemma extractCoverHref_Ok (cwd : string) (fs : filesystem) (bookRootAbs opfDir : string)
    (opfJson : json) (manifestMap : JsMap.t ManifestItem) (spine : list string) :
  Forall (itemWellFormed cwd bookRootAbs opfDir) (JsMap.values manifestMap) ->
  exists coverHref,
    extractCoverHref cwd fs bookRootAbs opfDir opfJson manifestMap spine = Ok coverHref.
Proof.
  intros Hitems. unfold extractCoverHref. cbv zeta.
  destruct (match findCoverIdFromMetadata _ with Some _ => _ | None => _ end); [eauto|].
  destruct (firstWithProperty_Ok "cover-image" (JsMap.values manifestMap)) as (found & -> & _).
  { eapply Forall_impl; [| exact Hitems]. intros v Hv. apply Hv. }
  cbn [bind]. destruct found; eauto.
Qed.

(** ** Chapters and spine *)

(** C3, as stated, fails: the package [b1] has one spine document and a
    legacy TOC with two entries into it; [parseOpf] returns both entries,
    so the chapters are more than the spine entries. *)
Lemma parseOpf_more_chapters_than_spine :
  exists m,
    parseOpf Sample.cwd Sample.fs Sample.parseXml "/data/books/b1" "OEBPS/content.opf" = Ok m
    /\ m_spine m = ["OEBPS/text/ch1.xhtml"]
    /\ m_chapters m = [mkChapter "Part One" "OEBPS/text/ch1.xhtml";
                       mkChapter "Part Two" "OEBPS/text/ch1.xhtml#part2"]
    /\ length (m_chapters m) <> length (m_spine m).
Proof.
  eexists. split; [vm_compute; reflexivity|].
  repeat split. discriminate.
Qed.

(** A package with a non-empty spine whose legacy TOC item points outside
    the package root is rejected: the path of the TOC document is checked
    outside of any [try]. *)
Remark parseOpf_rejects_escaping_toc :
  spineOfJson "content.opf" Sample.b7_opf_json = ["c1.xhtml"]
  /\ parseOpf Sample.cwd Sample.fs Sample.parseXml "/data/books/b7" "content.opf"
     = Err PathTraversal.
Proof. split; vm_compute; reflexivity. Qed.

(** C3 (amended). For every package whose resolved spine is non-empty and
    whose manifest items lie within the package root and have string
    properties, [parseOpf] succeeds, and the manifest has at least as many
    chapters as spine entries. When fewer entries than spine entries were
    discovered, there is exactly one chapter per spine entry, in spine
    order; otherwise the chapters are the discovered entries. *)
Theorem parseOpf_chapters_cover_spine (cwd : string) (fs : filesystem)
    (parseXml : string -> result json) (bookRootAbs opfRelPath opfAbs opfXml : string)
    (json : json) :
  safeJoin cwd bookRootAbs opfRelPath = Ok opfAbs ->
  readText fs opfAbs = Ok opfXml ->
  parseXml opfXml = Ok json ->
  spineOfJson opfRelPath json <> [] ->
  Forall (itemWellFormed cwd bookRootAbs (opfDirOf opfRelPath))
         (JsMap.values (manifestMapOfJson json)) ->
  exists (m : BookManifest) (discovered : list Chapter),
    parseOpf cwd fs parseXml bookRootAbs opfRelPath = Ok m
    /\ extractChapters cwd fs parseXml bookRootAbs (opfDirOf opfRelPath) json
         (manifestMapOfJson json) (spineOfJson opfRelPath json) = Ok discovered
    /\ m_spine m = spineOfJson opfRelPath json
    /\ length (m_spine m) <= length (m_chapters m)
    /\ (length discovered < length (m_spine m) ->
        map href (m_chapters m) = m_spine m)
    /\ (length (m_spine m) <= length discovered ->
        m_chapters m = discovered).
Proof.
  intros Hjoin Hread Hparse Hspine Hitems.
  destruct (extractChapters_Ok cwd fs parseXml bookRootAbs (opfDirOf opfRelPath) json
              (manifestMapOfJson json) (spineOfJson opfRelPath json) Hitems)
    as [discovered Hch].
  destruct (extractCoverHref_Ok cwd fs bookRootAbs (opfDirOf opfRelPath) json
              (manifestMapOfJson json) (spineOfJson opfRelPath json) Hitems)
    as [coverHref Hcov].
  destruct (detectVertical_total cwd fs bookRootAbs (spineOfJson opfRelPath json) opfRelPath)
    as [vertical Hvert].
  exists (mkManifest (titleOf json) opfRelPath (spineOfJson opfRelPath json)
            (if Nat.ltb (length discovered) (length (spineOfJson opfRelPath json))
             then mergeChaptersWithSpine cwd fs bookRootAbs (spineOfJson opfRelPath json)
                    discovered
             else discovered)
            coverHref vertical).
  exists discovered.
  split.
  - rewrite (parseOpf_steps cwd fs parseXml _ _ _ _ _ Hjoin Hread Hparse).
    destruct (Nat.eqb (length (spineOfJson opfRelPath json)) 0) eqn:E.
    + apply Nat.eqb_eq in E. apply length_zero_iff_nil in E. contradiction.
    + rewrite Hch. cbn [bind]. rewrite Hcov. cbn [bind]. rewrite Hvert. reflexivity.
  - split; [exact Hch|]. cbn [m_spine m_chapters].
    split; [reflexivity|].
    destruct (Nat.ltb (length discovered) (length (spineOfJson opfRelPath json))) eqn:L.
    + apply Nat.ltb_lt in L.
      repeat split.
      * rewrite <- (merge_hrefs cwd fs bookRootAbs (spineOfJson opfRelPath json) discovered)
          at 1.
        now rewrite length_map.
      * intros _. apply merge_hrefs.
      * intros Hle. lia.
    + apply Nat.ltb_ge in L.
      repeat split.
      * exact L.
      * intros Hlt. lia.
Qed.

Lemma parseOpf_chapters_cover_spine_witness :
  exists m,
    parseOpf Sample.cwd Sample.fs Sample.parseXml "/data/books/b4" "content.opf" = Ok m
    /\ length (m_spine m) <= length (m_chapters m).
Proof.
  destruct (parseOpf_chapters_cover_spine Sample.cwd Sample.fs Sample.parseXml
              "/data/books/b4" "content.opf" "/data/books/b4/content.opf"
              Sample.b4_opf Sample.b4_opf_json eq_refl eq_refl eq_refl)
    as (m & discovered & Hm & _ & _ & Hlen & _).
  - discriminate.
  - repeat constructor.
  - exists m. split; assumption.
Defined.

(** ** What the engine reads *)

Lemma safeJoin_accepts (cwd root rel abs : string) :
  safeJoin cwd root rel = Ok abs -> Str.startsWith abs root = true.
Proof.
  rewrite safeJoin_cases. unfold Str.startsWith.
  destruct (String.prefix root (Path.resolve cwd root rel)) eqn:E; [| discriminate].
  now intros [= <-].
Qed.

Lemma mapi_from_ext {A B : Type} (f g : nat -> A -> B) (l : list A) :
  (forall i a, f i a = g i a) -> forall k, mapi_from f k l = mapi_from g k l.
Proof.
  intros H. induction l as [|a l IH]; intros k; simpl; [reflexivity|].
  now rewrite H, IH.
Qed.

Section ReadsWithinRoot.

Variable cwd : string.
Variables fs fs' : filesystem.
Variable parseXml : string -> result json.
Variable bookRootAbs : string.
Hypothesis Hagree : agreeWithin bookRootAbs fs fs'.

Lemma readText_within (rel abs : string) :
  safeJoin cwd bookRootAbs rel = Ok abs -> readText fs' abs = readText fs abs.
Proof.
  intros J. unfold readText, readFile. now rewrite (Hagree _ (safeJoin_accepts _ _ _ _ J)).
Qed.

Lemma existsSync_within (rel abs : string) :
  safeJoin cwd bookRootAbs rel = Ok abs -> existsSync fs' abs = existsSync fs abs.
Proof.
  intros J. unfold existsSync. now rewrite (Hagree _ (safeJoin_accepts _ _ _ _ J)).
Qed.

Lemma legacyToc_within (opfDir : string) (opfJson : json)
    (manifestMap : JsMap.t ManifestItem) :
  legacyToc cwd fs' parseXml bookRootAbs opfDir opfJson manifestMap
  = legacyToc cwd fs parseXml bookRootAbs opfDir opfJson manifestMap.
Proof.
  unfold legacyToc.
  destruct (isString _) as [tocId|]; [| reflexivity].
  destruct (JsMap.get tocId manifestMap) as [ncx|]; [| reflexivity].
  destruct (Str.nonempty (item_href ncx)); [| reflexivity].
  destruct (safeJoin cwd bookRootAbs _) as [ncxAbs|e] eqn:J; [| reflexivity].
  cbn [bind]. now rewrite (existsSync_within _ _ J), (readText_within _ _ J).
Qed.

Lemma navDocument_within (opfDir : string) (manifestMap : JsMap.t ManifestItem) :
  navDocument cwd fs' bookRootAbs opfDir manifestMap
  = navDocument cwd fs bookRootAbs opfDir manifestMap.
Proof.
  unfold navDocument.
  destruct (firstWithProperty "nav" (JsMap.values manifestMap)) as [[v|]|e]; cbn [bind];
    try reflexivity.
  destruct (Str.nonempty (item_href v)); [| reflexivity].
  destruct (safeJoin cwd bookRootAbs _) as [navAbs|e] eqn:J; [| reflexivity].
  cbn [bind]. now rewrite (existsSync_within _ _ J), (readText_within _ _ J).
Qed.

Lemma scrapeSpine_within (spine : list string) :
  scrapeSpine cwd fs' bookRootAbs spine = scrapeSpine cwd fs bookRootAbs spine.
Proof.
  unfold scrapeSpine, mapi. apply mapi_from_ext. intros i h.
  destruct (safeJoin cwd bookRootAbs (Str.split0 "#" h)) as [abs|e] eqn:J; [| reflexivity].
  cbn [bind]. now rewrite (readText_within _ _ J).
Qed.

Lemma extractChapters_within (opfDir : string) (opfJson : json)
    (manifestMap : JsMap.t ManifestItem) (spine : list string) :
  extractChapters cwd fs' parseXml bookRootAbs opfDir opfJson manifestMap spine
  = extractChapters cwd fs parseXml bookRootAbs opfDir opfJson manifestMap spine.
Proof.
  unfold extractChapters.
  now rewrite legacyToc_within, navDocument_within, scrapeSpine_within.
Qed.

Lemma merge_within (spine : list string) (chapters : list Chapter) :
  mergeChaptersWithSpine cwd fs' bookRootAbs spine chapters
  = mergeChaptersWithSpine cwd fs bookRootAbs spine chapters.
Proof.
  unfold mergeChaptersWithSpine, mapi. apply mapi_from_ext. intros i h.
  destruct (safeJoin cwd bookRootAbs (Str.split0 "#" h)) as [abs|e] eqn:J; [| reflexivity].
  cbn [bind]. rewrite (existsSync_within _ _ J).
  pose proof (readText_within _ _ J) as R. unfold readText in R. now rewrite R.
Qed.

Lemma detectVertical_within (spine : list string) (opfRelPath : string) :
  detectVertical cwd fs' bookRootAbs spine opfRelPath
  = detectVertical cwd fs bookRootAbs spine opfRelPath.
Proof.
  unfold detectVertical.
  destruct spine as [|first rest]; [reflexivity|].
  destruct (negb (Str.nonempty first)); [reflexivity|].
  assert (H1 : forall (k : string -> result bool),
             (abs <- safeJoin cwd bookRootAbs (Str.split0 "#" first) ;;
              html <- readText fs' abs ;; k html)
             = (abs <- safeJoin cwd bookRootAbs (Str.split0 "#" first) ;;
                html <- readText fs abs ;; k html)).
  { intros k. destruct (safeJoin cwd bookRootAbs (Str.split0 "#" first)) as [abs|e] eqn:J;
      [| reflexivity].
    cbn [bind]. now rewrite (readText_within _ _ J). }
  rewrite H1.
  assert (H2 : (opfAbs <- safeJoin cwd bookRootAbs opfRelPath ;;
                if existsSync fs' opfAbs
                then opfXml <- readFile fs' opfAbs ;; Ok (Regex.test true Re.rtl opfXml)
                else Ok false)
               = (opfAbs <- safeJoin cwd bookRootAbs opfRelPath ;;
                  if existsSync fs opfAbs
                  then opfXml <- readFile fs opfAbs ;; Ok (Regex.test true Re.rtl opfXml)
                  else Ok false)).
  { destruct (safeJoin cwd bookRootAbs opfRelPath) as [opfAbs|e] eqn:J; [| reflexivity].
    cbn [bind]. rewrite (existsSync_within _ _ J).
    pose proof (readText_within _ _ J) as R. unfold readText in R. now rewrite R. }
  rewrite H2. reflexivity.
Qed.

Lemma extractCoverHref_within (opfDir : string) (opfJson : json)
    (manifestMap : JsMap.t ManifestItem) (spine : list string) :
  extractCoverHref cwd fs' bookRootAbs opfDir opfJson manifestMap spine
  = extractCoverHref cwd fs bookRootAbs opfDir opfJson manifestMap spine.
Proof.
  unfold extractCoverHref, firstImage.
  destruct spine as [|first rest]; [reflexivity|].
  destruct (safeJoin cwd bookRootAbs (Str.split0 "#" first)) as [abs|e] eqn:J;
    [| reflexivity].
  cbn [bind]. now rewrite (readText_within _ _ J).
Qed.

Lemma parseOpf_within (opfRelPath : string) :
  parseOpf cwd fs' parseXml bookRootAbs opfRelPath
  = parseOpf cwd fs parseXml bookRootAbs opfRelPath.
Proof.
  unfold parseOpf.
  destruct (safeJoin cwd bookRootAbs opfRelPath) as [opfAbs|e] eqn:J; [| reflexivity].
  cbn [bind]. rewrite (readText_within _ _ J).
  destruct (readText fs opfAbs) as [opfXml|e]; [| reflexivity].
  cbn [bind]. destruct (parseXml opfXml) as [json|e]; [| reflexivity].
  cbn [bind]. cbv zeta.
  destruct (Nat.eqb _ 0); [reflexivity|].
  rewrite extractChapters_within.
  destruct (extractChapters _ _ _ _ _ _ _ _) as [chapters0|e]; [| reflexivity].
  cbn [bind]. rewrite merge_within, extractCoverHref_within, detectVertical_within.
  reflexivity.
Qed.

End ReadsWithinRoot.

(** ** Hrefs of the manifest *)

(** C2, as stated, fails: the package [b2] names a document outside the
    package root; [parseOpf] stores its href in the spine and in the
    chapters, although [safeJoin] rejects it. *)
Lemma parseOpf_stores_unchecked_href :
  exists m,
    parseOpf Sample.cwd Sample.fs Sample.parseXml "/data/books/b2" "content.opf" = Ok m
    /\ m_spine m = ["../../../etc/passwd"]
    /\ map href (m_chapters m) = ["../../../etc/passwd"]
    /\ safeJoin Sample.cwd "/data/books/b2" "../../../etc/passwd" = Err PathTraversal.
Proof.
  eexists. split; [vm_compute; reflexivity|].
  repeat split.
Qed.

(** C2 (amended). The hrefs stored in the spine, in the chapters and as
    cover are not checked by [safeJoin]; they have their separators
    normalized: none has a backslash. Path-safety resolution is applied to
    the path of the package document, which has passed it, and to every
    path at which a document is read: the manifest depends on the file
    system only at paths [safeJoin] accepts for the package root. *)
Theorem manifest_paths_guarded_on_read (cwd : string) (fs : filesystem)
    (parseXml : string -> result json) (bookRootAbs opfRelPath : string)
    (m : BookManifest) :
  parseOpf cwd fs parseXml bookRootAbs opfRelPath = Ok m ->
  (exists opfAbs, safeJoin cwd bookRootAbs (m_opfPath m) = Ok opfAbs)
  /\ Forall noBackslash (m_spine m)
  /\ Forall (fun c => noBackslash (href c)) (m_chapters m)
  /\ (forall c, m_coverHref m = Some c -> noBackslash c)
  /\ (forall fs' : filesystem,
        agreeWithin bookRootAbs fs fs' ->
        parseOpf cwd fs' parseXml bookRootAbs opfRelPath = Ok m).
Proof.
  intros Hm.
  assert (Hreads : forall fs' : filesystem,
             agreeWithin bookRootAbs fs fs' ->
             parseOpf cwd fs' parseXml bookRootAbs opfRelPath = Ok m).
  { intros fs' Hagree. now rewrite (parseOpf_within cwd fs fs' parseXml bookRootAbs Hagree). }
  apply parseOpf_Ok_inv in Hm.
  destruct Hm as (opfAbs & opfXml & json & chapters0 & coverHref & vertical
                  & Hjoin & Hread & Hparse & Hspine & Hch & Hcov & Hvert & ->).
  cbn [m_opfPath m_spine m_chapters m_coverHref].
  assert (Hclean : Forall noBackslash (spineOfJson opfRelPath json)).
  { unfold spineOfJson. eapply Forall_impl; [| apply spineOf_entries]. cbv beta. tauto. }
  split; [eauto|]. split; [exact Hclean|]. split; [| split].
  - destruct (Nat.ltb _ _).
    + apply Forall_map_href. now rewrite merge_hrefs.
    + exact (extractChapters_clean _ _ _ _ _ _ _ _ _ Hclean Hch).
  - intros c ->. exact (extractCoverHref_clean _ _ _ _ _ _ _ _ Hcov).
  - exact Hreads.
Qed.

Lemma manifest_paths_guarded_on_read_witness :
  parseOpf Sample.cwd
    (fun p => if String.eqb p "/etc/passwd" then Some (File "<title>secret</title>")
              else Sample.fs p)
    Sample.parseXml "/data/books/b2" "content.opf"
  = Ok (mkManifest "Untitled" "content.opf" ["../../../etc/passwd"]
          [mkChapter "passwd" "../../../etc/passwd"] None false).
Proof.
  refine (proj2 (proj2 (proj2 (proj2
            (manifest_paths_guarded_on_read Sample.cwd Sample.fs Sample.parseXml
               "/data/books/b2" "content.opf" _ _)))) _ _).
  - vm_compute. reflexivity.
  - intros p Hp.
    destruct (String.eqb p "/etc/passwd") eqn:E; [| reflexivity].
    apply String.eqb_eq in E. subst p. discriminate Hp.
Defined.

(** ** The title *)

Lemma titleOf_absent (doc : json) :
  nullish (get (get (get doc "package") "metadata") "dc:title") = true ->
  nullish (get (get (get doc "package") "metadata") "title") = true ->
  titleOf doc = "Untitled".
Proof. unfold titleOf, coalesce. now intros -> ->. Qed.

Lemma titleOf_text (doc : json) (c : ascii) (s : string) :
  get (get (get doc "package") "metadata") "dc:title" = JStr (String c s) ->
  titleOf doc = String c s.
Proof. unfold titleOf, coalesce. now intros ->. Qed.

Lemma titleOf_first_of_array (doc : json) (c : ascii) (s : string) (more : list json) :
  get (get (get doc "package") "metadata") "dc:title" = JArr (JStr (String c s) :: more) ->
  titleOf doc = String c s.
Proof. unfold titleOf, coalesce. now intros ->. Qed.

Lemma titleOf_text_with_attributes (doc : json) (c : ascii) (s : string) :
  get (get (get doc "package") "metadata") "dc:title"
  = JObj [("#text", JStr (String c s)); ("@_id", JStr "title")] ->
  titleOf doc = String c s.
Proof. unfold titleOf, coalesce. now intros ->. Qed.

(** A title element that has an attribute and no text is an object
    without text key: the title is [Untitled]. *)
Lemma titleOf_attributes_only (doc : json) :
  get (get (get doc "package") "metadata") "dc:title" = JObj [("@_id", JStr "title")] ->
  titleOf doc = "Untitled".
Proof. unfold titleOf, coalesce. now intros ->. Qed.

(** C4. The package [b3] has a title element whose text is empty: the
    manifest [parseOpf] returns has the empty title, not [Untitled]. *)
Theorem parseOpf_empty_title :
  exists m,
    parseOpf Sample.cwd Sample.fs Sample.parseXml "/data/books/b3" "content.opf" = Ok m
    /\ get (get (get Sample.b3_opf_json "package") "metadata") "dc:title" = JStr EmptyString
    /\ m_title m = EmptyString
    /\ m_title m <> "Untitled".
Proof.
  eexists. split; [vm_compute; reflexivity|].
  repeat split. discriminate.
Qed.

(** ** The cover *)

(** C8, as stated, fails: in the document of [b5] a vector image comes
    before a raster image; the cover is the raster image, which is not the
    first image reference in document order. *)
Lemma cover_fallback_prefers_img :
  extractCoverHref Sample.cwd Sample.fs "/data/books/b5" EmptyString (JObj [])
    JsMap.empty ["ch.xhtml"]
  = Ok (Some "b.png")
  /\ firstImageInDocumentOrder Sample.b5_ch = Some "a.svg".
Proof. split; vm_compute; reflexivity. Qed.

Lemma firstImage_read (cwd : string) (fs : filesystem) (bookRootAbs opfDir first : string)
    (rest : list string) (abs html : string) :
  safeJoin cwd bookRootAbs (Str.split0 "#" first) = Ok abs ->
  readText fs abs = Ok html ->
  firstImage cwd fs bookRootAbs opfDir (first :: rest)
  = match imgThenImage html with
    | Some (String c s) => Some (normalizeHref opfDir (String c s))
    | _ => None
    end.
Proof.
  intros J R. unfold firstImage, imgThenImage. rewrite J. cbn [bind]. rewrite R.
  cbn [bind try_catch].
  destruct (Regex.exec true Re.img html) as [m|]; [reflexivity|].
  destruct (Regex.exec true Re.image html) as [m|]; reflexivity.
Qed.

(** *** Property tokens *)

Lemma star_greedy_spaces (g : Regex.captures) (s : string) :
  forall prev : option ascii,
    Regex.star_greedy (string * Regex.captures) Regex.space
      (fun _ s' g' => Some (s', g')) g prev s
    = Some (trimStart s, g).
Proof.
  induction s as [|c s IH]; intros prev; simpl; [reflexivity|].
  destruct (Regex.space c); [| reflexivity].
  now rewrite IH.
Qed.

Lemma match_at_spaces (prev : option ascii) (c : ascii) (s : string) :
  Regex.match_at false Re.spaces prev (String c s)
  = if Regex.space c then Some (trimStart s, []) else None.
Proof.
  unfold Regex.match_at, Re.spaces, Regex.Plus. cbn [Regex.run].
  destruct (Regex.space c); [| reflexivity].
  apply star_greedy_spaces.
Qed.

Lemma trimStart_length (s : string) :
  String.length (trimStart s) + leadingSpaces s = String.length s.
Proof.
  induction s as [|c s IH]; simpl; [reflexivity|].
  destruct (Regex.space c); simpl; lia.
Qed.

(** Cutting a text at its runs of white space, as the scan does it. *)
Lemma split_spaces (s : string) :
  (forall prev,
      Regex.split_pieces (Regex.scan false Re.spaces prev s (leadingSpaces s))
      = spaceSplit true s)
  /\ (forall prev,
        Regex.split_pieces (Regex.scan false Re.spaces prev s 0)
        = spaceSplit false s).
Proof.
  induction s as [|c s [IHrun IHout]].
  - split; intros prev; reflexivity.
  - assert (Hout : forall prev,
               Regex.split_pieces (Regex.scan false Re.spaces prev (String c s) 0)
               = spaceSplit false (String c s)).
    { intros prev. cbn [Regex.scan]. rewrite match_at_spaces.
      cbn [spaceSplit]. destruct (Regex.space c).
      - pose proof (trimStart_length s) as Hlen.
        replace (String.length (String c s) - String.length (trimStart s))
          with (S (leadingSpaces s)) by (cbn [String.length]; lia).
        cbn [Regex.split_pieces]. rewrite IHrun. reflexivity.
      - cbn [Regex.split_pieces]. now rewrite IHout. }
    split; [| exact Hout].
    intros prev. cbn [leadingSpaces].
    destruct (Regex.space c) eqn:E.
    + cbn [Regex.scan spaceSplit]. rewrite E. apply IHrun.
    + rewrite Hout. cbn [spaceSplit]. now rewrite E.
Qed.

Lemma spaceSplit_token (t r : string) :
  forallb (fun c => negb (Regex.space c)) (list_ascii_of_string t) = true ->
  forall b : bool,
    spaceSplit b (t ++ r)
    = match t with
      | EmptyString => spaceSplit b r
      | String _ _ =>
          match spaceSplit false r with
          | [] => [t]
          | h :: tl => (t ++ h) :: tl
          end
      end.
Proof.
  induction t as [|c t IH]; intros Ht b; [reflexivity|].
  cbn [list_ascii_of_string forallb] in Ht. apply andb_prop in Ht.
  destruct Ht as [Hc Ht]. apply negb_true_iff in Hc.
  cbn [append spaceSplit]. rewrite Hc, (IH Ht false).
  destruct t as [|d t]; destruct (spaceSplit false r); reflexivity.
Qed.

Lemma spaceSplit_run (sep r : string) :
  forallb Regex.space (list_ascii_of_string sep) = true ->
  spaceSplit true (sep ++ r) = spaceSplit true r.
Proof.
  induction sep as [|c sep IH]; intros H; [reflexivity|].
  cbn [list_ascii_of_string forallb] in H. apply andb_prop in H. destruct H as [Hc H].
  cbn [append spaceSplit]. rewrite Hc. now apply IH.
Qed.

Lemma spaceSplit_separator (sep r : string) :
  isSeparator sep = true ->
  spaceSplit false (sep ++ r) = EmptyString :: spaceSplit true r.
Proof.
  unfold isSeparator. intros H. apply andb_prop in H. destruct H as [Hne H].
  destruct sep as [|c sep]; [discriminate|].
  cbn [list_ascii_of_string forallb] in H. apply andb_prop in H. destruct H as [Hc H].
  cbn [append spaceSplit]. rewrite Hc. now rewrite spaceSplit_run.
Qed.

Lemma spaceSplit_spaced (more : list (string * string)) :
  forall (first : string) (b : bool),
    tokenList first more = true ->
    spaceSplit b (spaced first more) = first :: map snd more.
Proof.
  induction more as [|[sep tok] more IH]; intros first b H;
    unfold tokenList in H; apply andb_prop in H; destruct H as [Hfirst H];
    unfold isToken in Hfirst; apply andb_prop in Hfirst; destruct Hfirst as [Hne Hchars].
  - cbn [spaced map]. rewrite <- (string_app_nil_r first) at 1.
    rewrite (spaceSplit_token first "" Hchars).
    destruct first as [|c first]; [discriminate|].
    cbn [spaceSplit]. now rewrite string_app_nil_r.
  - cbn [forallb fst snd] in H. apply andb_prop in H. destruct H as [H Hmore].
    apply andb_prop in H. destruct H as [Hsep Htok].
    cbn [spaced map snd]. rewrite (spaceSplit_token first _ Hchars).
    destruct first as [|c first]; [discriminate|].
    rewrite (spaceSplit_separator sep _ Hsep), (IH tok true).
    + now rewrite string_app_nil_r.
    + unfold tokenList. now rewrite Htok, Hmore.
Qed.

Lemma split_spaced (first : string) (more : list (string * string)) :
  tokenList first more = true ->
  Regex.split false Re.spaces (spaced first more) = first :: map snd more.
Proof.
  intros H. unfold Regex.split. rewrite (proj2 (split_spaces _)).
  now apply spaceSplit_spaced.
Qed.

Lemma spaced_nonempty (first : string) (more : list (string * string)) :
  tokenList first more = true -> Str.nonempty (spaced first more) = true.
Proof.
  unfold tokenList, isToken. intros H.
  apply andb_prop in H. destruct H as [H _]. apply andb_prop in H. destruct H as [H _].
  destruct first; [discriminate|]. destruct more as [|[sep tok] more]; reflexivity.
Qed.

Lemma hasProperty_declares (token : string) (properties : json) :
  declares token properties -> hasProperty token properties = Ok true.
Proof.
  intros (first & more & -> & Hlist & Hin). cbn [hasProperty].
  rewrite (split_spaced _ _ Hlist), (spaced_nonempty _ _ Hlist). cbn [andb].
  f_equal. apply existsb_exists. exists token. split; [exact Hin | apply String.eqb_refl].
Qed.

Lemma hasProperty_declaresNot (token : string) (properties : json) :
  declaresNot token properties -> hasProperty token properties = Ok false.
Proof.
  intros [Hfalsy | (first & more & -> & Hlist & Hnot)].
  - destruct properties as [| |b|z|s|l|o]; cbn [hasProperty truthy] in *;
      rewrite ?Hfalsy; try reflexivity; discriminate Hfalsy.
  - cbn [hasProperty].
    rewrite (split_spaced _ _ Hlist), (spaced_nonempty _ _ Hlist). cbn [andb].
    f_equal. destruct (existsb _ _) eqn:E; [| reflexivity].
    exfalso. apply existsb_exists in E. destruct E as (x & Hin & Hx).
    apply String.eqb_eq in Hx. subst x. exact (Hnot Hin).
Qed.

Lemma firstWithProperty_found (token : string) (before : list ManifestItem)
    (v : ManifestItem) (after : list ManifestItem) :
  Forall (fun u => declaresNot token (item_properties u)) before ->
  declares token (item_properties v) ->
  firstWithProperty token (before ++ v :: after) = Ok (Some v).
Proof.
  intros Hbefore Hv. induction Hbefore as [|u before Hu _ IH]; cbn [app firstWithProperty].
  - now rewrite (hasProperty_declares _ _ Hv).
  - now rewrite (hasProperty_declaresNot _ _ Hu).
Qed.

Lemma firstWithProperty_none (token : string) (vals : list ManifestItem) :
  Forall (fun u => declaresNot token (item_properties u)) vals ->
  firstWithProperty token vals = Ok None.
Proof.
  induction 1 as [|u vals Hu _ IH]; cbn [firstWithProperty]; [reflexivity|].
  now rewrite (hasProperty_declaresNot _ _ Hu).
Qed.

Lemma normalizeHref_segments (dirSegs : list string) (src : string) :
  Forall (fun s => plainSegment s = true) dirSegs ->
  normalizeHref (Str.join "/" dirSegs) src
  = withSlashes (Str.join "/" (dirSegs ++ [src])).
Proof.
  intros Hdir. unfold normalizeHref.
  now rewrite replaceAll_withSlashes, (underOpfDir_segments dirSegs src Hdir).
Qed.

(** The fallback joins the image reference under the directory of the
    package document also when the document that holds the reference lies
    in another directory: in package [b1] the document
    [OEBPS/text/ch1.xhtml] refers to [../images/cover.png], which is
    [OEBPS/images/cover.png], and the cover href names
    [images/cover.png]. *)
Remark cover_reference_of_document_in_subdirectory :
  extractCoverHref Sample.cwd Sample.fs "/data/books/b1" "OEBPS" Sample.b1_opf_json
    (manifestMapOfJson Sample.b1_opf_json) ["OEBPS/text/ch1.xhtml"]
  = Ok (Some "OEBPS/../images/cover.png")
  /\ Path.resolve Sample.cwd "/data/books/b1" "OEBPS/../images/cover.png"
     = "/data/books/b1/images/cover.png"
  /\ Path.resolve Sample.cwd "/data/books/b1/OEBPS/text" "../images/cover.png"
     = "/data/books/b1/OEBPS/images/cover.png".
Proof. repeat split; vm_compute; reflexivity. Qed.

(** C8 (amended). The cover is, in this order: the href of the manifest
    item that the metadata entry named [cover] names; the href of the first
    manifest item, in the order of the manifest table, whose properties
    are a list of tokens with [cover-image] among them; the [src] of the
    first [img] tag of the first spine document or, when that document has
    no [img] with [src], the [xlink:href] or [href] of its first [image]
    tag. An href of the manifest is put under the directory of the package
    document. For a first spine document that lies in the directory of the
    package document, the image reference is put in that directory, with
    every backslash turned into a slash. When no tier yields a reference,
    the result is absent, not an error. *)
Theorem extractCoverHref_tiers (cwd : string) (fs : filesystem)
    (bookRootAbs opfDir : string) (opfJson : json) (manifestMap : JsMap.t ManifestItem)
    (spine : list string) :
  (forall item : ManifestItem,
      coverItemOfMetadata opfJson manifestMap = Some item ->
      extractCoverHref cwd fs bookRootAbs opfDir opfJson manifestMap spine
      = Ok (Some (normalizeHref opfDir (item_href item))))
  /\ (forall v : ManifestItem,
        coverItemOfMetadata opfJson manifestMap = None ->
        firstWithProperty "cover-image" (JsMap.values manifestMap) = Ok (Some v) ->
        extractCoverHref cwd fs bookRootAbs opfDir opfJson manifestMap spine
        = Ok (Some (normalizeHref opfDir (item_href v))))
  /\ (forall (before : list ManifestItem) (v : ManifestItem) (after : list ManifestItem),
        coverItemOfMetadata opfJson manifestMap = None ->
        JsMap.values manifestMap = (before ++ v :: after)%list ->
        Forall (fun u => declaresNot "cover-image" (item_properties u)) before ->
        declares "cover-image" (item_properties v) ->
        extractCoverHref cwd fs bookRootAbs opfDir opfJson manifestMap spine
        = Ok (Some (normalizeHref opfDir (item_href v))))
  /\ (Forall (fun u => declaresNot "cover-image" (item_properties u))
             (JsMap.values manifestMap) ->
      firstWithProperty "cover-image" (JsMap.values manifestMap) = Ok None)
  /\ (forall (first : string) (rest : list string) (abs html : string)
             (dirSegs : list string) (docName : string),
        coverItemOfMetadata opfJson manifestMap = None ->
        firstWithProperty "cover-image" (JsMap.values manifestMap) = Ok None ->
        spine = first :: rest ->
        Forall (fun s => plainSegment s = true) dirSegs ->
        plainSegment docName = true ->
        opfDir = Str.join "/" dirSegs ->
        Str.split0 "#" first = Str.join "/" (dirSegs ++ [docName]) ->
        safeJoin cwd bookRootAbs (Str.split0 "#" first) = Ok abs ->
        readText fs abs = Ok html ->
        extractCoverHref cwd fs bookRootAbs opfDir opfJson manifestMap spine
        = Ok match imgThenImage html with
             | Some (String c s) =>
                 Some (withSlashes (Str.join "/" (dirSegs ++ [String c s])))
             | _ => None
             end)
  /\ (coverItemOfMetadata opfJson manifestMap = None ->
      firstWithProperty "cover-image" (JsMap.values manifestMap) = Ok None ->
      (spine = []
       \/ (exists (first : string) (rest : list string),
              spine = first :: rest
              /\ (forall abs html : string,
                     safeJoin cwd bookRootAbs (Str.split0 "#" first) = Ok abs ->
                     readText fs abs = Ok html ->
                     imgThenImage html = None))) ->
      extractCoverHref cwd fs bookRootAbs opfDir opfJson manifestMap spine = Ok None).
Proof.
  assert (Htier1 : forall r,
             extractCoverHref cwd fs bookRootAbs opfDir opfJson manifestMap spine = r ->
             match coverItemOfMetadata opfJson manifestMap with
             | Some item => r = Ok (Some (normalizeHref opfDir (item_href item)))
             | None =>
                 r = (found <- firstWithProperty "cover-image" (JsMap.values manifestMap) ;;
                      match found with
                      | Some v => Ok (Some (normalizeHref opfDir (item_href v)))
                      | None => Ok (firstImage cwd fs bookRootAbs opfDir spine)
                      end)
             end).
  { intros r <-. unfold extractCoverHref, coverItemOfMetadata. cbv zeta.
    destruct (findCoverIdFromMetadata _) as [coverId|]; [| reflexivity].
    destruct (JsMap.get coverId manifestMap) as [item|]; [| reflexivity].
    destruct (Str.nonempty (item_href item)); reflexivity. }
  specialize (Htier1 _ eq_refl).
  split; [| split; [| split; [| split; [| split]]]].
  - intros item Hitem. now rewrite Hitem in Htier1.
  - intros v Hnone Hv. rewrite Hnone, Hv in Htier1. exact Htier1.
  - intros before v after Hnone Hvals Hbefore Hv.
    rewrite Hnone, Hvals, (firstWithProperty_found _ _ _ after Hbefore Hv) in Htier1.
    exact Htier1.
  - apply firstWithProperty_none.
  - intros first rest abs html dirSegs docName Hnone Hprop -> Hdir _ -> _ J R.
    rewrite Hnone, Hprop in Htier1. cbn [bind] in Htier1.
    rewrite (firstImage_read cwd fs bookRootAbs _ first rest abs html J R) in Htier1.
    rewrite Htier1. f_equal.
    destruct (imgThenImage html) as [[|c s]|]; [reflexivity | | reflexivity].
    now rewrite (normalizeHref_segments dirSegs _ Hdir).
  - intros Hnone Hprop Hnothing.
    rewrite Hnone, Hprop in Htier1. cbn [bind] in Htier1. rewrite Htier1. f_equal.
    destruct Hnothing as [-> | (first & rest & -> & Hdoc)]; [reflexivity|].
    destruct (safeJoin cwd bookRootAbs (Str.split0 "#" first)) as [abs|e] eqn:J.
    + destruct (readText fs abs) as [html|e] eqn:R.
      * rewrite (firstImage_read cwd fs bookRootAbs opfDir first rest abs html J R).
        now rewrite (Hdoc abs html eq_refl R).
      * unfold firstImage. rewrite J. cbn [bind]. rewrite R. reflexivity.
    + unfold firstImage. rewrite J. reflexivity.
Qed.

Lemma extractCoverHref_tiers_witness :
  extractCoverHref Sample.cwd Sample.fs "/data/books/b4" EmptyString Sample.b4_opf_json
    (manifestMapOfJson Sample.b4_opf_json) ["c1.xhtml"; "c2.xhtml"]
  = Ok (Some "img/cover.jpg")
  /\ extractCoverHref Sample.cwd Sample.fs "/data/books/b13" "EPUB" Sample.b13_opf_json
       (manifestMapOfJson Sample.b13_opf_json) ["EPUB/c1.xhtml"]
     = Ok (Some "EPUB/art/front.svg")
  /\ extractCoverHref Sample.cwd Sample.fs "/data/books/b13" "EPUB" (JObj [])
       JsMap.empty ["EPUB/c1.xhtml#top"]
     = Ok (Some "EPUB/art/plate.png")
  /\ extractCoverHref Sample.cwd Sample.fs "/data/books/b6" EmptyString (JObj [])
       JsMap.empty ["ch.xhtml#top"]
     = Ok (Some "images/front.jpg")
  /\ extractCoverHref Sample.cwd Sample.fs "/data/books/b6" EmptyString (JObj [])
       JsMap.empty ["gone.xhtml"]
     = Ok None.
Proof.
  split; [| split; [| split; [| split]]].
  - exact (proj1 (extractCoverHref_tiers Sample.cwd Sample.fs "/data/books/b4" EmptyString
                    Sample.b4_opf_json (manifestMapOfJson Sample.b4_opf_json)
                    ["c1.xhtml"; "c2.xhtml"])
             (mkItem "img\cover.jpg" JUndefined JUndefined) eq_refl).
  - apply (proj1 (proj2 (proj2
             (extractCoverHref_tiers Sample.cwd Sample.fs "/data/books/b13" "EPUB"
                Sample.b13_opf_json (manifestMapOfJson Sample.b13_opf_json)
                ["EPUB/c1.xhtml"])))
             [mkItem "nav.xhtml" (JStr "nav scripted") JUndefined]
             (mkItem "art\front.svg" (JStr "svg  cover-image") JUndefined)
             [mkItem "c1.xhtml" JUndefined JUndefined]).
    + reflexivity.
    + reflexivity.
    + constructor; [| constructor]. right. exists "nav", [(" ", "scripted")].
      split; [reflexivity|]. split; [reflexivity|].
      intros [H | [H | []]]; discriminate H.
    + exists "svg", [("  ", "cover-image")].
      split; [reflexivity|]. split; [reflexivity|]. right. now left.
  - exact (proj1 (proj2 (proj2 (proj2 (proj2
             (extractCoverHref_tiers Sample.cwd Sample.fs "/data/books/b13" "EPUB"
                (JObj []) JsMap.empty ["EPUB/c1.xhtml#top"])))))
             "EPUB/c1.xhtml#top" [] "/data/books/b13/EPUB/c1.xhtml" Sample.b13_c1
             ["EPUB"] "c1.xhtml"
             eq_refl eq_refl eq_refl (Forall_cons "EPUB" eq_refl (Forall_nil _))
             eq_refl eq_refl eq_refl eq_refl eq_refl).
  - exact (proj1 (proj2 (proj2 (proj2 (proj2
             (extractCoverHref_tiers Sample.cwd Sample.fs "/data/books/b6" EmptyString
                (JObj []) JsMap.empty ["ch.xhtml#top"])))))
             "ch.xhtml#top" [] "/data/books/b6/ch.xhtml" Sample.b6_ch
             [] "ch.xhtml"
             eq_refl eq_refl eq_refl (Forall_nil _)
             eq_refl eq_refl eq_refl eq_refl eq_refl).
  - apply (proj2 (proj2 (proj2 (proj2 (proj2
             (extractCoverHref_tiers Sample.cwd Sample.fs "/data/books/b6" EmptyString
                (JObj []) JsMap.empty ["gone.xhtml"])))))); try reflexivity.
    right. exists "gone.xhtml", []. split; [reflexivity|].
    intros abs html J R. injection J as <-. discriminate R.
Defined.

(** * Further properties of the engine *)

(** ** Paths returned by [safeJoin] *)

Lemma split_without_separator (sep : ascii) (s : string) :
  Forall (fun seg => Str.contains sep seg = false) (Str.split sep s).
Proof.
  induction s as [|c s IH]; simpl.
  - constructor; [reflexivity | constructor].
  - destruct (Ascii.eqb c sep) eqn:E.
    + constructor; [reflexivity | exact IH].
    + destruct (Str.split sep s) as [|h t]; simpl.
      * constructor; [| constructor]. simpl. now rewrite E.
      * inversion IH as [|? ? Hh Ht]; subst.
        constructor; [| exact Ht]. simpl. now rewrite E, Hh.
Qed.

Lemma norm_step_keeps_plain (stack : list string) (seg : string) :
  Str.contains Path.slash seg = false ->
  Forall (fun s => plainSegment s = true) stack ->
  Forall (fun s => plainSegment s = true) (Path.norm_step stack seg).
Proof.
  intros Hseg Hstack. unfold Path.norm_step.
  destruct (String.eqb seg "") eqn:E1; [exact Hstack|].
  destruct (String.eqb seg ".") eqn:E2; [exact Hstack|].
  destruct (String.eqb seg "..") eqn:E3.
  - destruct stack; [constructor | now inversion Hstack].
  - constructor; [| exact Hstack].
    unfold plainSegment. rewrite Hseg, E2, E3.
    destruct seg; [discriminate E1 | reflexivity].
Qed.

Lemma normalize_segments_plain (segs : list string) :
  Forall (fun seg => Str.contains Path.slash seg = false) segs ->
  Forall (fun s => plainSegment s = true) (Path.normalize_segments segs).
Proof.
  intros H. unfold Path.normalize_segments. apply Forall_rev.
  assert (G : forall stack,
             Forall (fun s => plainSegment s = true) stack ->
             Forall (fun s => plainSegment s = true) (fold_left Path.norm_step segs stack)).
  { induction H as [|seg segs Hseg _ IH]; intros stack Hstack; simpl; [exact Hstack|].
    apply IH. now apply norm_step_keeps_plain. }
  apply G. constructor.
Qed.

(** [path.resolve] returns an absolute path in normal form. *)
Lemma resolve_normal_form (cwd a b : string) :
  exists segs,
    Path.resolve cwd a b = absolutePath segs
    /\ Forall (fun s => plainSegment s = true) segs.
Proof.
  unfold Path.resolve, absolutePath.
  eexists. split; [reflexivity|].
  apply normalize_segments_plain. apply split_without_separator.
Qed.

(** The segments of an absolute path in normal form followed by a slash. *)
Lemma split_absolutePath_slash (segs : list string) :
  Forall (fun s => plainSegment s = true) segs ->
  Path.normalize_segments
    (Str.split Path.slash (absolutePath segs ++ String Path.slash EmptyString))
  = segs.
Proof.
  intros H. destruct segs as [|s segs].
  - reflexivity.
  - rewrite split_absolutePath; [| discriminate | exact H].
    unfold Path.normalize_segments. cbn [fold_left Str.split].
    rewrite fold_left_app.
    change (Path.norm_step [] EmptyString) with (@nil string).
    rewrite (fold_norm_plain _ _ H). cbn [fold_left].
    change (Path.norm_step (rev (s :: segs) ++ []) EmptyString)
      with (rev (s :: segs) ++ [])%list.
    now rewrite app_nil_r, rev_involutive.
Qed.

(** Resolving an absolute path in normal form gives it back: the base is
    ignored. *)
Lemma resolve_absolute (cwd base : string) (segs : list string) :
  Forall (fun s => plainSegment s = true) segs ->
  Path.resolve cwd base (absolutePath segs) = absolutePath segs.
Proof.
  intros H. unfold Path.resolve.
  change (Path.resolve_concat [absolutePath segs; base; cwd] EmptyString)
    with (absolutePath segs ++ String Path.slash EmptyString).
  now rewrite split_absolutePath_slash.
Qed.

(** X1. A path [safeJoin] returns is absolute and in normal form: it is
    made of a slash and segments separated by single slashes, none of
    which is empty, [.] or [..]. *)
Theorem safeJoin_returns_normal_form (cwd root rel p : string) :
  safeJoin cwd root rel = Ok p ->
  exists segs,
    p = absolutePath segs
    /\ Forall (fun s => plainSegment s = true) segs
    /\ Str.startsWith p root = true.
Proof.
  intros H.
  pose proof (safeJoin_accepts _ _ _ _ H) as Hstart.
  apply safeJoin_Ok_resolve in H. subst p.
  destruct (resolve_normal_form cwd root rel) as (segs & Heq & Hplain).
  exists segs. auto.
Qed.

Lemma safeJoin_returns_normal_form_witness :
  exists segs,
    "/data/books/b1/x.html" = absolutePath segs
    /\ Forall (fun s => plainSegment s = true) segs
    /\ Str.startsWith "/data/books/b1/x.html" "/data/books/b1" = true.
Proof.
  apply (safeJoin_returns_normal_form "/srv" "/data/books/b1" "OEBPS/.././/x.html").
  reflexivity.
Defined.

(** X2. An absolute relative-path argument makes [safeJoin] ignore the
    root: for a path in normal form the result is that path when it starts
    with the root, and the path-traversal error otherwise. *)
Theorem safeJoin_absolute_argument (cwd root : string) (segs : list string) :
  Forall (fun s => plainSegment s = true) segs ->
  safeJoin cwd root (absolutePath segs)
  = if Str.startsWith (absolutePath segs) root then Ok (absolutePath segs)
    else Err PathTraversal.
Proof.
  intros H. rewrite safeJoin_cases, (resolve_absolute cwd root segs H).
  reflexivity.
Qed.

Lemma safeJoin_absolute_argument_witness :
  safeJoin "/srv" "/data/books/b1" "/etc/passwd" = Err PathTraversal
  /\ safeJoin "/srv" "/data/books/b1" "/data/books/b1/a.html" = Ok "/data/books/b1/a.html".
Proof.
  split.
  - apply (safeJoin_absolute_argument "/srv" "/data/books/b1" ["etc"; "passwd"]).
    repeat constructor.
  - apply (safeJoin_absolute_argument "/srv" "/data/books/b1" ["data"; "books"; "b1"; "a.html"]).
    repeat constructor.
Defined.

(** X3. [safeJoin] is idempotent: a path it has returned for a root is
    returned unchanged when it is joined to that root again. *)
Theorem safeJoin_idempotent (cwd root rel p : string) :
  safeJoin cwd root rel = Ok p -> safeJoin cwd root p = Ok p.
Proof.
  intros H.
  pose proof (safeJoin_accepts _ _ _ _ H) as Hstart.
  apply safeJoin_Ok_resolve in H.
  destruct (resolve_normal_form cwd root rel) as (segs & Heq & Hplain).
  assert (Hp : p = absolutePath segs) by congruence.
  clear H Heq. subst p.
  rewrite safeJoin_cases, (resolve_absolute cwd root segs Hplain).
  unfold Str.startsWith in Hstart. now rewrite Hstart.
Qed.

Lemma safeJoin_idempotent_witness :
  safeJoin "/srv" "/data/books/b1" "/data/books/b1/OEBPS/ch1.xhtml"
  = Ok "/data/books/b1/OEBPS/ch1.xhtml".
Proof.
  apply (safeJoin_idempotent "/srv" "/data/books/b1" "OEBPS/text/../ch1.xhtml").
  reflexivity.
Defined.

(** ** The manifest table *)

Lemma manifestMapOf_as_entries (itemsArr : list json) :
  forall m : JsMap.t ManifestItem,
    fold_left
      (fun manifestMap it =>
         match isString (get it "@_id"), isString (get it "@_href") with
         | Some id, Some href =>
             JsMap.set id (mkItem href (get it "@_properties") (get it "@_media-type"))
               manifestMap
         | _, _ => manifestMap
         end)
      itemsArr m
    = fold_left (fun manifestMap kv => JsMap.set (fst kv) (snd kv) manifestMap)
        (filterMap manifestEntry itemsArr) m.
Proof.
  induction itemsArr as [|it items IH]; intros m; [reflexivity|].
  cbn [fold_left filterMap].
  assert (Hentry : manifestEntry it
                   = match isString (get it "@_id"), isString (get it "@_href") with
                     | Some id, Some href0 =>
                         Some (id, mkItem href0 (get it "@_properties")
                                     (get it "@_media-type"))
                     | _, _ => None
                     end) by reflexivity.
  rewrite Hentry. clear Hentry.
  destruct (isString (get it "@_id")) as [id|]; [| apply IH].
  destruct (isString (get it "@_href")) as [href0|]; [| apply IH].
  cbn [fold_left fst snd]. apply IH.
Qed.

Lemma JsMap_keys_set {V : Type} (k : string) (v : V) (m : JsMap.t V) :
  map fst (JsMap.set k v m)
  = if in_dec string_dec k (map fst m) then map fst m else (map fst m ++ [k])%list.
Proof.
  induction m as [|[k' v'] m IH]; simpl; [reflexivity|].
  destruct (String.eqb k' k) eqn:E.
  - apply String.eqb_eq in E. subst k'. simpl.
    destruct (string_dec k k) as [e|n]; [reflexivity | contradiction].
  - apply String.eqb_neq in E. simpl. rewrite IH.
    destruct (string_dec k' k) as [e|ne]; [contradiction|].
    destruct (in_dec string_dec k (map fst m)); reflexivity.
Qed.

Lemma entries_get_last {V : Type} (id : string) (entries : list (string * V)) :
  forall m : JsMap.t V,
    JsMap.get id (fold_left (fun acc kv => JsMap.set (fst kv) (snd kv) acc) entries m)
    = match find (fun kv => String.eqb (fst kv) id) (rev entries) with
      | Some kv => Some (snd kv)
      | None => JsMap.get id m
      end.
Proof.
  induction entries as [|[k v] entries IH] using rev_ind; intros m; [reflexivity|].
  rewrite fold_left_app, rev_app_distr. cbn [fold_left rev app find fst snd].
  destruct (String.eqb k id) eqn:E.
  - apply String.eqb_eq in E. subst k. apply JsMap_get_set_same.
  - apply String.eqb_neq in E. rewrite JsMap_get_set_other by exact E. apply IH.
Qed.

Lemma entries_keys {V : Type} (entries : list (string * V)) :
  map fst (fold_left (fun acc kv => JsMap.set (fst kv) (snd kv) acc) entries [])
  = firstOccurrences (map fst entries).
Proof.
  unfold firstOccurrences.
  induction entries as [|[k v] entries IH] using rev_ind; [reflexivity|].
  rewrite fold_left_app. cbn [fold_left fst snd].
  rewrite JsMap_keys_set, IH, map_app, rev_app_distr. cbn [map rev app fst nodup].
  destruct (in_dec string_dec k (rev (nodup string_dec (rev (map fst entries)))))
    as [Hin | Hnin];
    destruct (in_dec string_dec k (rev (map fst entries))) as [Hin' | Hnin'].
  - reflexivity.
  - exfalso. apply Hnin'. rewrite <- in_rev in Hin. now apply nodup_In in Hin.
  - exfalso. apply Hnin. rewrite <- in_rev. now apply nodup_In.
  - reflexivity.
Qed.

(** X4. The manifest table is last-write-wins: looking up an id gives the
    entry of the last item element declared with that id (among those that
    have an id and an href), and nothing when there is none. *)
Theorem manifestMap_last_write_wins (itemsArr : list json) (id : string) :
  JsMap.get id (manifestMapOf itemsArr) = lastDeclared id itemsArr.
Proof.
  unfold manifestMapOf, lastDeclared.
  rewrite manifestMapOf_as_entries, entries_get_last.
  destruct (find _ _); reflexivity.
Qed.

(** X5. The manifest table holds every declared id once, in the order of
    its first declaration: this is the order in which the navigation
    document and the cover image are searched. *)
Theorem manifestMap_keys_first_declared (itemsArr : list json) :
  map fst (manifestMapOf itemsArr)
  = firstOccurrences (map fst (filterMap manifestEntry itemsArr))
  /\ NoDup (map fst (manifestMapOf itemsArr)).
Proof.
  assert (H : map fst (manifestMapOf itemsArr)
              = firstOccurrences (map fst (filterMap manifestEntry itemsArr))).
  { unfold manifestMapOf. rewrite manifestMapOf_as_entries. apply entries_keys. }
  split; [exact H|].
  rewrite H. unfold firstOccurrences. apply NoDup_rev. apply NoDup_nodup.
Qed.

(** ** Invariants of a returned manifest *)

Lemma walk_Forall (Q : Chapter -> Prop) (opfDir : string) :
  (forall label src : string,
      Str.nonempty label = true -> Str.nonempty src = true ->
      Q (mkChapter label
           (Regex.replaceAll false Re.backslashes "/" (underOpfDir opfDir src)))) ->
  forall np : json,
    Forall Q (walk opfDir np)
    /\ match np with
       | JArr l => Forall (fun c => Forall Q (walk opfDir c)) l
       | _ => True
       end.
Proof.
  intros HQ np.
  induction np as [| | b | z | s | l IH | fs IH] using json_nested_ind;
    try (split; [constructor | exact I]).
  - split; [constructor|].
    eapply Forall_impl; [| exact IH]. cbv beta. tauto.
  - split; [| exact I].
    cbn [walk].
    apply Forall_app. split.
    + destruct (isString (get (get (JObj fs) "navLabel") "text")) as [label|] eqn:E1;
        [| constructor].
      destruct (isString (get (get (JObj fs) "content") "@_src")) as [src|] eqn:E2;
        [| constructor].
      apply isString_Some in E1. apply isString_Some in E2.
      constructor; [| constructor]. apply HQ; tauto.
    + match goal with
      | |- Forall _ (assoc_with ?f ?d ?k fs) =>
          destruct (assoc_with_cases f d k fs) as [-> | (children & Hin & ->)]
      end; [constructor|].
      rewrite Forall_forall in IH. specialize (IH _ Hin). cbn [snd] in IH.
      destruct IH as [Hself Hkids].
      destruct children as [| | b | z | s | childArr | o]; try constructor.
      * apply Forall_flat_map.
        eapply Forall_impl; [| exact Hkids]. cbv beta.
        intros c Hc. destruct (truthy c); [exact Hc | constructor].
      * exact Hself.
Qed.

Lemma mapi_from_Forall {A B : Type} (Q : B -> Prop) (f : nat -> A -> B) (l : list A) :
  (forall i a, In a l -> Q (f i a)) ->
  forall k, Forall Q (mapi_from f k l).
Proof.
  induction l as [|a l IH]; intros H k; simpl; constructor.
  - apply H. now left.
  - apply IH. intros i a' Ha'. apply H. now right.
Qed.

Lemma derivedTitle_nonempty (i : nat) (cleanHref h : string) :
  Str.nonempty (derivedTitle i cleanHref h) = true.
Proof.
  unfold derivedTitle.
  destruct (Str.nonempty (Regex.replaceFirst false Re.extension EmptyString _)) eqn:E;
    [exact E | reflexivity].
Qed.

Lemma legacyToc_entries (cwd : string) (fs : filesystem) (parseXml : string -> result json)
    (bookRootAbs opfDir : string) (opfJson : json) (manifestMap : JsMap.t ManifestItem)
    (entries : list Chapter) :
  legacyToc cwd fs parseXml bookRootAbs opfDir opfJson manifestMap = Ok entries ->
  Forall (fun c => Str.nonempty (title c) = true /\ Str.nonempty (href c) = true) entries.
Proof.
  unfold legacyToc.
  destruct (isString _) as [tocId|]; [| intros [= <-]; constructor].
  destruct (JsMap.get tocId manifestMap) as [ncx|]; [| intros [= <-]; constructor].
  destruct (Str.nonempty (item_href ncx)); [| intros [= <-]; constructor].
  destruct (safeJoin cwd bookRootAbs _) as [ncxAbs|e]; cbn [bind]; [| discriminate].
  destruct (existsSync fs ncxAbs); [| intros [= <-]; constructor].
  intros [= <-].
  destruct (readText fs ncxAbs) as [ncxXml|e]; cbn [bind try_catch]; [| constructor].
  destruct (parseXml ncxXml) as [ncxJson|e]; cbn [bind try_catch]; [| constructor].
  unfold walkAll. apply Forall_flat_map. apply Forall_forall. intros p _.
  destruct (truthy p); [| constructor].
  apply walk_Forall. intros label src Hl Hs. cbn [title href]. split; [exact Hl|].
  apply replace_backslashes_nonempty. now apply underOpfDir_nonempty.
Qed.

Lemma navDocument_entries (cwd : string) (fs : filesystem) (bookRootAbs opfDir : string)
    (manifestMap : JsMap.t ManifestItem) (entries : list Chapter) :
  navDocument cwd fs bookRootAbs opfDir manifestMap = Ok entries ->
  Forall (fun c => Str.nonempty (title c) = true /\ Str.nonempty (href c) = true) entries.
Proof.
  unfold navDocument.
  destruct (firstWithProperty "nav" (JsMap.values manifestMap)) as [found|e]; cbn [bind];
    [| discriminate].
  destruct found as [v|]; [| intros [= <-]; constructor].
  destruct (Str.nonempty (item_href v)); [| intros [= <-]; constructor].
  destruct (safeJoin cwd bookRootAbs _) as [navAbs|e]; cbn [bind]; [| discriminate].
  destruct (existsSync fs navAbs); [| intros [= <-]; constructor].
  intros [= <-].
  destruct (readText fs navAbs) as [navHtml|e]; cbn [bind try_catch]; [| constructor].
  unfold navLinks. apply Forall_forall. intros c Hc.
  apply filterMap_In in Hc. destruct Hc as (g & _ & Hg).
  destruct (Regex.group 1 g) as [[|ch h]|]; try discriminate.
  destruct (Str.nonempty _) eqn:Ht; [| discriminate].
  injection Hg as <-. cbn [title href]. split; [exact Ht|].
  apply replace_backslashes_nonempty. now apply underOpfDir_nonempty.
Qed.

Lemma scrapeSpine_entries (cwd : string) (fs : filesystem) (bookRootAbs : string)
    (spine : list string) :
  Forall (fun h => Str.nonempty h = true) spine ->
  Forall (fun c => Str.nonempty (title c) = true /\ Str.nonempty (href c) = true)
         (scrapeSpine cwd fs bookRootAbs spine).
Proof.
  intros Hspine. rewrite Forall_forall in Hspine.
  unfold scrapeSpine, mapi. apply mapi_from_Forall. intros i h Hin. cbn [title href].
  split; [| now apply Hspine].
  destruct (try_catch _ None) as [t|]; [| apply derivedTitle_nonempty].
  destruct (Str.nonempty t) eqn:E; [exact E | apply derivedTitle_nonempty].
Qed.

Lemma merge_entries (cwd : string) (fs : filesystem) (bookRootAbs : string)
    (spine : list string) (chapters : list Chapter) :
  Forall (fun h => Str.nonempty h = true) spine ->
  Forall (fun c => Str.nonempty (title c) = true /\ Str.nonempty (href c) = true)
         (mergeChaptersWithSpine cwd fs bookRootAbs spine chapters).
Proof.
  intros Hspine. rewrite Forall_forall in Hspine.
  unfold mergeChaptersWithSpine, mapi. apply mapi_from_Forall. intros i h Hin.
  cbn [title href]. split; [| now apply Hspine].
  match goal with
  | |- Str.nonempty (if noTitle ?t1 then _ else _) = true => destruct t1 as [t|]
  end; cbn [noTitle].
  - destruct (Str.nonempty t) eqn:E; cbn [negb]; [exact E | apply derivedTitle_nonempty].
  - apply derivedTitle_nonempty.
Qed.

Lemma extractChapters_entries (cwd : string) (fs : filesystem)
    (parseXml : string -> result json) (bookRootAbs opfDir : string) (opfJson : json)
    (manifestMap : JsMap.t ManifestItem) (spine : list string) (chapters : list Chapter) :
  Forall (fun h => Str.nonempty h = true) spine ->
  extractChapters cwd fs parseXml bookRootAbs opfDir opfJson manifestMap spine = Ok chapters ->
  Forall (fun c => Str.nonempty (title c) = true /\ Str.nonempty (href c) = true) chapters
  /\ (chapters = [] -> spine = []).
Proof.
  intros Hspine. unfold extractChapters.
  destruct (legacyToc cwd fs parseXml bookRootAbs opfDir opfJson manifestMap)
    as [legacy|e] eqn:L; cbn [bind]; [| discriminate].
  destruct legacy as [|c0 legacy]; cbn [length Nat.eqb negb].
  - destruct (navDocument cwd fs bookRootAbs opfDir manifestMap) as [links|e] eqn:N;
      cbn [bind]; [| discriminate].
    destruct links as [|c1 links]; cbn [length Nat.eqb negb].
    + intros [= <-]. split; [now apply scrapeSpine_entries|].
      intros Hnil. apply (f_equal (map href)) in Hnil.
      now rewrite scrapeSpine_hrefs in Hnil.
    + intros [= <-]. split; [exact (navDocument_entries _ _ _ _ _ _ N) | discriminate].
  - intros [= <-]. split; [exact (legacyToc_entries _ _ _ _ _ _ _ _ L) | discriminate].
Qed.

Lemma firstWithProperty_In (token : string) (vals : list ManifestItem) (v : ManifestItem) :
  firstWithProperty token vals = Ok (Some v) -> In v vals.
Proof.
  induction vals as [|v0 vals IH]; simpl; [discriminate|].
  destruct (hasProperty token (item_properties v0)) as [b|e]; cbn [bind]; [| discriminate].
  destruct b; [intros [= <-]; now left | auto].
Qed.

Lemma extractCoverHref_nonempty (cwd : string) (fs : filesystem) (bookRootAbs opfDir : string)
    (opfJson : json) (manifestMap : JsMap.t ManifestItem) (spine : list string)
    (c : string) :
  Forall (fun kv => Str.nonempty (item_href (snd kv)) = true) manifestMap ->
  extractCoverHref cwd fs bookRootAbs opfDir opfJson manifestMap spine = Ok (Some c) ->
  Str.nonempty c = true.
Proof.
  intros Hm. unfold extractCoverHref. cbv zeta.
  assert (Htier23 :
            (found <- firstWithProperty "cover-image" (JsMap.values manifestMap) ;;
             match found with
             | Some v => Ok (Some (normalizeHref opfDir (item_href v)))
             | None => Ok (firstImage cwd fs bookRootAbs opfDir spine)
             end) = Ok (Some c) -> Str.nonempty c = true).
  { destruct (firstWithProperty _ _) as [[v|]|e] eqn:F; cbn [bind]; try discriminate.
    - intros [= <-]. apply firstWithProperty_In in F.
      unfold JsMap.values in F. apply in_map_iff in F. destruct F as (kv & <- & Hkv).
      rewrite Forall_forall in Hm.
      apply replace_backslashes_nonempty, underOpfDir_nonempty. now apply Hm.
    - unfold firstImage. destruct spine as [|first rest]; [discriminate|].
      destruct (safeJoin _ _ _) as [abs|e]; cbn [bind try_catch]; [| discriminate].
      destruct (readText fs abs) as [html|e]; cbn [bind try_catch]; [| discriminate].
      destruct (match Regex.exec true Re.img html with Some _ => _ | None => _ end)
        as [m|]; [| discriminate].
      destruct (Regex.group 1 (Regex.groups m)) as [[|ch s]|]; try discriminate.
      intros [= <-]. apply replace_backslashes_nonempty, underOpfDir_nonempty. reflexivity. }
  destruct (findCoverIdFromMetadata _) as [coverId|]; [| exact Htier23].
  destruct (JsMap.get coverId manifestMap) as [item|]; [| exact Htier23].
  destruct (Str.nonempty (item_href item)) eqn:E; [| exact Htier23].
  intros [= <-]. apply replace_backslashes_nonempty, underOpfDir_nonempty. exact E.
Qed.


(** X6. A manifest [parseOpf] returns has a non-empty spine of non-empty
    hrefs and at least as many chapters as spine entries; every chapter
    has a non-empty title and a non-empty href, and the cover href, when
    there is one, is not empty. *)
Theorem parseOpf_manifest_invariants (cwd : string) (fs : filesystem)
    (parseXml : string -> result json) (bookRootAbs opfRelPath : string)
    (m : BookManifest) :
  parseOpf cwd fs parseXml bookRootAbs opfRelPath = Ok m ->
  m_opfPath m = opfRelPath
  /\ m_spine m <> []
  /\ Forall (fun h => Str.nonempty h = true) (m_spine m)
  /\ length (m_spine m) <= length (m_chapters m)
  /\ Forall (fun c => Str.nonempty (title c) = true /\ Str.nonempty (href c) = true)
            (m_chapters m)
  /\ (forall c, m_coverHref m = Some c -> Str.nonempty c = true).
Proof.
  intros Hm. apply parseOpf_Ok_inv in Hm.
  destruct Hm as (opfAbs & opfXml & doc & chapters0 & coverHref & vertical
                  & _ & _ & _ & Hspine & Hch & Hcov & _ & ->).
  cbn [m_opfPath m_spine m_chapters m_coverHref].
  assert (Hne : Forall (fun h => Str.nonempty h = true) (spineOfJson opfRelPath doc)).
  { unfold spineOfJson. eapply Forall_impl; [| apply spineOf_entries]. cbv beta. tauto. }
  destruct (extractChapters_entries _ _ _ _ _ _ _ _ _ Hne Hch) as [Hentries _].
  split; [reflexivity|]. split; [exact Hspine|]. split; [exact Hne|].
  destruct (Nat.ltb (length chapters0) (length (spineOfJson opfRelPath doc))) eqn:L.
  - split; [| split].
    + rewrite <- (merge_hrefs cwd fs bookRootAbs (spineOfJson opfRelPath doc) chapters0) at 1.
      now rewrite length_map.
    + now apply merge_entries.
    + intros c ->. apply (extractCoverHref_nonempty _ _ _ _ _ _ _ _ (manifestMapOf_hrefs _) Hcov).
  - apply Nat.ltb_ge in L. split; [exact L|]. split; [exact Hentries|].
    intros c ->. apply (extractCoverHref_nonempty _ _ _ _ _ _ _ _ (manifestMapOf_hrefs _) Hcov).
Qed.

Lemma parseOpf_manifest_invariants_witness :
  exists m,
    parseOpf Sample.cwd Sample.fs Sample.parseXml "/data/books/b1" "OEBPS/content.opf" = Ok m
    /\ Forall (fun c => Str.nonempty (title c) = true /\ Str.nonempty (href c) = true)
              (m_chapters m).
Proof.
  eexists. split; [vm_compute; reflexivity|].
  refine (proj1 (proj2 (proj2 (proj2 (proj2
            (parseOpf_manifest_invariants Sample.cwd Sample.fs Sample.parseXml
               "/data/books/b1" "OEBPS/content.opf" _ _)))))).
  vm_compute. reflexivity.
Defined.

(** ** The stages at which [parseOpf] fails *)

(** X7. A failing [parseOpf] fails at exactly one stage: the path of the
    package document is rejected; or the package document cannot be read;
    or the parser rejects it; or the spine is empty; or, with a non-empty
    spine, the table of contents or the cover raises a path-traversal or
    type error. Reading or parsing a table of contents or a spine document
    never makes the parse fail. *)
Theorem parseOpf_failure_stages (cwd : string) (fs : filesystem)
    (parseXml : string -> result json) (bookRootAbs opfRelPath : string) (e : error) :
  parseOpf cwd fs parseXml bookRootAbs opfRelPath = Err e ->
  (safeJoin cwd bookRootAbs opfRelPath = Err e /\ e = PathTraversal)
  \/ (exists opfAbs,
         safeJoin cwd bookRootAbs opfRelPath = Ok opfAbs
         /\ readText fs opfAbs = Err e /\ e = ReadError)
  \/ (exists opfAbs opfXml,
         safeJoin cwd bookRootAbs opfRelPath = Ok opfAbs
         /\ readText fs opfAbs = Ok opfXml
         /\ parseXml opfXml = Err e)
  \/ (exists opfAbs opfXml doc,
         safeJoin cwd bookRootAbs opfRelPath = Ok opfAbs
         /\ readText fs opfAbs = Ok opfXml
         /\ parseXml opfXml = Ok doc
         /\ ((spineOfJson opfRelPath doc = [] /\ e = EmptySpine)
             \/ (spineOfJson opfRelPath doc <> []
                 /\ (e = PathTraversal \/ e = TypeError)
                 /\ (extractChapters cwd fs parseXml bookRootAbs (opfDirOf opfRelPath) doc
                       (manifestMapOfJson doc) (spineOfJson opfRelPath doc) = Err e
                     \/ extractCoverHref cwd fs bookRootAbs (opfDirOf opfRelPath) doc
                          (manifestMapOfJson doc) (spineOfJson opfRelPath doc) = Err e)))).
Proof.
  intros H.
  destruct (safeJoin cwd bookRootAbs opfRelPath) as [opfAbs|e0] eqn:J.
  2:{ left. unfold parseOpf in H. rewrite J in H. cbn [bind] in H.
      injection H as <-. split; [reflexivity|]. exact (safeJoin_Err _ _ _ _ J). }
  right.
  destruct (readText fs opfAbs) as [opfXml|e0] eqn:R.
  2:{ left. exists opfAbs. unfold parseOpf in H. rewrite J in H. cbn [bind] in H.
      rewrite R in H. cbn [bind] in H. injection H as <-.
      split; [reflexivity|]. split; [exact R|].
      unfold readText, readFile in R. destruct (fs opfAbs) as [[c|]|]; congruence. }
  right.
  destruct (parseXml opfXml) as [doc|e0] eqn:P.
  2:{ left. exists opfAbs, opfXml. unfold parseOpf in H. rewrite J in H. cbn [bind] in H.
      rewrite R in H. cbn [bind] in H. rewrite P in H. cbn [bind] in H.
      injection H as <-. auto. }
  right. exists opfAbs, opfXml, doc.
  split; [reflexivity|]. split; [exact R|]. split; [exact P|].
  rewrite (parseOpf_steps cwd fs parseXml _ _ _ _ _ J R P) in H.
  destruct (spineOfJson opfRelPath doc) as [|h rest] eqn:S.
  - left. cbn [length Nat.eqb] in H. injection H as <-. auto.
  - right. split; [discriminate|]. cbn [length Nat.eqb] in H.
    destruct (extractChapters _ _ _ _ _ _ _ _) as [chapters0|e0] eqn:C; cbn [bind] in H.
    + destruct (extractCoverHref _ _ _ _ _ _ _) as [coverHref|e0] eqn:V; cbn [bind] in H.
      * destruct (detectVertical_total cwd fs bookRootAbs (h :: rest) opfRelPath) as [b Hb].
        rewrite Hb in H. discriminate.
      * injection H as <-. split; [| now right].
        right. exact (extractCoverHref_Err _ _ _ _ _ _ _ _ V).
    + injection H as <-. split; [| now left].
      exact (extractChapters_Err _ _ _ _ _ _ _ _ _ C).
Qed.

Lemma parseOpf_failure_stages_witness :
  extractChapters Sample.cwd Sample.fs Sample.parseXml "/data/books/b7"
    (opfDirOf "content.opf") Sample.b7_opf_json (manifestMapOfJson Sample.b7_opf_json)
    (spineOfJson "content.opf" Sample.b7_opf_json)
  = Err PathTraversal.
Proof.
  destruct (parseOpf_failure_stages Sample.cwd Sample.fs Sample.parseXml
              "/data/books/b7" "content.opf" PathTraversal) as [H | [H | [H | H]]].
  - vm_compute. reflexivity.
  - destruct H as [H _]. discriminate H.
  - destruct H as (opfAbs & J & R & _). injection J as <-. discriminate R.
  - destruct H as (opfAbs & opfXml & J & R & P).
    injection J as <-. injection R as <-. discriminate P.
  - destruct H as (opfAbs & opfXml & doc & J & R & P & H).
    injection J as <-. injection R as <-. injection P as <-.
    destruct H as [[S _] | (_ & _ & [C | V])].
    + discriminate S.
    + exact C.
    + discriminate V.
Defined.

(** ** Signals of the first spine document *)

Lemma namesVerticalMode_test (html : string) :
  namesVerticalMode html -> Regex.test true Re.vertical_rl_lr html = true.
Proof.
  intros (pre & post & H). unfold Regex.test, Regex.exec.
  assert (Hex : Regex.exec_from true Re.vertical_rl_lr None html <> None).
  { destruct H as [-> | ->]; apply exec_from_later; intros prev; discriminate. }
  destruct (Regex.exec_from _ _ _ _); [reflexivity | contradiction].
Qed.

(** X8. When the first spine document can be read and names a vertical
    writing mode, or declares right-to-left page progression itself,
    [detectVertical] returns [true] whatever the package document holds:
    the package document is consulted only after the first spine
    document. *)
Theorem detectVertical_first_document (cwd : string) (fs : filesystem)
    (bookRootAbs first : string) (rest : list string) (abs html : string) :
  Str.nonempty first = true ->
  safeJoin cwd bookRootAbs (Str.split0 "#" first) = Ok abs ->
  fs abs = Some (File html) ->
  namesVerticalMode html \/ declaresRtl html ->
  forall opfRelPath : string,
    detectVertical cwd fs bookRootAbs (first :: rest) opfRelPath = Ok true.
Proof.
  intros Hne J Hfile Hsignal opfRelPath. unfold detectVertical.
  rewrite Hne. cbn [negb]. rewrite J. cbn [bind].
  unfold readText, readFile. rewrite Hfile. cbn [bind try_catch].
  destruct Hsignal as [Hv | Hr].
  - rewrite (namesVerticalMode_test _ Hv). rewrite orb_true_r. reflexivity.
  - rewrite (declaresRtl_test _ Hr). rewrite !orb_true_r. reflexivity.
Qed.

Lemma detectVertical_first_document_witness :
  detectVertical "/srv"
    (fun p => if String.eqb p "/data/books/v1/c1.xhtml"
              then Some (File "<html style='writing-mode: vertical-rl'><body/></html>")
              else None)
    "/data/books/v1" ["c1.xhtml#top"; "c2.xhtml"] "content.opf"
  = Ok true.
Proof.
  apply (detectVertical_first_document "/srv" _ "/data/books/v1" "c1.xhtml#top" ["c2.xhtml"]
           "/data/books/v1/c1.xhtml"
           "<html style='writing-mode: vertical-rl'><body/></html>").
  - reflexivity.
  - reflexivity.
  - reflexivity.
  - left. exists "<html style='writing-mode: ", "'><body/></html>". left. reflexivity.
Defined.

(** ** White space of the titles *)

(** Replacing the runs of white space, as the scan does it. *)
Lemma scan_spaces (s : string) :
  (forall prev,
      Regex.replace_pieces " " (Regex.scan false Re.spaces prev s (leadingSpaces s))
      = collapseSpaces true s)
  /\ (forall prev,
        Regex.replace_pieces " " (Regex.scan false Re.spaces prev s 0)
        = collapseSpaces false s).
Proof.
  induction s as [|c s [IHrun IHout]].
  - split; intros prev; reflexivity.
  - assert (Hout : forall prev,
               Regex.replace_pieces " " (Regex.scan false Re.spaces prev (String c s) 0)
               = collapseSpaces false (String c s)).
    { intros prev. cbn [Regex.scan]. rewrite match_at_spaces.
      cbn [collapseSpaces]. destruct (Regex.space c).
      - pose proof (trimStart_length s) as Hlen.
        replace (String.length (String c s) - String.length (trimStart s))
          with (S (leadingSpaces s)) by (cbn [String.length]; lia).
        cbn [Regex.replace_pieces]. rewrite IHrun. reflexivity.
      - cbn [Regex.replace_pieces]. now rewrite IHout. }
    split; [| exact Hout].
    intros prev. cbn [leadingSpaces].
    destruct (Regex.space c) eqn:E.
    + cbn [Regex.scan collapseSpaces]. rewrite E. apply IHrun.
    + rewrite Hout. cbn [collapseSpaces]. now rewrite E.
Qed.

Lemma collapseSpaces_spaced (s : string) :
  forall b, singleSpaced b (collapseSpaces b s) = true.
Proof.
  induction s as [|c s IH]; intros b; [reflexivity|].
  cbn [collapseSpaces]. destruct (Regex.space c) eqn:E.
  - destruct b; [apply IH|].
    cbn [singleSpaced]. change (Regex.space " ") with true. cbn [negb andb].
    rewrite IH. reflexivity.
  - cbn [singleSpaced]. rewrite E. apply IH.
Qed.

Lemma trimStart_spaced (t : string) :
  forall b, singleSpaced b t = true -> singleSpaced true (trimStart t) = true.
Proof.
  induction t as [|c t IH]; intros b H; [reflexivity|].
  cbn [trimStart singleSpaced] in *. destruct (Regex.space c) eqn:E.
  - apply andb_prop in H. destruct H as [_ H]. now apply (IH true).
  - cbn [singleSpaced]. now rewrite E.
Qed.

Lemma trimEnd_spaced (t : string) :
  forall b, singleSpaced b t = true -> singleSpaced b (trimEnd t) = true.
Proof.
  induction t as [|c t IH]; intros b H; [reflexivity|].
  cbn [trimEnd]. cbn [singleSpaced] in H.
  destruct (trimEnd t) as [|d u] eqn:T.
  - destruct (Regex.space c) eqn:E; [reflexivity|].
    cbn [singleSpaced]. now rewrite E.
  - cbn [singleSpaced]. fold singleSpaced.
    destruct (Regex.space c) eqn:E.
    + apply andb_prop in H. destruct H as [H1 H2]. rewrite H1. cbn [andb].
      apply (IH true H2).
    + apply (IH false H).
Qed.

Lemma trimEnd_no_trailing_space (t : string) : endsWithSpace (trimEnd t) = false.
Proof.
  induction t as [|c t IH]; [reflexivity|].
  cbn [trimEnd]. destruct (trimEnd t) as [|d u] eqn:T.
  - destruct (Regex.space c) eqn:E; [reflexivity|]. cbn [endsWithSpace]. exact E.
  - cbn [endsWithSpace]. exact IH.
Qed.

(** X9. [stripTags] normalizes white space: its result neither starts nor
    ends with white space, and every white-space character in it is a
    single space between two other characters. *)
Theorem stripTags_normalizes_white_space (s : string) :
  singleSpaced true (stripTags s) = true
  /\ endsWithSpace (stripTags s) = false.
Proof.
  unfold stripTags, trim. split; [| apply trimEnd_no_trailing_space].
  apply trimEnd_spaced. apply (trimStart_spaced _ false).
  unfold Regex.replaceAll at 1.
  rewrite (proj2 (scan_spaces _)). apply collapseSpaces_spaced.
Qed.

(** ** Paths below a root *)

Lemma split_plain (s : string) :
  Str.contains Path.slash s = false -> Str.split Path.slash s = [s].
Proof.
  induction s as [|c s IH]; simpl; intros H; [reflexivity|].
  apply orb_false_iff in H. destruct H as [Hc Hs].
  rewrite Hc, (IH Hs). reflexivity.
Qed.

Lemma fold_split_absolute (segs : list string) (rest : string) :
  Forall (fun s => plainSegment s = true) segs ->
  fold_left Path.norm_step
    (Str.split Path.slash (absolutePath segs ++ String Path.slash rest)) []
  = fold_left Path.norm_step (Str.split Path.slash rest) (rev segs).
Proof.
  intros H. destruct segs as [|s segs].
  - reflexivity.
  - rewrite split_absolutePath; [| discriminate | exact H].
    cbn [fold_left].
    change (Path.norm_step [] EmptyString) with (@nil string).
    rewrite fold_left_app, (fold_norm_plain _ _ H). now rewrite app_nil_r.
Qed.

Lemma resolved_segments_absolute (cwd : string) (segs : list string) :
  Forall (fun s => plainSegment s = true) segs ->
  Path.resolved_segments cwd (absolutePath segs) = segs.
Proof.
  intros H. unfold Path.resolved_segments.
  change (Path.resolve_concat [absolutePath segs; cwd] EmptyString)
    with (absolutePath segs ++ String Path.slash EmptyString).
  now apply split_absolutePath_slash.
Qed.

Lemma split_join (path : list string) (rest : string) :
  path <> [] ->
  Forall (fun s => plainSegment s = true) path ->
  Str.split Path.slash (Str.join "/" path ++ String Path.slash rest)
  = (path ++ Str.split Path.slash rest)%list.
Proof.
  intros Hne H.
  pose proof (split_absolutePath path rest Hne H) as E.
  unfold absolutePath in E. cbn [append Str.split] in E.
  change (Ascii.eqb "/" Path.slash) with true in E. cbv iota in E.
  now injection E.
Qed.

Lemma join_nonempty (path : list string) :
  path <> [] ->
  Forall (fun s => plainSegment s = true) path ->
  exists c rest, Str.join "/" path = String c rest /\ Ascii.eqb c Path.slash = false.
Proof.
  intros Hne H. destruct path as [|s path]; [contradiction|].
  inversion H as [|? ? Hs _]; subst.
  apply plainSegment_inv in Hs. destruct Hs as (Hn & Hslash & _).
  destruct s as [|c s]; [discriminate|].
  simpl in Hslash. apply orb_false_iff in Hslash. destruct Hslash as [Hc _].
  destruct path as [|s' path].
  - exists c, s. split; [reflexivity | exact Hc].
  - exists c, (s ++ "/" ++ Str.join "/" (s' :: path)). split; [reflexivity | exact Hc].
Qed.

Lemma endsWith_app (a b suffix : string) :
  Str.endsWith b suffix = true -> Str.endsWith (a ++ b) suffix = true.
Proof.
  intros H. induction a as [|c a IH]; [exact H|].
  cbn [append Str.endsWith]. rewrite IH. apply orb_true_r.
Qed.

Lemma endsWith_slash_false (s : string) :
  Str.nonempty s = true -> Str.contains Path.slash s = false ->
  Str.endsWith s "/" = false.
Proof.
  induction s as [|c s IH]; [discriminate|].
  intros _ H. simpl in H. apply orb_false_iff in H. destruct H as [Hc Hs].
  cbn [Str.endsWith]. apply orb_false_iff. split.
  - apply String.eqb_neq. intros E. injection E as E1 E2. subst c. discriminate Hc.
  - destruct s as [|d s]; [reflexivity|]. now apply IH.
Qed.

Lemma endsWith_slash_app (a s : string) :
  Str.nonempty s = true -> Str.contains Path.slash s = false ->
  Str.endsWith (a ++ s) "/" = false.
Proof.
  intros Hn Hs. induction a as [|c a IH]; [now apply endsWith_slash_false|].
  cbn [append Str.endsWith]. rewrite IH, orb_false_r.
  destruct (a ++ s) as [|d r] eqn:E.
  - destruct a; simpl in E; [rewrite E in Hn; discriminate Hn | discriminate E].
  - apply String.eqb_neq. intros F. injection F as _ F. discriminate F.
Qed.

(** [path.join(dir, name)] for a directory in normal form and an entry
    name. *)
Lemma join_entry (segs : list string) (name : string) :
  Forall (fun s => plainSegment s = true) segs ->
  plainSegment name = true ->
  Path.join [absolutePath segs; name] = absolutePath (segs ++ [name]).
Proof.
  intros Hsegs Hname.
  pose proof (plainSegment_inv _ Hname) as (Hn & Hslash & _).
  unfold Path.join. cbn [filter].
  change (Str.nonempty (absolutePath segs)) with true. rewrite Hn.
  cbv iota. cbn [Str.join].
  change (absolutePath segs ++ "/" ++ name)
    with (absolutePath segs ++ String Path.slash name).
  unfold Path.normalize.
  change (absolutePath segs ++ String Path.slash name)
    with (String "/" (Str.join "/" segs ++ String Path.slash name)) at 1.
  cbv iota.
  change (Path.isAbsolute (absolutePath segs ++ String Path.slash name)) with true.
  cbv iota.
  rewrite (fold_split_absolute segs name Hsegs), (split_plain _ Hslash).
  cbn [fold_left]. rewrite (norm_step_plain _ _ Hname).
  cbn [rev]. rewrite rev_involutive.
  assert (Htrail : Str.endsWith (absolutePath segs ++ String Path.slash name) "/" = false).
  { replace (absolutePath segs ++ String Path.slash name)
      with ((absolutePath segs ++ "/") ++ name)
      by (rewrite string_app_assoc; reflexivity).
    apply endsWith_slash_app; assumption. }
  rewrite Htrail.
  assert (Hplain : Forall (fun s => plainSegment s = true) (segs ++ [name])).
  { apply Forall_app. split; [exact Hsegs | constructor; [exact Hname | constructor]]. }
  destruct (join_nonempty (segs ++ [name])) as (c & r & E & _);
    [now destruct segs | exact Hplain |].
  unfold absolutePath. rewrite E. cbv iota.
  now rewrite string_app_nil_r.
Qed.

(** Resolving a relative path in normal form against a root in normal
    form appends its segments. *)
Lemma resolve_relative_path (cwd : string) (rootSegs path : list string) :
  Forall (fun s => plainSegment s = true) rootSegs ->
  path <> [] ->
  Forall (fun s => plainSegment s = true) path ->
  Path.resolve cwd (absolutePath rootSegs) (Str.join "/" path)
  = absolutePath (rootSegs ++ path).
Proof.
  intros Hroot Hne Hpath.
  destruct (join_nonempty path Hne Hpath) as (c & r & E & Hc).
  unfold Path.resolve.
  assert (Hconcat : Path.resolve_concat
                      [Str.join "/" path; absolutePath rootSegs; cwd] EmptyString
                    = absolutePath rootSegs
                      ++ String Path.slash (Str.join "/" path ++ String Path.slash EmptyString)).
  { cbn [Path.resolve_concat]. rewrite E. cbn [Str.nonempty Path.isAbsolute].
    rewrite Hc. reflexivity. }
  rewrite Hconcat. unfold Path.normalize_segments.
  rewrite (fold_split_absolute rootSegs _ Hroot), (split_join path _ Hne Hpath).
  rewrite fold_left_app, (fold_norm_plain _ _ Hpath).
  cbn [Str.split fold_left].
  change (Path.norm_step (rev path ++ rev rootSegs) EmptyString)
    with (rev path ++ rev rootSegs)%list.
  now rewrite rev_app_distr, !rev_involutive.
Qed.

Lemma absolutePath_prefix (rootSegs path : list string) :
  String.prefix (absolutePath rootSegs) (absolutePath (rootSegs ++ path)) = true.
Proof.
  unfold absolutePath. cbn [append String.prefix].
  destruct (ascii_dec "/" "/") as [_|n]; [| contradiction].
  induction rootSegs as [|s segs IH].
  - destruct (Str.join "/" ([] ++ path)); reflexivity.
  - destruct segs as [|s' segs].
    + destruct path as [|p path]; [apply prefix_refl|].
      change (Str.join "/" ([s] ++ p :: path)) with (s ++ "/" ++ Str.join "/" (p :: path)).
      apply prefix_app.
    + change (Str.join "/" (s :: s' :: segs))
        with (s ++ "/" ++ Str.join "/" (s' :: segs)).
      change (Str.join "/" ((s :: s' :: segs) ++ path))
        with (s ++ "/" ++ Str.join "/" ((s' :: segs) ++ path)).
      rewrite prefix_app_same. cbn [append String.prefix].
      destruct (ascii_dec "/" "/") as [_|n]; [exact IH | contradiction].
Qed.

Lemma drop_common_prefix (l path : list string) :
  Path.drop_common l (l ++ path) = ([], path).
Proof.
  induction l as [|x l IH]; simpl.
  - now destruct path.
  - now rewrite String.eqb_refl.
Qed.

(** [path.relative] from a root to a path below it. *)
Lemma relative_below (cwd : string) (rootSegs path : list string) :
  Forall (fun s => plainSegment s = true) rootSegs ->
  Forall (fun s => plainSegment s = true) path ->
  path <> [] ->
  Path.relative cwd (absolutePath rootSegs) (absolutePath (rootSegs ++ path))
  = Str.join "/" path.
Proof.
  intros Hroot Hpath Hne.
  assert (Hall : Forall (fun s => plainSegment s = true) (rootSegs ++ path))
    by (apply Forall_app; auto).
  unfold Path.relative.
  destruct (String.eqb (absolutePath rootSegs) (absolutePath (rootSegs ++ path))) eqn:E.
  - exfalso. apply String.eqb_eq in E.
    apply (f_equal (Path.resolved_segments cwd)) in E.
    rewrite (resolved_segments_absolute cwd _ Hroot),
            (resolved_segments_absolute cwd _ Hall) in E.
    rewrite <- (app_nil_r rootSegs) in E at 1. apply app_inv_head in E.
    now symmetry in E.
  - rewrite (resolved_segments_absolute cwd _ Hroot),
            (resolved_segments_absolute cwd _ Hall), drop_common_prefix.
    reflexivity.
Qed.

Lemma contains_app (c : ascii) (a b : string) :
  Str.contains c (a ++ b) = Str.contains c a || Str.contains c b.
Proof.
  induction a as [|d a IH]; simpl; [reflexivity|].
  now rewrite IH, orb_assoc.
Qed.

Lemma join_noBackslash (path : list string) :
  Forall noBackslash path -> noBackslash (Str.join "/" path).
Proof.
  unfold noBackslash. induction 1 as [|s path Hs _ IH]; [reflexivity|].
  destruct path as [|s' path]; [exact Hs|].
  change (Str.join "/" (s :: s' :: path)) with (s ++ "/" ++ Str.join "/" (s' :: path)).
  rewrite !contains_app, Hs, IH. reflexivity.
Qed.

Lemma replace_backslashes_id (s : string) :
  noBackslash s -> Regex.replaceAll false Re.backslashes "/" s = s.
Proof.
  unfold noBackslash, Regex.replaceAll. rewrite scan_backslashes.
  induction s as [|c s IH]; intros H; [reflexivity|].
  simpl in H. apply orb_false_iff in H. destruct H as [Hc Hs].
  cbn [list_ascii_of_string map string_of_list_ascii].
  now rewrite Hc, (IH Hs).
Qed.

(** ** The directory tree *)

Lemma lookupTree_app (a b : list string) :
  forall t : tree,
    lookupTree t (a ++ b)
    = match lookupTree t a with
      | Some t' => lookupTree t' b
      | None => None
      end.
Proof.
  induction a as [|seg a IH]; intros t; [reflexivity|].
  cbn [app lookupTree].
  destruct t as [content| |entries|]; try reflexivity.
  destruct (entryNamed seg entries); [apply IH | reflexivity].
Qed.

Lemma entryNamed_In (name : string) (sub : tree) (entries : list (string * tree)) :
  distinct (map fst entries) = true ->
  In (name, sub) entries ->
  entryNamed name entries = Some sub.
Proof.
  unfold entryNamed.
  induction entries as [|[k v] entries IH]; intros Hd Hin; [contradiction|].
  cbn [map fst distinct] in Hd. apply andb_prop in Hd. destruct Hd as [Hk Hd].
  cbn [assoc_with].
  destruct Hin as [E | Hin].
  - injection E as -> ->. now rewrite String.eqb_refl.
  - destruct (String.eqb k name) eqn:E; [| now apply IH].
    exfalso. apply String.eqb_eq in E. subst k.
    apply negb_true_iff in Hk.
    assert (Hex : existsb (String.eqb name) (map fst entries) = true).
    { apply existsb_exists. exists name. split; [| apply String.eqb_refl].
      apply in_map_iff. exists (name, sub). auto. }
    congruence.
Qed.

Lemma entryNamed_Some (name : string) (sub : tree) (entries : list (string * tree)) :
  entryNamed name entries = Some sub -> In (name, sub) entries.
Proof.
  unfold entryNamed.
  induction entries as [|[k v] entries IH]; cbn [assoc_with]; [discriminate|].
  destruct (String.eqb k name) eqn:E.
  - apply String.eqb_eq in E. subst k. intros [= <-]. now left.
  - intros H. right. auto.
Qed.

Lemma wellFormedTree_entry (entries : list (string * tree)) (name : string) (sub : tree) :
  wellFormedTree (TDir entries) = true ->
  In (name, sub) entries ->
  plainSegment name = true /\ wellFormedTree sub = true
  /\ entryNamed name entries = Some sub.
Proof.
  cbn [wellFormedTree]. intros H Hin.
  apply andb_prop in H. destruct H as [Hd Hall].
  rewrite forallb_forall in Hall. specialize (Hall _ Hin). cbv beta iota in Hall.
  apply andb_prop in Hall. destruct Hall as [Hn Hw].
  split; [exact Hn|]. split; [exact Hw|]. now apply entryNamed_In.
Qed.

Lemma walkOpfs_cons (dir name : string) (sub : tree) (more : list (string * tree)) :
  walkOpfs dir (TDir ((name, sub) :: more))
  = (pushed <- match sub with
               | TDir _ | TLocked => walkOpfs (Path.join [dir; name]) sub
               | TFile _ =>
                   Ok (if Str.endsWith (Str.toLowerCase name) ".opf"
                       then [Path.join [dir; name]] else [])
               | TOther => Ok []
               end ;;
     later <- walkOpfs dir (TDir more) ;;
     Ok (pushed ++ later)%list).
Proof. reflexivity. Qed.

Lemma opfPaths_cons (name : string) (sub : tree) (more : list (string * tree)) :
  opfPaths (TDir ((name, sub) :: more))
  = (match sub with
     | TDir _ => map (cons name) (opfPaths sub)
     | TFile _ => if opfName name then [[name]] else []
     | TOther | TLocked => []
     end ++ opfPaths (TDir more))%list.
Proof. reflexivity. Qed.

Lemma listable_cons (name : string) (sub : tree) (more : list (string * tree)) :
  listable (TDir ((name, sub) :: more)) = listable sub && listable (TDir more).
Proof. reflexivity. Qed.

(** The only failure of the walk is the failed listing. *)
Lemma walkOpfs_Err (t : tree) :
  forall (dir : string) (e : error), walkOpfs dir t = Err e -> e = ReadError.
Proof.
  induction t as [content| |entries IH|] using tree_nested_ind; intros dir e;
    try (cbn [walkOpfs]; congruence).
  induction entries as [|[name sub] entries IHentries]; [discriminate|].
  rewrite walkOpfs_cons.
  inversion IH as [|? ? IHsub IHrest]; subst. cbn [snd] in IHsub.
  specialize (IHentries IHrest).
  destruct sub as [content| |subentries|]; cbn [bind].
  - destruct (walkOpfs dir (TDir entries)) eqn:W; cbn [bind]; [discriminate|].
    intros [= <-]. now apply IHentries.
  - destruct (walkOpfs dir (TDir entries)) eqn:W; cbn [bind]; [discriminate|].
    intros [= <-]. now apply IHentries.
  - destruct (walkOpfs (Path.join [dir; name]) (TDir subentries)) eqn:S; cbn [bind].
    + destruct (walkOpfs dir (TDir entries)) eqn:W; cbn [bind]; [discriminate|].
      intros [= <-]. now apply IHentries.
    + intros [= <-]. now apply (IHsub _ _ S).
  - cbn [walkOpfs bind]. congruence.
Qed.

(** When every directory can be listed, the paths the walk pushes are
    the paths of the package documents below the directory, under the
    path of the directory; otherwise the walk fails. *)
Lemma walkOpfs_paths_below (t : tree) :
  wellFormedTree t = true ->
  forall segs : list string,
    Forall (fun s => plainSegment s = true) segs ->
    match t with
    | TFile _ | TOther => True
    | TDir _ | TLocked =>
        walkOpfs (absolutePath segs) t
        = if listable t
          then Ok (map (fun path => absolutePath (segs ++ path)) (opfPaths t))
          else Err ReadError
    end.
Proof.
  induction t as [content| |entries IH|] using tree_nested_ind; intros Hwf segs Hsegs;
    try exact I; [| reflexivity].
  assert (Hentries : forall name sub, In (name, sub) entries ->
                       plainSegment name = true /\ wellFormedTree sub = true).
  { intros name sub Hin. destruct (wellFormedTree_entry _ _ _ Hwf Hin) as (H1 & H2 & _).
    auto. }
  clear Hwf. induction entries as [|[name sub] entries IHentries]; [reflexivity|].
  rewrite walkOpfs_cons, opfPaths_cons, listable_cons, map_app.
  inversion IH as [|? ? IHsub IHrest]; subst. cbn [snd] in IHsub.
  destruct (Hentries name sub (or_introl eq_refl)) as [Hname Hsub].
  rewrite (IHentries IHrest (fun n s Hin => Hentries n s (or_intror Hin))).
  rewrite (join_entry segs name Hsegs Hname).
  assert (Hbelow : Forall (fun s => plainSegment s = true) (segs ++ [name])%list).
  { apply Forall_app. split; [exact Hsegs | constructor; [exact Hname | constructor]]. }
  specialize (IHsub Hsub (segs ++ [name])%list Hbelow).
  destruct sub as [content| |subentries|].
  - change (listable (TFile content)) with true.
    destruct (listable (TDir entries)); cbn [andb bind]; [| reflexivity].
    unfold opfName. destruct (Str.endsWith (Str.toLowerCase name) ".opf"); reflexivity.
  - change (listable TOther) with true.
    destruct (listable (TDir entries)); reflexivity.
  - rewrite IHsub.
    destruct (listable (TDir subentries)); cbn [bind andb]; [| reflexivity].
    destruct (listable (TDir entries)); cbn [bind]; [| reflexivity].
    rewrite map_map. do 2 f_equal. apply map_ext. intros path. now rewrite <- app_assoc.
  - reflexivity.
Qed.

Lemma walkOpfs_paths (entries : list (string * tree)) :
  wellFormedTree (TDir entries) = true ->
  forall segs : list string,
    Forall (fun s => plainSegment s = true) segs ->
    walkOpfs (absolutePath segs) (TDir entries)
    = if listable (TDir entries)
      then Ok (map (fun path => absolutePath (segs ++ path)) (opfPaths (TDir entries)))
      else Err ReadError.
Proof. intros Hwf segs Hsegs. exact (walkOpfs_paths_below (TDir entries) Hwf segs Hsegs). Qed.

Lemma flat_map_nonempty {A B : Type} (f : A -> list B) (l : list A) (a : A) :
  In a l -> f a <> [] -> flat_map f l <> [].
Proof.
  induction l as [|x l IH]; [contradiction|].
  intros [-> | Hin] Hf; cbn [flat_map].
  - destruct (f a); [contradiction | discriminate].
  - intros E. apply app_eq_nil in E. destruct E as [_ E]. now apply (IH Hin Hf).
Qed.

(** Every path of [opfPaths] leads to a file with the name of a package
    document. *)
Lemma opfPaths_lookup (t : tree) :
  wellFormedTree t = true ->
  forall path : list string,
    In path (opfPaths t) ->
    Forall (fun s => plainSegment s = true) path
    /\ exists (init : list string) (name content : string),
         path = (init ++ [name])%list
         /\ opfName name = true
         /\ lookupTree t path = Some (TFile content).
Proof.
  induction t as [content| |entries IH|] using tree_nested_ind; intros Hwf path Hin;
    try contradiction.
  cbn [opfPaths] in Hin. apply in_flat_map in Hin.
  destruct Hin as ([name sub] & He & Hin).
  destruct (wellFormedTree_entry _ _ _ Hwf He) as (Hname & Hsub & Hentry).
  rewrite Forall_forall in IH. specialize (IH _ He). cbn [snd] in IH.
  destruct sub as [content| |subentries|].
  - destruct (opfName name) eqn:Hopf; [| contradiction].
    destruct Hin as [<- | []].
    split; [constructor; [exact Hname | constructor]|].
    exists [], name, content. cbn [app lookupTree]. rewrite Hentry. auto.
  - contradiction.
  - apply in_map_iff in Hin. destruct Hin as (path' & <- & Hin').
    destruct (IH Hsub path' Hin') as (Hplain & init & leaf & content & -> & Hopf & Hlook).
    split; [constructor; assumption|].
    exists (name :: init), leaf, content. cbn [app lookupTree]. rewrite Hentry. auto.
  - contradiction.
Qed.

(** A file with the name of a package document is among the paths. *)
Lemma lookup_opf_found (init : list string) (name content : string) :
  opfName name = true ->
  forall t : tree,
    lookupTree t (init ++ [name]) = Some (TFile content) ->
    opfPaths t <> [].
Proof.
  intros Hopf. induction init as [|seg init IH]; intros t Hlook.
  - cbn [app lookupTree] in Hlook.
    destruct t as [c| |entries|]; try discriminate.
    destruct (entryNamed name entries) as [sub|] eqn:E; [| discriminate].
    injection Hlook as ->. apply entryNamed_Some in E.
    cbn [opfPaths]. apply (flat_map_nonempty _ _ _ E). cbv beta iota.
    rewrite Hopf. discriminate.
  - cbn [app lookupTree] in Hlook.
    destruct t as [c| |entries|]; try discriminate.
    destruct (entryNamed seg entries) as [sub|] eqn:E; [| discriminate].
    apply entryNamed_Some in E.
    cbn [opfPaths]. apply (flat_map_nonempty _ _ _ E). cbv beta iota.
    destruct sub as [c| |subentries|].
    + destruct init; discriminate Hlook.
    + destruct init; discriminate Hlook.
    + intros F. apply map_eq_nil in F. exact (IH _ Hlook F).
    + destruct init; discriminate Hlook.
Qed.

(** A tree whose directories can all be listed has no unlistable
    directory at any path, and conversely. *)
Lemma listable_lookup (t : tree) :
  listable t = true ->
  forall path : list string, lookupTree t path <> Some TLocked.
Proof.
  induction t as [content| |entries IH|] using tree_nested_ind; intros Hl path;
    try discriminate Hl; destruct path as [|seg path]; cbn [lookupTree]; try discriminate.
  destruct (entryNamed seg entries) as [sub|] eqn:E; [| discriminate].
  apply entryNamed_Some in E.
  rewrite Forall_forall in IH. specialize (IH _ E). cbn [snd] in IH.
  apply IH. cbn [listable] in Hl. rewrite forallb_forall in Hl. exact (Hl _ E).
Qed.

Lemma forallb_false {A : Type} (f : A -> bool) (l : list A) :
  forallb f l = false -> exists a, In a l /\ f a = false.
Proof.
  induction l as [|a l IH]; cbn [forallb]; [discriminate|].
  destruct (f a) eqn:E; cbn [andb].
  - intros H. destruct (IH H) as (x & Hin & Hx). exists x. split; [now right | exact Hx].
  - intros _. exists a. split; [now left | exact E].
Qed.

Lemma locked_lookup (t : tree) :
  wellFormedTree t = true ->
  listable t = false ->
  exists path : list string, lookupTree t path = Some TLocked.
Proof.
  induction t as [content| |entries IH|] using tree_nested_ind; intros Hwf Hl;
    try discriminate Hl; [| now exists []].
  cbn [listable] in Hl. apply forallb_false in Hl.
  destruct Hl as ([name sub] & Hin & Hsub).
  destruct (wellFormedTree_entry _ _ _ Hwf Hin) as (_ & Hwsub & Hentry).
  rewrite Forall_forall in IH. specialize (IH _ Hin). cbn [snd] in IH.
  destruct (IH Hwsub Hsub) as [path Hpath].
  exists (name :: path). cbn [lookupTree]. now rewrite Hentry.
Qed.

(** Without a file named as a package document there is no path. *)
Lemma no_opf_lookup (t : tree) :
  opfPaths t = [] ->
  forall (init : list string) (name content : string),
    lookupTree t (init ++ [name]) = Some (TFile content) -> opfName name = false.
Proof.
  intros Hnone init name content Hlook.
  destruct (opfName name) eqn:Hopf; [| reflexivity].
  exfalso. exact (lookup_opf_found init name content Hopf t Hlook Hnone).
Qed.

(** ** [findOpfPath] *)

Lemma readdir_root (cwd : string) (disk : tree) (rootSegs : list string)
    (entries : list (string * tree)) :
  Forall (fun s => plainSegment s = true) rootSegs ->
  lookupTree disk rootSegs = Some (TDir entries) ->
  readdir cwd disk (absolutePath rootSegs) = Ok entries.
Proof.
  intros Hroot Hdir. unfold readdir.
  now rewrite (resolved_segments_absolute cwd _ Hroot), Hdir.
Qed.

(** Without container descriptor, [findOpfPath] fails when a directory
    cannot be listed and takes the first path the walk pushes
    otherwise. *)
Lemma findOpfPath_fallback (cwd : string) (disk : tree) (parseXml : string -> result json)
    (rootSegs : list string) (entries : list (string * tree)) :
  Forall (fun s => plainSegment s = true) rootSegs ->
  lookupTree disk rootSegs = Some (TDir entries) ->
  wellFormedTree (TDir entries) = true ->
  existsSync (treeFs cwd disk)
    (Path.join [absolutePath rootSegs; "META-INF"; "container.xml"]) = false ->
  findOpfPath cwd disk parseXml (absolutePath rootSegs)
  = if listable (TDir entries)
    then match opfPaths (TDir entries) with
         | [] => Err OpfNotFound
         | path :: _ =>
             Ok (Regex.replaceAll false Re.backslashes "/"
                   (Path.relative cwd (absolutePath rootSegs)
                      (absolutePath (rootSegs ++ path))))
         end
    else Err ReadError.
Proof.
  intros Hroot Hdir Hwf Hnone. unfold findOpfPath. rewrite Hnone. cbn [negb].
  rewrite (readdir_root cwd disk rootSegs entries Hroot Hdir). cbn [bind].
  rewrite (walkOpfs_paths _ Hwf rootSegs Hroot).
  destruct (listable (TDir entries)); cbn [bind]; [| reflexivity].
  destruct (opfPaths (TDir entries)); reflexivity.
Qed.

(** X10. Without container descriptor, [findOpfPath] fails with the
    not-found error exactly when every directory below the root can be
    listed and no file below the root, at any depth, has a name that ends
    in [.opf], whatever the case of the letters. When a directory below
    the root cannot be listed, it fails with the error of the listing,
    whatever files the other directories hold. *)
Theorem findOpfPath_not_found (cwd : string) (disk : tree)
    (parseXml : string -> result json) (rootSegs : list string)
    (entries : list (string * tree)) :
  Forall (fun s => plainSegment s = true) rootSegs ->
  lookupTree disk rootSegs = Some (TDir entries) ->
  wellFormedTree (TDir entries) = true ->
  existsSync (treeFs cwd disk)
    (Path.join [absolutePath rootSegs; "META-INF"; "container.xml"]) = false ->
  (findOpfPath cwd disk parseXml (absolutePath rootSegs) = Err OpfNotFound
   <-> (forall path : list string, lookupTree (TDir entries) path <> Some TLocked)
       /\ (forall (init : list string) (name content : string),
             lookupTree (TDir entries) (init ++ [name]) = Some (TFile content) ->
             opfName name = false))
  /\ ((exists path : list string, lookupTree (TDir entries) path = Some TLocked) ->
      findOpfPath cwd disk parseXml (absolutePath rootSegs) = Err ReadError).
Proof.
  intros Hroot Hdir Hwf Hnone.
  rewrite (findOpfPath_fallback cwd disk parseXml rootSegs entries Hroot Hdir Hwf Hnone).
  destruct (listable (TDir entries)) eqn:Hl.
  - pose proof (listable_lookup _ Hl) as Hfree.
    split; [split |].
    + intros H. split; [exact Hfree|].
      apply no_opf_lookup. destruct (opfPaths (TDir entries)); [reflexivity | discriminate H].
    + intros [_ H].
      destruct (opfPaths (TDir entries)) as [|path more] eqn:E; [reflexivity|].
      exfalso.
      destruct (opfPaths_lookup _ Hwf path)
        as (_ & init & name & content & -> & Hopf & Hlook).
      { rewrite E. now left. }
      rewrite (H init name content Hlook) in Hopf. discriminate.
    + intros [path Hpath]. exfalso. exact (Hfree path Hpath).
  - destruct (locked_lookup _ Hwf Hl) as [path Hpath].
    split; [split |].
    + discriminate.
    + intros [Hfree _]. exfalso. exact (Hfree path Hpath).
    + reflexivity.
Qed.

Lemma findOpfPath_not_found_witness :
  findOpfPath "/srv" SampleDisk.disk SampleDisk.parseXml "/data/books/b10"
  = Err OpfNotFound
  /\ findOpfPath "/srv" SampleDisk.disk SampleDisk.parseXml "/data/books/b12"
     = Err ReadError.
Proof.
  split.
  - apply (findOpfPath_not_found "/srv" SampleDisk.disk SampleDisk.parseXml
             ["data"; "books"; "b10"]
             [("images", TDir []); ("notes.txt", TFile "opf")]).
    + repeat constructor.
    + reflexivity.
    + reflexivity.
    + reflexivity.
    + split.
      * apply listable_lookup. reflexivity.
      * apply no_opf_lookup. reflexivity.
  - apply (findOpfPath_not_found "/srv" SampleDisk.disk SampleDisk.parseXml
             ["data"; "books"; "b12"]
             [("content.opf", TFile "<package/>"); ("private", TLocked)]).
    + repeat constructor.
    + reflexivity.
    + reflexivity.
    + reflexivity.
    + exists ["private"]. reflexivity.
Defined.

(** X11. Without container descriptor, the path [findOpfPath] returns is
    the path of the first file, in depth-first order, whose name ends in
    [.opf]. When no name on that path has a backslash, the returned path
    passes [safeJoin] against the root and names that file, so that
    [parseOpf] reads the package document found. *)
Theorem findOpfPath_fallback_locates (cwd : string) (disk : tree)
    (parseXml : string -> result json) (rootSegs : list string)
    (entries : list (string * tree)) (rel : string) :
  Forall (fun s => plainSegment s = true) rootSegs ->
  lookupTree disk rootSegs = Some (TDir entries) ->
  wellFormedTree (TDir entries) = true ->
  existsSync (treeFs cwd disk)
    (Path.join [absolutePath rootSegs; "META-INF"; "container.xml"]) = false ->
  findOpfPath cwd disk parseXml (absolutePath rootSegs) = Ok rel ->
  exists (path : list string) (content : string),
    hd_error (opfPaths (TDir entries)) = Some path
    /\ lookupTree (TDir entries) path = Some (TFile content)
    /\ rel = Regex.replaceAll false Re.backslashes "/" (Str.join "/" path)
    /\ (Forall noBackslash path ->
        rel = Str.join "/" path
        /\ safeJoin cwd (absolutePath rootSegs) rel = Ok (absolutePath (rootSegs ++ path))
        /\ readText (treeFs cwd disk) (absolutePath (rootSegs ++ path)) = Ok content).
Proof.
  intros Hroot Hdir Hwf Hnone.
  rewrite (findOpfPath_fallback cwd disk parseXml rootSegs entries Hroot Hdir Hwf Hnone).
  destruct (listable (TDir entries)); [| discriminate].
  destruct (opfPaths (TDir entries)) as [|path more] eqn:E; [discriminate|].
  intros [= <-].
  destruct (opfPaths_lookup _ Hwf path) as (Hplain & init & name & content & Hpath & Hopf & Hlook).
  { rewrite E. now left. }
  assert (Hne : path <> []) by (rewrite Hpath; now destruct init).
  assert (Hall : Forall (fun s => plainSegment s = true) (rootSegs ++ path))
    by (apply Forall_app; auto).
  rewrite (relative_below cwd rootSegs path Hroot Hplain Hne).
  exists path, content.
  split; [reflexivity|]. split; [exact Hlook|]. split; [reflexivity|].
  intros Hclean.
  rewrite (replace_backslashes_id _ (join_noBackslash _ Hclean)).
  split; [reflexivity|]. split.
  - rewrite safeJoin_cases, (resolve_relative_path cwd rootSegs path Hroot Hne Hplain).
    now rewrite absolutePath_prefix.
  - unfold readText, readFile, treeFs.
    rewrite (resolved_segments_absolute cwd _ Hall), lookupTree_app, Hdir, Hlook.
    reflexivity.
Qed.

Lemma findOpfPath_fallback_locates_witness :
  exists (path : list string) (content : string),
    hd_error
      (opfPaths
         (TDir [("mimetype", TFile "application/epub+zip");
                ("OEBPS", TDir [("text", TDir [("ch1.xhtml", TFile "<html/>")]);
                                ("Content.OPF", TFile "<package/>")]);
                ("z.opf", TFile "<package/>")]))
    = Some path
    /\ lookupTree
         (TDir [("mimetype", TFile "application/epub+zip");
                ("OEBPS", TDir [("text", TDir [("ch1.xhtml", TFile "<html/>")]);
                                ("Content.OPF", TFile "<package/>")]);
                ("z.opf", TFile "<package/>")])
         path = Some (TFile content)
    /\ "OEBPS/Content.OPF" = Regex.replaceAll false Re.backslashes "/" (Str.join "/" path)
    /\ (Forall noBackslash path ->
        "OEBPS/Content.OPF" = Str.join "/" path
        /\ safeJoin "/srv" (absolutePath ["data"; "books"; "b8"]) "OEBPS/Content.OPF"
           = Ok (absolutePath (["data"; "books"; "b8"] ++ path))
        /\ readText (treeFs "/srv" SampleDisk.disk)
             (absolutePath (["data"; "books"; "b8"] ++ path)) = Ok content).
Proof.
  apply (findOpfPath_fallback_locates "/srv" SampleDisk.disk SampleDisk.parseXml
           ["data"; "books"; "b8"]
           [("mimetype", TFile "application/epub+zip");
            ("OEBPS", TDir [("text", TDir [("ch1.xhtml", TFile "<html/>")]);
                            ("Content.OPF", TFile "<package/>")]);
            ("z.opf", TFile "<package/>")]
           "OEBPS/Content.OPF").
  - repeat constructor.
  - reflexivity.
  - reflexivity.
  - reflexivity.
  - reflexivity.
Defined.

(** X12. The outcomes of [findOpfPath], for a parser that raises no
    error but its own. A returned path has no backslash, and is non-empty
    when it comes from a container descriptor. A failure without container
    descriptor is the not-found error or the failed listing of the root or
    of a directory below it; a failure with one is the failed read, the
    error of the parser, the missing root file or the type error of a
    full-path attribute that is no string: with a descriptor the
    directories are never scanned, and the not-found error is not
    raised. *)
Theorem findOpfPath_outcomes (cwd : string) (disk : tree)
    (parseXml : string -> result json) (root : string) :
  (forall (xml : string) (e : error), parseXml xml = Err e -> e = XmlError) ->
  (forall rel, findOpfPath cwd disk parseXml root = Ok rel ->
     noBackslash rel
     /\ (existsSync (treeFs cwd disk) (Path.join [root; "META-INF"; "container.xml"]) = true ->
         Str.nonempty rel = true))
  /\ (forall e, findOpfPath cwd disk parseXml root = Err e ->
        (existsSync (treeFs cwd disk) (Path.join [root; "META-INF"; "container.xml"]) = false
         /\ (e = OpfNotFound \/ e = ReadError))
        \/ (existsSync (treeFs cwd disk) (Path.join [root; "META-INF"; "container.xml"]) = true
            /\ (e = ReadError \/ e = XmlError \/ e = MissingRootfile \/ e = TypeError)))
  /\ (findOpfPath cwd disk parseXml root = Err OpfNotFound ->
      existsSync (treeFs cwd disk) (Path.join [root; "META-INF"; "container.xml"]) = false).
Proof.
  intros Hparser.
  assert (Hmain :
    (forall rel, findOpfPath cwd disk parseXml root = Ok rel ->
       noBackslash rel
       /\ (existsSync (treeFs cwd disk) (Path.join [root; "META-INF"; "container.xml"]) = true ->
           Str.nonempty rel = true))
    /\ (forall e, findOpfPath cwd disk parseXml root = Err e ->
          (existsSync (treeFs cwd disk) (Path.join [root; "META-INF"; "container.xml"]) = false
           /\ (e = OpfNotFound \/ e = ReadError))
          \/ (existsSync (treeFs cwd disk) (Path.join [root; "META-INF"; "container.xml"]) = true
              /\ (e = ReadError \/ e = XmlError \/ e = MissingRootfile \/ e = TypeError)))).
  { unfold findOpfPath.
    destruct (existsSync (treeFs cwd disk) (Path.join [root; "META-INF"; "container.xml"]))
      eqn:Hc; cbn [negb].
    - destruct (readText (treeFs cwd disk) (Path.join [root; "META-INF"; "container.xml"]))
        as [xml|e0] eqn:Hread; cbn [bind].
      2:{ split; [discriminate|]. intros e [= <-]. right. split; [reflexivity|].
          left. unfold readText, readFile in Hread.
          destruct (treeFs cwd disk _) as [[content|]|]; congruence. }
      destruct (parseXml xml) as [doc|e0] eqn:Hparse; cbn [bind].
      2:{ split; [discriminate|]. intros e [= <-]. right. split; [reflexivity|].
          right. left. exact (Hparser xml e0 Hparse). }
      set (fullPath := match get (get (get doc "container") "rootfiles") "rootfile" with
                       | JArr l => get (nth 0 l JUndefined) "@_full-path"
                       | other => get other "@_full-path"
                       end).
      assert (Hcases :
        forall r : result string,
          r = match fullPath with
              | JStr s => if Str.nonempty s
                          then Ok (Regex.replaceAll false Re.backslashes "/" s)
                          else Err MissingRootfile
              | other => if truthy other then Err TypeError else Err MissingRootfile
              end ->
          (forall rel, r = Ok rel ->
             noBackslash rel /\ (true = true -> Str.nonempty rel = true))
          /\ (forall e, r = Err e ->
                (true = false /\ (e = OpfNotFound \/ e = ReadError))
                \/ (true = true
                    /\ (e = ReadError \/ e = XmlError \/ e = MissingRootfile
                        \/ e = TypeError)))).
      { intros r ->. destruct fullPath as [| |b|z|s|l|o]; cbn [truthy].
        1,2: split; [discriminate | intros e [= <-]; right; auto].
        - destruct b; split; try discriminate; intros e [= <-]; right; auto.
        - destruct (negb _); split; try discriminate; intros e [= <-]; right; auto.
        - destruct (Str.nonempty s) eqn:Hs.
          + split; [| discriminate]. intros rel [= <-]. split.
            * apply replace_backslashes_clean.
            * intros _. now apply replace_backslashes_nonempty.
          + split; [discriminate | intros e [= <-]; right; auto].
        - split; [discriminate | intros e [= <-]; right; auto].
        - split; [discriminate | intros e [= <-]; right; auto]. }
      apply Hcases. subst fullPath.
      destruct (get (get (get doc "container") "rootfiles") "rootfile"); reflexivity.
    - destruct (readdir cwd disk root) as [entries|e0] eqn:Hdir; cbn [bind].
      2:{ split; [discriminate|]. intros e [= <-]. left. split; [reflexivity|].
          right. unfold readdir in Hdir.
          destruct (lookupTree disk _) as [[content| |entries|]|]; congruence. }
      destruct (walkOpfs root (TDir entries)) as [opfs|e0] eqn:Hwalk; cbn [bind].
      2:{ split; [discriminate|]. intros e [= <-]. left. split; [reflexivity|].
          right. exact (walkOpfs_Err _ _ _ Hwalk). }
      destruct opfs as [|first more].
      + split; [discriminate|]. intros e [= <-]. left. auto.
      + split; [| discriminate]. intros rel [= <-]. split.
        * apply replace_backslashes_clean.
        * discriminate. }
  destruct Hmain as [Hok Herr].
  split; [exact Hok|]. split; [exact Herr|].
  intros H. destruct (Herr _ H) as [[Hc _] | [_ [E | [E | [E | E]]]]];
    [exact Hc | discriminate E ..].
Qed.

Lemma findOpfPath_outcomes_witness :
  findOpfPath "/srv" SampleDisk.disk SampleDisk.parseXml "/data/books/b9"
  = Ok "OEBPS/content.opf"
  /\ noBackslash "OEBPS/content.opf"
  /\ Str.nonempty "OEBPS/content.opf" = true.
Proof.
  assert (H : findOpfPath "/srv" SampleDisk.disk SampleDisk.parseXml "/data/books/b9"
              = Ok "OEBPS/content.opf") by (vm_compute; reflexivity).
  assert (Hparser : forall (xml : string) (e : error),
             SampleDisk.parseXml xml = Err e -> e = XmlError).
  { intros xml e. unfold SampleDisk.parseXml.
    destruct (String.eqb xml SampleDisk.container); [discriminate|].
    destruct (String.eqb xml SampleDisk.container_two); [discriminate|].
    congruence. }
  split; [exact H|].
  destruct (proj1 (findOpfPath_outcomes "/srv" SampleDisk.disk SampleDisk.parseXml
                     "/data/books/b9" Hparser) "OEBPS/content.opf" H) as [Hclean Hne].
  split; [exact Hclean | apply Hne; reflexivity].
Defined.

(** ** The merge and the scraping agree *)

(** X13. For a spine entry that no discovered chapter labels, the merge
    step produces the entry per-document scraping produces at the same
    index: page title, then base name, then [Chapter N], under the href of
    the spine entry. A document that is a directory, is missing or lies
    outside the root gives the same derived title on both sides. *)
Theorem merge_unlabelled_is_scraped (cwd : string) (fs : filesystem)
    (bookRootAbs : string) (spine : list string) (chapters : list Chapter)
    (i : nat) (h : string) :
  nth_error spine i = Some h ->
  firstTitleFor (Str.split0 "#" h) chapters = None ->
  nth_error (mergeChaptersWithSpine cwd fs bookRootAbs spine chapters) i
  = nth_error (scrapeSpine cwd fs bookRootAbs spine) i.
Proof.
  intros Hi Hnone. unfold mergeChaptersWithSpine, scrapeSpine, mapi.
  rewrite !mapi_from_nth, Hi. cbn [option_map Nat.add].
  rewrite titleMapOf_get, Hnone. cbn [noTitle].
  destruct (safeJoin cwd bookRootAbs (Str.split0 "#" h)) as [abs|e]; cbn [bind try_catch].
  2:{ reflexivity. }
  unfold existsSync, readText, readFile.
  destruct (fs abs) as [[html|]|]; cbn [bind try_catch].
  - destruct (pageTitle html) as [t|]; cbn [noTitle]; [| reflexivity].
    destruct (Str.nonempty t); reflexivity.
  - reflexivity.
  - assert (E : pageTitle EmptyString = None) by (vm_compute; reflexivity).
    rewrite E. reflexivity.
Qed.

Lemma merge_unlabelled_is_scraped_witness :
  nth_error
    (mergeChaptersWithSpine Sample.cwd Sample.fs "/data/books/b4"
       ["c1.xhtml"; "c2.xhtml"; "notes/"] [mkChapter "Opening" "c1.xhtml#top"]) 1
  = nth_error
      (scrapeSpine Sample.cwd Sample.fs "/data/books/b4" ["c1.xhtml"; "c2.xhtml"; "notes/"]) 1.
Proof.
  apply (merge_unlabelled_is_scraped Sample.cwd Sample.fs "/data/books/b4"
           ["c1.xhtml"; "c2.xhtml"; "notes/"] [mkChapter "Opening" "c1.xhtml#top"]
           1 "c2.xhtml").
  - reflexivity.
  - vm_compute. reflexivity.
Defined.

(** ** The container descriptor *)

(** X14. Of the root files a container descriptor declares, only the
    first is consulted: its full path is returned with the separators
    normalized; when it has no full path, or an empty one, [findOpfPath]
    fails with the missing-root-file error, whatever the later root files
    declare and whatever package documents the directories hold. *)
Theorem findOpfPath_first_rootfile (cwd : string) (disk : tree)
    (parseXml : string -> result json) (root xml : string) (doc first : json)
    (more : list json) :
  readText (treeFs cwd disk) (Path.join [root; "META-INF"; "container.xml"]) = Ok xml ->
  parseXml xml = Ok doc ->
  get (get (get doc "container") "rootfiles") "rootfile" = JArr (first :: more) ->
  (forall s : string,
      get first "@_full-path" = JStr s ->
      Str.nonempty s = true ->
      findOpfPath cwd disk parseXml root
      = Ok (Regex.replaceAll false Re.backslashes "/" s))
  /\ (truthy (get first "@_full-path") = false ->
      findOpfPath cwd disk parseXml root = Err MissingRootfile).
Proof.
  intros Hread Hparse Hroot.
  assert (Hexists :
    existsSync (treeFs cwd disk) (Path.join [root; "META-INF"; "container.xml"]) = true).
  { unfold readText, readFile in Hread. unfold existsSync.
    destruct (treeFs cwd disk _) as [n|]; [reflexivity | discriminate]. }
  unfold findOpfPath. rewrite Hexists. cbn [negb]. rewrite Hread. cbn [bind].
  rewrite Hparse. cbn [bind]. rewrite Hroot. cbn [nth].
  split.
  - intros s -> ->. reflexivity.
  - intros Hfalsy.
    destruct (get first "@_full-path") as [| |b|z|s|l|o]; cbn [truthy] in *;
      rewrite ?Hfalsy; try reflexivity; discriminate Hfalsy.
Qed.

Lemma findOpfPath_first_rootfile_witness :
  findOpfPath "/srv" SampleDisk.disk SampleDisk.parseXml "/data/books/b11"
  = Err MissingRootfile.
Proof.
  apply (findOpfPath_first_rootfile "/srv" SampleDisk.disk SampleDisk.parseXml
           "/data/books/b11" SampleDisk.container_two SampleDisk.container_two_json
           (JObj [("@_media-type", JStr "x")])
           [JObj [("@_full-path", JStr "content.opf")]]).
  - vm_compute. reflexivity.
  - vm_compute. reflexivity.
  - reflexivity.
  - reflexivity.
Defined.

